(** * hrm-project-management: PR enrichment, bounded retry, repo context, session paging

    A shallow embedding of the Python services

      - [src/python/github_service.py]            (class GithubService),
      - [src/python_lib/github_client/client.py]  (class GitHubClient),
      - [src/python/jules_service.py]             (class JulesService),

    followed by the properties of the specification that concern them.

    Python values coming from the provider are JSON values; dictionary
    access, [.get], truthiness, slicing and iteration follow what the
    interpreter does on each kind of value, raising where it raises.
    Network effects are threaded through an explicit world that answers
    the n-th transport call and records what was sent and slept. *)

From Stdlib Require Import ZArith List String Ascii Bool Lia Permutation.
From Stdlib Require Import DecimalString.
Import ListNotations.
Local Open Scope string_scope.
Local Open Scope list_scope.

Set Implicit Arguments.
Set Warnings "-register-all".

(* ===================================================================== *)
(** ** Python values, exceptions and the operations the services use      *)
(* ===================================================================== *)

Module Py.

(** A decoded JSON document.  Numbers are integers: no claim depends on
    fractional values. *)
Inductive json : Type :=
| JNull
| JBool (b : bool)
| JNum (n : Z)
| JStr (s : string)
| JArr (l : list json)
| JObj (o : list (string * json)).

(** A [dict] with string keys, in insertion order. *)
Definition pydict := list (string * json).

Inductive exn : Type :=
| Exception (msg : json)        (* raise Exception(msg) *)
| KeyError (k : string)
| TypeError
| AttributeError
| ValueError                    (* json / base64 / utf-8 decoding *)
| ConnectionError (why : string).

Inductive result (A : Type) : Type :=
| Ok (a : A)
| Raise (e : exn).
Arguments Ok {A} a.
Arguments Raise {A} e.

Definition rbind {A B} (r : result A) (k : A -> result B) : result B :=
  match r with
  | Ok a => k a
  | Raise e => Raise e
  end.

Fixpoint rmap {A B} (f : A -> result B) (l : list A) : result (list B) :=
  match l with
  | [] => Ok []
  | x :: l' =>
      rbind (f x) (fun y => rbind (rmap f l') (fun ys => Ok (y :: ys)))
  end.

(** *** Dictionaries *)

Fixpoint dict_lookup (k : string) (d : pydict) : option json :=
  match d with
  | [] => None
  | (k', v) :: d' => if String.eqb k k' then Some v else dict_lookup k d'
  end.

(** [d[k] = v]: an existing key keeps its position, a new one goes last. *)
Fixpoint dict_set (k : string) (v : json) (d : pydict) : pydict :=
  match d with
  | [] => [(k, v)]
  | (k', v') :: d' =>
      if String.eqb k k' then (k, v) :: d' else (k', v') :: dict_set k v d'
  end.

(** [d.update(u)], also the meaning of [{**d, k1: v1, ...}]. *)
Definition dict_update (d u : pydict) : pydict :=
  fold_left (fun acc kv => dict_set (fst kv) (snd kv) acc) u d.

(** [v[k]] for a string subscript. *)
Definition getitem (v : json) (k : string) : result json :=
  match v with
  | JObj o =>
      match dict_lookup k o with
      | Some x => Ok x
      | None => Raise (KeyError k)
      end
  | _ => Raise TypeError
  end.

(** [v.get(k, default)]. *)
Definition get (v : json) (k : string) (default : json) : result json :=
  match v with
  | JObj o =>
      Ok (match dict_lookup k o with Some x => x | None => default end)
  | _ => Raise AttributeError
  end.

(** [**v] inside a dict display, [v.copy()] on a dict. *)
Definition mapping (v : json) (otherwise : exn) : result pydict :=
  match v with
  | JObj o => Ok o
  | _ => Raise otherwise
  end.

(** *** Truthiness, comparisons *)

Definition truthy (v : json) : bool :=
  match v with
  | JNull => false
  | JBool b => b
  | JNum n => negb (Z.eqb n 0)
  | JStr s => negb (String.eqb s "")
  | JArr l => match l with [] => false | _ => true end
  | JObj o => match o with [] => false | _ => true end
  end.

(** [a or b]. *)
Definition por (a b : json) : json := if truthy a then a else b.

(** [v == 'lit'] for a string literal. *)
Definition is_str (lit : string) (v : json) : bool :=
  match v with
  | JStr s => String.eqb s lit
  | _ => false
  end.

(** [v in ['a', 'b', ...]] for a list of string literals. *)
Definition in_strs (v : json) (lits : list string) : bool :=
  existsb (fun lit => is_str lit v) lits.

(** [v is True]. *)
Definition is_True (v : json) : bool :=
  match v with
  | JBool true => true
  | _ => false
  end.

(** [v > n] for an integer literal: [bool] is an [int], every other kind
    of value is unorderable against an [int]. *)
Definition gt_int (v : json) (n : Z) : result bool :=
  match v with
  | JNum m => Ok (n <? m)%Z
  | JBool b => Ok (n <? (if b then 1 else 0))%Z
  | _ => Raise TypeError
  end.

Definition isinstance_list (v : json) : bool :=
  match v with JArr _ => true | _ => false end.

Definition isinstance_str (v : json) : bool :=
  match v with JStr _ => true | _ => false end.

(** *** Strings *)

(** A [str] is held as the bytes of its UTF-8 encoding, so that equality,
    concatenation, prefixes, suffixes and containment are those of the
    text.  A character is a byte that is not of the form [10xxxxxx]
    together with the bytes of that form that follow it; lengths and
    slices count characters. *)
Definition is_continuation (c : ascii) : bool :=
  match c with
  | Ascii _ _ _ _ _ _ b6 b7 => b7 && negb b6
  end.

(** [len(s)]. *)
Fixpoint char_length (s : string) : nat :=
  match s with
  | EmptyString => O
  | String c s' =>
      if is_continuation c then char_length s' else S (char_length s')
  end.

(** [s[:n]]: the bytes before the character of index [n]. *)
Fixpoint take_chars (n : nat) (s : string) : string :=
  match s with
  | EmptyString => EmptyString
  | String c s' =>
      if is_continuation c then String c (take_chars n s')
      else match n with
           | O => EmptyString
           | S n' => String c (take_chars n' s')
           end
  end.

(** [s] starts inside a character. *)
Definition continues (s : string) : bool :=
  match s with
  | EmptyString => false
  | String c _ => is_continuation c
  end.

(** The characters of [s], each as a string of its own. *)
Fixpoint chars (s : string) : list string :=
  match s with
  | EmptyString => []
  | String c s' =>
      match chars s' with
      | [] => [String c EmptyString]
      | g :: gs =>
          if continues g then String c g :: gs
          else String c EmptyString :: g :: gs
      end
  end.

Fixpoint is_infix (p s : string) : bool :=
  String.prefix p s ||
  match s with
  | EmptyString => false
  | String _ s' => is_infix p s'
  end.

Definition lower_ascii (c : ascii) : ascii :=
  let n := nat_of_ascii c in
  if (65 <=? n)%nat && (n <=? 90)%nat then ascii_of_nat (n + 32) else c.

Fixpoint lower_string (s : string) : string :=
  match s with
  | EmptyString => EmptyString
  | String c s' => String (lower_ascii c) (lower_string s')
  end.

(** [v.lower()]. *)
Definition lower (v : json) : result string :=
  match v with
  | JStr s => Ok (lower_string s)
  | _ => Raise AttributeError
  end.

(** [f"{n}"] for an integer. *)
Definition str_of_int (n : Z) : string := NilZero.string_of_int (Z.to_int n).

(** ["sep".join(items)]: every item must be a [str]. *)
Fixpoint join (sep : string) (items : list json) : result string :=
  match items with
  | [] => Ok ""
  | JStr s :: rest =>
      match rest with
      | [] => Ok s
      | _ :: _ => rbind (join sep rest) (fun t => Ok (s ++ sep ++ t)%string)
      end
  | _ :: _ => Raise TypeError
  end.

(** *** Membership, iteration, slicing *)

(** ['k' in v]. *)
Definition contains (k : string) (v : json) : result bool :=
  match v with
  | JObj o => Ok (match dict_lookup k o with Some _ => true | None => false end)
  | JArr l => Ok (existsb (is_str k) l)
  | JStr s => Ok (is_infix k s)
  | _ => Raise TypeError
  end.

(** [for x in v]: the items a loop or comprehension visits. *)
Definition iter (v : json) : result (list json) :=
  match v with
  | JArr l => Ok l
  | JStr s => Ok (map JStr (chars s))
  | JObj o => Ok (map (fun kv => JStr (fst kv)) o)
  | _ => Raise TypeError
  end.

(** [v[:n]]; slicing a dict raises ([TypeError] up to Python 3.11,
    [KeyError] from 3.12 on). *)
Definition slice_to (n : nat) (v : json) : result json :=
  match v with
  | JArr l => Ok (JArr (firstn n l))
  | JStr s => Ok (JStr (take_chars n s))
  | _ => Raise TypeError
  end.

(** [len(v) > 0] after an [isinstance(v, list)] test. *)
Definition nonempty_list (v : json) : bool :=
  match v with
  | JArr (_ :: _) => true
  | _ => false
  end.

(** *** Dictionaries keyed by arbitrary hashable values *)

Definition hashable (v : json) : bool :=
  match v with
  | JArr _ | JObj _ => false
  | _ => true
  end.

(** Key identity in a [dict]: [==] on hashable scalars, where [True == 1]
    and [False == 0]. *)
Definition key_eqb (a b : json) : bool :=
  match a, b with
  | JNull, JNull => true
  | JStr s, JStr t => String.eqb s t
  | JNum n, JNum m => Z.eqb n m
  | JBool x, JBool y => Bool.eqb x y
  | JBool x, JNum n => Z.eqb n (if x then 1 else 0)
  | JNum n, JBool x => Z.eqb n (if x then 1 else 0)
  | _, _ => false
  end.

Fixpoint kv_set (k v : json) (d : list (json * json)) : list (json * json) :=
  match d with
  | [] => [(k, v)]
  | (k', v') :: d' =>
      if key_eqb k' k then (k', v) :: d' else (k', v') :: kv_set k v d'
  end.

(** [d[k] = v] on a dict with arbitrary keys. *)
Definition setitem (d : list (json * json)) (k v : json)
  : result (list (json * json)) :=
  if hashable k then Ok (kv_set k v d) else Raise TypeError.

End Py.

Export Py.

Declare Scope py_scope.
Delimit Scope py_scope with py.
Notation "'let!' x ':=' e 'in' k" := (rbind e (fun x => k))
  (at level 10, x name, e at level 100, k at level 200) : py_scope.
Local Open Scope py_scope.

(* ===================================================================== *)
(** ** The HTTP boundary ([requests]) and the world behind it              *)
(* ===================================================================== *)

Module Http.

Inductive Method := GET | POST | PATCH | DELETE.

Definition method_eqb (a b : Method) : bool :=
  match a, b with
  | GET, GET | POST, POST | PATCH, PATCH | DELETE, DELETE => true
  | _, _ => false
  end.

(** The f-string paths of the services, one constructor per template;
    the holes keep the value that is interpolated. *)
Inductive Endpoint : Type :=
| Pulls (repo state : string)           (* /repos/{repo}/pulls?state={state}&per_page=100 *)
| PullDetail (repo : string) (number : json)      (* /repos/{repo}/pulls/{number} *)
| PullReviews (repo : string) (number : json)     (* /repos/{repo}/pulls/{number}/reviews *)
| CheckRuns (repo : string) (ref : json)          (* /repos/{repo}/commits/{ref}/check-runs *)
| Contents (repo path : string)                   (* /repos/{repo}/contents/{path} *)
| Sessions (page_token : option json).            (* sessions[?pageToken={token}] *)

Record Request : Type := mkRequest {
  method : Method;
  endpoint : Endpoint;
  accept_diff : bool
}.

(** What the services read of a [requests.Response]: [body] is what
    [response.json()] returns, [None] when the body is not JSON and the
    call raises. Header names are stored lower-cased. *)
Record Response : Type := mkResponse {
  status_code : Z;
  headers : list (string * string);
  body : option json;
  text : string
}.

Inductive Outcome : Type :=
| Reply (r : Response)
| Failed (e : exn).          (* requests.request itself raised *)

Inductive Event : Type :=
| Sent (rq : Request)
| Slept (secs : Z).

(** The provider answers the n-th transport call; [trace] is what the
    process did so far, oldest first. *)
Record World : Type := mkWorld {
  net : nat -> Request -> Outcome;
  calls : nat;
  trace : list Event
}.

Definition M (A : Type) : Type := World -> result A * World.

Definition ret {A} (a : A) : M A := fun w => (Ok a, w).

Definition raise {A} (e : exn) : M A := fun w => (Raise e, w).

Definition bind {A B} (m : M A) (k : A -> M B) : M B :=
  fun w =>
    match m w with
    | (Ok a, w') => k a w'
    | (Raise e, w') => (Raise e, w')
    end.

Definition lift {A} (r : result A) : M A := fun w => (r, w).

(** [try: body except: handler]. *)
Definition try_except {A} (body : M A) (handler : exn -> M A) : M A :=
  fun w =>
    match body w with
    | (Ok a, w') => (Ok a, w')
    | (Raise e, w') => handler e w'
    end.

(** A loop body run over the items, collecting what each one yields. *)
Fixpoint for_each {A B} (f : A -> M B) (l : list A) : M (list B) :=
  match l with
  | [] => ret []
  | x :: l' =>
      bind (f x) (fun y => bind (for_each f l') (fun ys => ret (y :: ys)))
  end.

(** [requests.request(method, url, ...)]. *)
Definition requests_request (rq : Request) : M Response :=
  fun w =>
    let w' := mkWorld (net w) (S (calls w)) (trace w ++ [Sent rq]) in
    match net w (calls w) rq with
    | Reply r => (Ok r, w')
    | Failed e => (Raise e, w')
    end.

(** [time.sleep(secs)]. *)
Definition time_sleep (secs : Z) : M unit :=
  fun w => (Ok tt, mkWorld (net w) (calls w) (trace w ++ [Slept secs])).

(** [response.ok]: [raise_for_status] raises exactly for 4xx and 5xx. *)
Definition ok (r : Response) : bool :=
  negb ((400 <=? status_code r)%Z && (status_code r <? 600)%Z).

(** [response.json()]. *)
Definition response_json (r : Response) : result json :=
  match body r with
  | Some v => Ok v
  | None => Raise ValueError
  end.

(** [response.headers.get(name)]. *)
Fixpoint header (name : string) (hs : list (string * string)) : option string :=
  match hs with
  | [] => None
  | (n, v) :: hs' => if String.eqb n name then Some v else header name hs'
  end.

(** [status == 429 or (status == 403 and
     headers.get('x-ratelimit-remaining') == '0')]. *)
Definition rate_limited (r : Response) : bool :=
  (status_code r =? 429)%Z ||
  ((status_code r =? 403)%Z &&
   match header "x-ratelimit-remaining" (headers r) with
   | Some v => String.eqb v "0"
   | None => false
   end).

Definition rate_limit_message : json := JStr "GitHub API Rate Limit Exceeded.".

(** [f"Error: {response.status_code}"]. *)
Definition generic_message (r : Response) : json :=
  JStr ("Error: " ++ str_of_int (status_code r))%string.

End Http.

Export Http.

Declare Scope io_scope.
Delimit Scope io_scope with io.
Notation "x <- m ;; k" := (bind m (fun x => k))
  (at level 61, m at next level, right associativity) : io_scope.
Notation "m ;;; k" := (bind m (fun _ => k))
  (at level 61, right associativity) : io_scope.
Local Open Scope io_scope.

(* ===================================================================== *)
(** ** Records shared by the two GitHub services                          *)
(* ===================================================================== *)

Module Records.

(** The dict [{'name': .., 'status': .., 'conclusion': .., 'url': ..}]
    that [fetch_check_runs] builds for every check-run. *)
Record CheckResult : Type := mkCheckResult {
  name : json;
  status : json;
  conclusion : json;
  url : json
}.

Definition check_json (r : CheckResult) : json :=
  JObj [("name", name r); ("status", status r);
        ("conclusion", conclusion r); ("url", url r)].

(** The derived keys laid over the detail record, in display order. *)
Definition enriched_fields (status : string) (check_results : list CheckResult)
    (approved big ready leader : bool) : pydict :=
  [("testStatus", JStr status);
   ("checkResults", JArr (map check_json check_results));
   ("isApproved", JBool approved);
   ("isBig", JBool big);
   ("isReadyToMerge", JBool ready);
   ("isLeaderBranch", JBool leader)].

(** The dict [fetch_core_repo_context] returns. *)
Record RepoContext : Type := mkRepoContext {
  fileList : string;
  readmeSnippet : json;
  packageJson : json;
  hasCI : bool
}.

(** [base64.b64decode(content).decode('utf-8')] given the library's
    decoder, which yields [None] where it raises. *)
Definition decode_content (b64decode_utf8 : string -> option string)
    (content : json) : result json :=
  match content with
  | JStr s =>
      match b64decode_utf8 s with
      | Some t => Ok (JStr t)
      | None => Raise ValueError
      end
  | _ => Raise TypeError
  end.

End Records.

Export Records.

(* ===================================================================== *)
(** ** src/python/github_service.py                                       *)
(* ===================================================================== *)

Module GithubService.

(** lines 38-44: the provider's ['message'] when the body has one. *)
Definition error_message (response : Response) : json :=
  match (let! error_body := response_json response in
         let! has := contains "message" error_body in
         if has then getitem error_body "message"
         else Ok (generic_message response)) with
  | Ok m => m
  | Raise _ => generic_message response
  end.

(** lines 34-45: what [_request] raises on sight of the response. *)
Definition check_response (response : Response) : result unit :=
  if rate_limited response then Raise (Exception rate_limit_message)
  else if negb (ok response) then Raise (Exception (error_message response))
  else Ok tt.

(** lines 34-53: everything after the transport call. *)
Definition read_response (method : Method) (is_text : bool)
    (response : Response) : result json :=
  let! _ := check_response response in
  if negb (method_eqb method GET) && (status_code response =? 204)%Z
  then Ok (JObj [])
  else if is_text then Ok (JStr (text response))
  else response_json response.

(** lines 18-53. *)
Definition _request (endpoint : Endpoint) (method : Method) (is_text : bool)
  : M json :=
  response <- requests_request (mkRequest method endpoint is_text) ;;
  lift (read_response method is_text response).

Definition fetch_pull_requests (repo state : string) : M json :=
  _request (Pulls repo state) GET false.

Definition fetch_pr_details (repo : string) (number : json) : M json :=
  _request (PullDetail repo number) GET false.

Definition fetch_pr_reviews (repo : string) (number : json) : M json :=
  _request (PullReviews repo number) GET false.

(** lines 110-115: one element of the comprehension. *)
Definition project_run (run : json) : result CheckResult :=
  let! n := getitem run "name" in
  let! s := getitem run "status" in
  let! c := getitem run "conclusion" in
  let! u := getitem run "html_url" in
  Ok (mkCheckResult n s c u).

(** lines 110-115: the comprehension over [data['check_runs']]. *)
Definition check_results_of (data : json) : result (list CheckResult) :=
  let! runs := getitem data "check_runs" in
  let! items := iter runs in
  rmap project_run items.

(** lines 107-117. *)
Definition fetch_check_runs (repo : string) (ref : json) : M (list CheckResult) :=
  try_except
    (data <- _request (CheckRuns repo ref) GET false ;;
     lift (check_results_of data))
    (fun _ => ret []).

(** lines 170-179. *)
Definition test_status (check_results : list CheckResult) : string :=
  let failed_count :=
    List.length (filter (fun r => in_strs (conclusion r) ["failure"; "timed_out"])
                   check_results) in
  let pending_count :=
    List.length (filter (fun r => negb (is_str "completed" (status r)))
                   check_results) in
  if (0 <? failed_count)%nat then "failed"
  else if (0 <? pending_count)%nat then "pending"
  else if (0 <? List.length check_results)%nat then "passed"
  else "unknown".

(** lines 181-183: the loop over the reviews; the right-hand side of the
    assignment is evaluated before the subscript. *)
Fixpoint latest_reviews (reviews : list json)
    (latest_reviews_by_user : list (json * json))
  : result (list (json * json)) :=
  match reviews with
  | [] => Ok latest_reviews_by_user
  | r :: rest =>
      let! state := getitem r "state" in
      let! user := getitem r "user" in
      let! login := getitem user "login" in
      let! updated := setitem latest_reviews_by_user login state in
      latest_reviews rest updated
  end.

(** lines 185-186. *)
Definition is_approved (latest_reviews_by_user : list (json * json)) : bool :=
  let review_states := map snd latest_reviews_by_user in
  existsb (is_str "APPROVED") review_states &&
  negb (existsb (is_str "CHANGES_REQUESTED") review_states).

(** line 193. *)
Definition is_big (details : json) : result bool :=
  let! changed := get details "changed_files" (JNum 0) in
  gt_int (por changed (JNum 0)) 15.

(** line 194. *)
Definition is_ready_to_merge (details : json) : result bool :=
  let! mergeable := get details "mergeable" JNull in
  Ok (is_True mergeable).

(** line 195. *)
Definition is_leader_branch (details : json) : result bool :=
  let! base := getitem details "base" in
  let! ref := getitem base "ref" in
  let! lowered := lower ref in
  Ok (existsb (String.eqb lowered) ["leader"; "main"; "master"; "develop"]).

(** lines 170-196: the record built once the three fetches are in. *)
Definition enriched (details reviews : json) (check_results : list CheckResult)
  : result json :=
  let status := test_status check_results in
  let! rs := iter reviews in
  let! latest := latest_reviews rs [] in
  let approved := is_approved latest in
  let! fields := mapping details TypeError in
  let! big := is_big details in
  let! ready := is_ready_to_merge details in
  let! leader := is_leader_branch details in
  Ok (JObj (dict_update fields
        (enriched_fields status check_results approved big ready leader))).

(** lines 199-207: the fallback record. *)
Definition degraded (pr : json) : result json :=
  let! fields := mapping pr TypeError in
  Ok (JObj (dict_update fields
        [("testStatus", JStr "unknown");
         ("checkResults", JArr []);
         ("isApproved", JBool false);
         ("isBig", JBool false);
         ("isReadyToMerge", JBool false);
         ("isLeaderBranch", JBool false)])).

(** lines 165-207: the body of the loop over the subset. *)
Definition enrich_pr (repo : string) (pr : json) : M json :=
  try_except
    (number <- lift (getitem pr "number") ;;
     details <- fetch_pr_details repo number ;;
     number' <- lift (getitem pr "number") ;;
     reviews <- fetch_pr_reviews repo number' ;;
     head <- lift (getitem pr "head") ;;
     sha <- lift (getitem head "sha") ;;
     check_results <- fetch_check_runs repo sha ;;
     lift (enriched details reviews check_results))
    (fun _ => lift (degraded pr)).

(** lines 161-208, on the list [fetch_pull_requests] returned. *)
Definition enrich (repo : string) (prs : json) : M (list json) :=
  subset <- lift (slice_to 50 prs) ;;
  items <- lift (iter subset) ;;
  for_each (enrich_pr repo) items.

(** lines 159-208. *)
Definition fetch_enriched_pull_requests (repo : string) : M (list json) :=
  prs <- fetch_pull_requests repo "open" ;;
  enrich repo prs.

Section Contents.

Variable b64decode_utf8 : string -> option string.

(** lines 127-135. *)
Definition fetch_repo_content (repo path : string) : M json :=
  try_except
    (data <- _request (Contents repo path) GET false ;;
     lift (let! is_b64 :=
             if isinstance_list data then Ok false
             else let! content := get data "content" JNull in
                  if truthy content
                  then let! encoding := get data "encoding" JNull in
                       Ok (is_str "base64" encoding)
                  else Ok false in
           if is_b64 : bool
           then let! content := getitem data "content" in
                decode_content b64decode_utf8 content
           else Ok data))
    (fun _ => ret JNull).

(** lines 228-229: [text[:1500] if text else ""]. *)
Definition snippet (content : json) : result json :=
  if truthy content then slice_to 1500 content else Ok (JStr "").

(** lines 210-231. *)
Definition fetch_core_repo_context (repo : string) : M RepoContext :=
  file_list <-
    try_except
      (root <- _request (Contents repo "") GET false ;;
       if isinstance_list root
       then lift (let! items := iter root in
                  let! paths := rmap (fun f => getitem f "path") items in
                  join ", " paths)
       else ret "unknown")
      (fun _ => ret "unknown") ;;
  readme0 <- fetch_repo_content repo "README.md" ;;
  let readme := por readme0 (JStr "") in
  package0 <- fetch_repo_content repo "package.json" ;;
  let package_json := por package0 (JStr "") in
  has_ci <-
    try_except
      (ci <- _request (Contents repo ".github/workflows") GET false ;;
       ret (isinstance_list ci && nonempty_list ci))
      (fun _ => ret false) ;;
  readme_snippet <- lift (snippet readme) ;;
  package_snippet <- lift (snippet package_json) ;;
  ret (mkRepoContext file_list readme_snippet package_snippet has_ci).

End Contents.

End GithubService.

(* ===================================================================== *)
(** ** src/python_lib/github_client/client.py                             *)
(* ===================================================================== *)

Module GitHubClient.

(** lines 36-40. *)
Definition error_message (response : Response) : json :=
  match (let! error_body := response_json response in
         get error_body "message" (generic_message response)) with
  | Ok m => m
  | Raise _ => generic_message response
  end.

(** lines 32-41: what an attempt raises on sight of the response. *)
Definition check_response (response : Response) : result unit :=
  if rate_limited response then Raise (Exception rate_limit_message)
  else if negb (ok response) then Raise (Exception (error_message response))
  else Ok tt.

(** lines 32-49: everything after the transport call of an attempt. *)
Definition read_response (is_text : bool) (response : Response) : result json :=
  let! _ := check_response response in
  if (status_code response =? 204)%Z then Ok (JObj [])
  else if is_text then Ok (JStr (text response))
  else response_json response.

(** lines 31-49: the body of the [try] inside the retry loop. *)
Definition attempt (rq : Request) : M json :=
  response <- requests_request rq ;;
  lift (read_response (accept_diff rq) response).

(** What an attempt yields for a given outcome of the transport call. *)
Definition attempt_result (rq : Request) (o : Outcome) : result json :=
  match o with
  | Reply response => read_response (accept_diff rq) response
  | Failed e => Raise e
  end.

(** lines 29-54: [while retries >= 0], entered with [retries] left.  The
    counter only goes down and the handler re-raises at zero, so the
    loop condition never fails and the recursion is on the counter. *)
Fixpoint retry_loop (retries : nat) (rq : Request) : M json :=
  try_except (attempt rq)
    (fun e =>
       match retries with
       | O => raise e
       | S retries' =>
           time_sleep (2 - Z.of_nat retries')%Z ;;;
           retry_loop retries' rq
       end).

(** lines 19-54. *)
Definition _request (method : Method) (endpoint : Endpoint) (is_text : bool)
  : M json :=
  retry_loop 2 (mkRequest method endpoint is_text).

Definition fetch_pull_requests (repo state : string) : M json :=
  _request GET (Pulls repo state) false.

Definition fetch_pr_details (repo : string) (number : json) : M json :=
  _request GET (PullDetail repo number) false.

Definition fetch_pr_reviews (repo : string) (number : json) : M json :=
  _request GET (PullReviews repo number) false.

(** lines 114-119: one element of the comprehension. *)
Definition project_run (run : json) : result CheckResult :=
  let! n := get run "name" JNull in
  let! s := get run "status" JNull in
  let! c := get run "conclusion" JNull in
  let! u := get run "html_url" JNull in
  Ok (mkCheckResult n s c u).

(** lines 114-119: the comprehension over [data.get('check_runs', [])]. *)
Definition check_results_of (data : json) : result (list CheckResult) :=
  let! runs := get data "check_runs" (JArr []) in
  let! items := iter runs in
  rmap project_run items.

(** lines 111-121. *)
Definition fetch_check_runs (repo : string) (ref : json) : M (list CheckResult) :=
  try_except
    (data <- _request GET (CheckRuns repo ref) false ;;
     lift (check_results_of data))
    (fun _ => ret []).

(** [executor.submit(task)]: the task runs and the future keeps its
    outcome; the pool's schedule is taken to be submission order. *)
Definition submit {A} (task : M A) : M (result A) :=
  fun w => let (r, w') := task w in (Ok r, w').

(** [future.result()]. *)
Definition future_result {A} (future : result A) : M A := lift future.

(** lines 232-241. *)
Definition test_status (check_results : list CheckResult) : string :=
  let failed_count :=
    List.length (filter (fun r => is_str "failure" (conclusion r) ||
                                  is_str "timed_out" (conclusion r))
                        check_results) in
  let pending_count :=
    List.length (filter (fun r => negb (is_str "completed" (status r)))
                        check_results) in
  if (0 <? failed_count)%nat then "failed"
  else if (0 <? pending_count)%nat then "pending"
  else if (0 <? List.length check_results)%nat then "passed"
  else "unknown".

(** lines 243-245. *)
Fixpoint latest_reviews (reviews : list json)
    (latest_reviews_by_user : list (json * json))
  : result (list (json * json)) :=
  match reviews with
  | [] => Ok latest_reviews_by_user
  | r :: rest =>
      let! state := getitem r "state" in
      let! user := getitem r "user" in
      let! login := getitem user "login" in
      let! updated := setitem latest_reviews_by_user login state in
      latest_reviews rest updated
  end.

(** lines 247-248. *)
Definition is_approved (latest_reviews_by_user : list (json * json)) : bool :=
  let review_states := map snd latest_reviews_by_user in
  existsb (is_str "APPROVED") review_states &&
  negb (existsb (is_str "CHANGES_REQUESTED") review_states).

(** line 255. *)
Definition is_big (details : json) : result bool :=
  let! changed := get details "changed_files" (JNum 0) in
  gt_int changed 15.

(** line 256. *)
Definition is_ready_to_merge (details : json) : result bool :=
  let! mergeable := get details "mergeable" JNull in
  Ok (is_True mergeable).

(** line 257. *)
Definition is_leader_branch (details : json) : result bool :=
  let! base := getitem details "base" in
  let! ref := getitem base "ref" in
  let! lowered := lower ref in
  Ok (existsb (String.eqb lowered) ["leader"; "main"; "master"; "develop"]).

(** lines 232-258. *)
Definition enriched (details reviews : json) (check_results : list CheckResult)
  : result json :=
  let status := test_status check_results in
  let! rs := iter reviews in
  let! latest := latest_reviews rs [] in
  let approved := is_approved latest in
  let! fields := mapping details TypeError in
  let! big := is_big details in
  let! ready := is_ready_to_merge details in
  let! leader := is_leader_branch details in
  Ok (JObj (dict_update fields
        (enriched_fields status check_results approved big ready leader))).

(** lines 260-268: [pr.copy()] then [update]. *)
Definition degraded (pr : json) : result json :=
  let! pr_copy := mapping pr AttributeError in
  Ok (JObj (dict_update pr_copy
        [("testStatus", JStr "unknown");
         ("isApproved", JBool false);
         ("isBig", JBool false);
         ("isReadyToMerge", JBool false);
         ("isLeaderBranch", JBool false)])).

(** lines 220-268: the arguments of each [submit] are evaluated before
    the task is handed over; the three results are read afterwards. *)
Definition enrich_pr (repo : string) (pr : json) : M json :=
  try_except
    (number <- lift (getitem pr "number") ;;
     future_details <- submit (fetch_pr_details repo number) ;;
     number' <- lift (getitem pr "number") ;;
     future_reviews <- submit (fetch_pr_reviews repo number') ;;
     head <- lift (getitem pr "head") ;;
     sha <- lift (getitem head "sha") ;;
     future_checks <- submit (fetch_check_runs repo sha) ;;
     details <- future_result future_details ;;
     reviews <- future_result future_reviews ;;
     check_results <- future_result future_checks ;;
     lift (enriched details reviews check_results))
    (fun _ => lift (degraded pr)).

(** lines 217-272: the futures of the subset, in submission order. *)
Definition enrich (repo : string) (prs : json) : M (list (result json)) :=
  subset <- lift (slice_to 50 prs) ;;
  items <- lift (iter subset) ;;
  for_each (fun pr => submit (enrich_pr repo pr)) items.

(** lines 273-276: [as_completed] yields the futures in the order the
    pool finishes them, which is any order; the first failed future it
    yields ends the loop with that future's exception. *)
Inductive gathered : list (result json) -> result (list json) -> Prop :=
| gathered_all (futures : list (result json)) (values results : list json) :
    futures = map Ok values ->
    Permutation values results ->
    gathered futures (Ok results)
| gathered_raise (futures : list (result json)) (e : exn) :
    In (Raise e) futures ->
    gathered futures (Raise e).

(** lines 215-276 as a relation between the world before, what the call
    yields and the world after. *)
Definition fetch_enriched_pull_requests (repo : string)
    (w : World) (outcome : result (list json)) (w' : World) : Prop :=
  match fetch_pull_requests repo "open" w with
  | (Raise e, w1) => outcome = Raise e /\ w' = w1
  | (Ok prs, w1) =>
      match enrich repo prs w1 with
      | (Raise e, w2) => outcome = Raise e /\ w' = w2
      | (Ok futures, w2) => gathered futures outcome /\ w' = w2
      end
  end.

Section Contents.

Variable b64decode_utf8 : string -> option string.

(** lines 189-196. *)
Definition fetch_repo_content (repo path : string) : M json :=
  try_except
    (data <- _request GET (Contents repo path) false ;;
     lift (let! is_b64 :=
             match data with
             | JObj _ =>
                 let! has := contains "content" data in
                 if has : bool
                 then let! encoding := get data "encoding" JNull in
                      Ok (is_str "base64" encoding)
                 else Ok false
             | _ => Ok false
             end in
           if is_b64 : bool
           then let! content := getitem data "content" in
                decode_content b64decode_utf8 content
           else Ok data))
    (fun _ => ret JNull).

(** lines 291-296 and 298-303: a fetched text, or [""]. *)
Definition text_or_empty (future : result json) : json :=
  match future with
  | Ok v => if isinstance_str v then v else JStr ""
  | Raise _ => JStr ""
  end.

(** lines 286-289 and 305-308: a fetched listing, or [[]]. *)
Definition listing_or_empty (future : result json) : json :=
  match future with
  | Ok v => v
  | Raise _ => JArr []
  end.

(** lines 312-313: [text[:1500] if isinstance(text, str) else ""]. *)
Definition snippet (content : json) : result json :=
  if isinstance_str content then slice_to 1500 content else Ok (JStr "").

(** lines 278-315. *)
Definition fetch_core_repo_context (repo : string) : M RepoContext :=
  future_root <- submit (_request GET (Contents repo "") false) ;;
  future_readme <- submit (fetch_repo_content repo "README.md") ;;
  future_pkg <- submit (fetch_repo_content repo "package.json") ;;
  future_ci <- submit (_request GET (Contents repo ".github/workflows") false) ;;
  let root := listing_or_empty future_root in
  let readme := text_or_empty future_readme in
  let pkg := text_or_empty future_pkg in
  let ci := listing_or_empty future_ci in
  file_list <-
    (if isinstance_list root
     then lift (let! items := iter root in
                let! paths := rmap (fun f => getitem f "path") items in
                join ", " paths)
     else ret "unknown") ;;
  readme_snippet <- lift (snippet readme) ;;
  package_snippet <- lift (snippet pkg) ;;
  ret (mkRepoContext file_list readme_snippet package_snippet
         (isinstance_list ci && nonempty_list ci)).

End Contents.

End GitHubClient.

(* ===================================================================== *)
(** ** src/python/jules_service.py                                        *)
(* ===================================================================== *)

Module JulesService.

(** lines 26-32. *)
Definition error_message (response : Response) : json :=
  let generic :=
    JStr ("Jules API Error: " ++ str_of_int (status_code response))%string in
  match (let! error_body := response_json response in
         let! has_error := contains "error" error_body in
         if has_error : bool
         then let! error := getitem error_body "error" in
              let! has_message := contains "message" error in
              if has_message : bool
              then getitem error "message"
              else Ok generic
         else Ok generic) with
  | Ok m => m
  | Raise _ => generic
  end.

(** lines 16-38. *)
Definition _request (endpoint : Endpoint) (method : Method) : M json :=
  response <- requests_request (mkRequest method endpoint false) ;;
  if negb (ok response) then raise (Exception (error_message response))
  else if negb (method_eqb method GET) && (status_code response =? 204)%Z
  then ret (JObj [])
  else lift (response_json response).

(** line 51: the query carries the token only when it is truthy. *)
Definition page_query (next_token : json) : option json :=
  if truthy next_token then Some next_token else None.

(** lines 51-56: one page is fetched, its sessions are appended and its
    token read. *)
Definition fetch_page (all_sessions : list json) (next_token : json)
  : M (list json * json) :=
  data <- _request (Sessions (page_query next_token)) GET ;;
  has_sessions <- lift (contains "sessions" data) ;;
  all_sessions' <-
    (if has_sessions : bool
     then lift (let! sessions := getitem data "sessions" in
                let! items := iter sessions in
                Ok (all_sessions ++ items))
     else ret all_sessions) ;;
  next_token' <- lift (get data "nextPageToken" JNull) ;;
  ret (all_sessions', next_token').

(** lines 50-59: the [while True] loop, entered with the accumulated
    sessions, the token of the page before and the page count.  [fuel]
    bounds the iterations of the model; [None] means it ran out. *)
Fixpoint list_sessions_loop (fuel : nat) (all_sessions : list json)
    (next_token : json) (pages : nat) : M (option (list json)) :=
  match fuel with
  | O => ret None
  | S fuel' =>
      page <- fetch_page all_sessions next_token ;;
      let pages' := S pages in
      if negb (truthy (snd page)) || (5 <=? pages')%nat
      then ret (Some (fst page))
      else list_sessions_loop fuel' (fst page) (snd page) pages'
  end.

(** lines 45-61. *)
Definition list_sessions (fuel : nat) : M (option (list json)) :=
  list_sessions_loop fuel [] JNull 0.

End JulesService.

(* ===================================================================== *)
(** ** The specification's wording, and the shapes of provider data       *)
(* ===================================================================== *)

Module Spec.

(** A check-run whose conclusion is [failure] or [timed_out]. *)
Definition failing (r : CheckResult) : bool :=
  is_str "failure" (conclusion r) || is_str "timed_out" (conclusion r).

(** A check-run whose status is not [completed]. *)
Definition incomplete (r : CheckResult) : bool :=
  negb (is_str "completed" (status r)).

(** failed > pending > passed > unknown. *)
Definition test_status (check_results : list CheckResult) : string :=
  if existsb failing check_results then "failed"
  else if existsb incomplete check_results then "pending"
  else match check_results with
       | _ :: _ => "passed"
       | [] => "unknown"
       end.

(** A check-run as the provider sends it, reduced to the keys read. *)
Definition run_json (r : CheckResult) : json :=
  JObj [("name", name r); ("status", status r);
        ("conclusion", conclusion r); ("html_url", url r)].

(** The body of a check-runs response listing [runs]. *)
Definition check_runs_json (runs : list CheckResult) : json :=
  JObj [("total_count", JNum (Z.of_nat (List.length runs)));
        ("check_runs", JArr (map run_json runs))].

Definition is_object (v : json) : bool :=
  match v with
  | JObj _ => true
  | _ => false
  end.

(** The response has the documented shape: an object whose [check_runs]
    is an array of objects. *)
Definition well_shaped_check_runs (data : json) : bool :=
  match data with
  | JObj o =>
      match dict_lookup "check_runs" o with
      | Some (JArr items) => forallb is_object items
      | _ => false
      end
  | _ => false
  end.

(** The ['message'] of the provider's error body, when the body is a JSON
    object that has one. *)
Definition provider_message (r : Response) : option json :=
  match body r with
  | Some (JObj o) => dict_lookup "message" o
  | _ => None
  end.

(** The error carrying the provider's message, or ["Error: <status>"]. *)
Definition api_error (r : Response) : exn :=
  Exception match provider_message r with
            | Some m => m
            | None => generic_message r
            end.

Definition is_2xx (r : Response) : bool :=
  (200 <=? status_code r)%Z && (status_code r <? 300)%Z.

Definition is_4xx_5xx (r : Response) : bool :=
  (400 <=? status_code r)%Z && (status_code r <? 600)%Z.

(** The classification with "every other non-2xx status raises". *)
Definition classifies_non_2xx (check : Response -> result unit) : Prop :=
  forall r,
    (rate_limited r = true -> check r = Raise (Exception rate_limit_message)) /\
    (rate_limited r = false -> is_2xx r = false -> check r = Raise (api_error r)) /\
    (is_2xx r = true -> check r = Ok tt).

(** The classification with "every other 4xx or 5xx status raises". *)
Definition classifies_4xx_5xx (check : Response -> result unit) : Prop :=
  forall r,
    (rate_limited r = true -> check r = Raise (Exception rate_limit_message)) /\
    (rate_limited r = false -> is_4xx_5xx r = true ->
     check r = Raise (api_error r)) /\
    (rate_limited r = false -> is_4xx_5xx r = false -> check r = Ok tt) /\
    (is_2xx r = true -> check r = Ok tt).

(** A review as the provider sends it: [{'user': {'login': l}, 'state': s}]. *)
Definition review_json (review : string * string) : json :=
  JObj [("user", JObj [("login", JStr (fst review))]);
        ("state", JStr (snd review))].

(** What a call adds to the trace consists of events satisfying [P]. *)
Definition emits {A} (P : Event -> Prop) (m : M A) : Prop :=
  forall w, exists evs,
    trace (snd (m w)) = trace w ++ evs /\ Forall P evs.

(** The provider answers a request the same way whenever it is asked. *)
Definition stateless (provider : nat -> Request -> Outcome) : Prop :=
  forall n m rq, provider n rq = provider m rq.

(** The computation leaves the provider as it is and, against a stateless
    provider, yields the same whatever was sent or slept before. *)
Definition oblivious {A} (m : M A) : Prop :=
  forall w,
    net (snd (m w)) = net w /\
    (stateless (net w) ->
     forall w', net w' = net w -> fst (m w') = fst (m w)).

(** The event is a sleep or a request for this pull request's detail,
    reviews or the check-runs of its head commit. *)
Definition requested_for (repo : string) (pr : json) (ev : Event) : Prop :=
  match ev with
  | Slept _ => True
  | Sent rq =>
      (exists number,
          getitem pr "number" = Ok number /\
          (endpoint rq = PullDetail repo number \/
           endpoint rq = PullReviews repo number)) \/
      (exists head sha,
          getitem pr "head" = Ok head /\
          getitem head "sha" = Ok sha /\
          endpoint rq = CheckRuns repo sha)
  end.

(** A page of the session listing as the provider sends it: both keys
    are optional. *)
Record Page : Type := mkPage {
  sessions : option (list json);
  nextPageToken : option string
}.

Definition page_json (p : Page) : json :=
  JObj (match sessions p with
        | Some l => [("sessions", JArr l)]
        | None => []
        end ++
        match nextPageToken p with
        | Some t => [("nextPageToken", JStr t)]
        | None => []
        end).

Definition page_response (p : Page) : Response :=
  mkResponse 200 [] (Some (page_json p)) "".

Definition token_json (p : Page) : json :=
  match nextPageToken p with
  | Some t => JStr t
  | None => JNull
  end.

Definition sessions_of (p : Page) : list json :=
  match sessions p with
  | Some l => l
  | None => []
  end.

(** The page names a following page: it has a token and the token is not
    the empty string. *)
Definition has_next (p : Page) : bool :=
  match nextPageToken p with
  | Some t => negb (String.eqb t "")
  | None => false
  end.

(** From this world on, the provider answers the i-th call with page
    [from + i]. *)
Definition serves (w : World) (pages : nat -> Page) (from : nat) : Prop :=
  forall i rq, net w (calls w + i) rq = Reply (page_response (pages (from + i))).

(** How many pages are read from page [from] on when at most [budget]
    may be read: one more as long as the page just read names a next. *)
Fixpoint pages_read (pages : nat -> Page) (from budget : nat) : nat :=
  match budget with
  | O => O
  | S budget' =>
      if has_next (pages from)
      then S (pages_read pages (S from) budget')
      else 1
  end.

(** The sessions of pages [from .. from + count - 1], in page order. *)
Definition sessions_of_pages (pages : nat -> Page) (from count : nat) : list json :=
  List.concat (map (fun i => sessions_of (pages i)) (seq from count)).

End Spec.


(* ===================================================================== *)
(** ** Concrete inputs used to exercise the services                      *)
(* ===================================================================== *)

Module Scenario.

(** The end-to-end scenario of the specification. *)
Definition details : json :=
  JObj [("number", JNum 42); ("head", JObj [("sha", JStr "abc")]);
        ("base", JObj [("ref", JStr "main")]); ("mergeable", JBool true);
        ("changed_files", JNum 20)].

Definition reviews : json := JArr [Spec.review_json ("bob", "APPROVED")].

Definition checks : list CheckResult :=
  [mkCheckResult (JStr "ci") (JStr "completed") (JStr "success") JNull].

Definition record : json :=
  JObj [("number", JNum 42); ("head", JObj [("sha", JStr "abc")]);
        ("base", JObj [("ref", JStr "main")]); ("mergeable", JBool true);
        ("changed_files", JNum 20);
        ("testStatus", JStr "passed");
        ("checkResults", JArr (map check_json checks));
        ("isApproved", JBool true); ("isBig", JBool true);
        ("isReadyToMerge", JBool true); ("isLeaderBranch", JBool true)].

(** A transport that fails twice and then answers. *)
Definition flaky_net : nat -> Request -> Outcome :=
  fun n _ =>
    if (n <? 2)%nat then Failed (ConnectionError "reset")
    else Reply (mkResponse 200 [] (Some (JArr [])) "").

Definition flaky_world : World := mkWorld flaky_net 0 [].

(** A provider that names a next page on every page. *)
Definition endless_pages : nat -> Spec.Page :=
  fun i => Spec.mkPage (Some [JNum (Z.of_nat i)]) (Some "more").

Definition endless_world : World :=
  mkWorld (fun n _ => Reply (Spec.page_response (endless_pages n))) 0 [].

Definition pull_request : json :=
  JObj [("number", JNum 42); ("title", JStr "Add retries");
        ("head", JObj [("sha", JStr "abc")]);
        ("base", JObj [("ref", JStr "main")])].

Definition reply (v : json) : Outcome := Reply (mkResponse 200 [] (Some v) "").

(** Detail, reviews and check-runs are all served. *)
Definition healthy_net : nat -> Request -> Outcome :=
  fun _ rq =>
    match endpoint rq with
    | PullDetail _ _ => reply details
    | PullReviews _ _ => reply reviews
    | CheckRuns _ _ => reply (Spec.check_runs_json checks)
    | _ => Failed (ConnectionError "down")
    end.

Definition healthy_world : World := mkWorld healthy_net 0 [].

(** Detail and reviews are served, the check-runs endpoint is down. *)
Definition checks_down_net : nat -> Request -> Outcome :=
  fun _ rq =>
    match endpoint rq with
    | PullDetail _ _ => reply details
    | PullReviews _ _ => reply reviews
    | _ => Failed (ConnectionError "down")
    end.

Definition checks_down_world : World := mkWorld checks_down_net 0 [].

Definition not_modified : Response := mkResponse 304 [] None "".

Definition not_found : Response :=
  mkResponse 404 [] (Some (JObj [("message", JStr "Not Found")])) "".

(** Reviews and check-runs are served, the detail endpoint is down. *)
Definition detail_down_net : nat -> Request -> Outcome :=
  fun _ rq =>
    match endpoint rq with
    | PullReviews _ _ => reply reviews
    | CheckRuns _ _ => reply (Spec.check_runs_json checks)
    | _ => Failed (ConnectionError "down")
    end.

Definition detail_down_world : World := mkWorld detail_down_net 0 [].

(** The detail record has a null [changed_files]. *)
Definition details_null_size : json :=
  JObj [("number", JNum 42); ("head", JObj [("sha", JStr "abc")]);
        ("base", JObj [("ref", JStr "main")]); ("mergeable", JBool true);
        ("changed_files", JNull)].

Definition null_size_net : nat -> Request -> Outcome :=
  fun _ rq =>
    match endpoint rq with
    | PullDetail _ _ => reply details_null_size
    | PullReviews _ _ => reply reviews
    | CheckRuns _ _ => reply (Spec.check_runs_json checks)
    | _ => Failed (ConnectionError "down")
    end.

Definition null_size_world : World := mkWorld null_size_net 0 [].

(** The repository has an empty README.md, a root listing and no
    package manifest or workflows. *)
Definition empty_readme : json :=
  JObj [("type", JStr "file"); ("name", JStr "README.md");
        ("path", JStr "README.md"); ("size", JNum 0);
        ("encoding", JStr "base64"); ("content", JStr "")].

Definition root_listing : json :=
  JArr [JObj [("path", JStr "README.md"); ("type", JStr "file")];
        JObj [("path", JStr "src"); ("type", JStr "dir")]].

Definition not_found_outcome : Outcome := Reply not_found.

Definition empty_readme_net : nat -> Request -> Outcome :=
  fun _ rq =>
    match endpoint rq with
    | Contents _ "" => reply root_listing
    | Contents _ "README.md" => reply empty_readme
    | _ => not_found_outcome
    end.

Definition empty_readme_world : World := mkWorld empty_readme_net 0 [].

(** The root listing cannot be fetched, the rest is absent. *)
Definition root_down_net : nat -> Request -> Outcome :=
  fun _ rq =>
    match endpoint rq with
    | Contents _ "" => Failed (ConnectionError "down")
    | _ => not_found_outcome
    end.

Definition root_down_world : World := mkWorld root_down_net 0 [].

End Scenario.

(* ===================================================================== *)
(** ** Further Python operations                                          *)
(* ===================================================================== *)

Module PyMore.

(** [s.endswith(suffix)] on strings: some tail of [s] is [suffix]. *)
Fixpoint ends_with (s suffix : string) : bool :=
  String.eqb s suffix ||
  match s with
  | EmptyString => false
  | String _ s' => ends_with s' suffix
  end.

(** [v.endswith('lit')]. *)
Definition endswith (v : json) (suffix : string) : result bool :=
  match v with
  | JStr s => Ok (ends_with s suffix)
  | _ => Raise AttributeError
  end.

(** The integer a value counts as in arithmetic: [bool] is an [int]. *)
Definition as_int (v : json) : option Z :=
  match v with
  | JNum n => Some n
  | JBool b => Some (if b then 1 else 0)%Z
  | _ => None
  end.

(** [a - b]. *)
Definition sub (a b : json) : result json :=
  match as_int a, as_int b with
  | Some x, Some y => Ok (JNum (x - y))
  | _, _ => Raise TypeError
  end.

(** [f"{v}"]: text as it is, scalars as Python prints them, lists and
    dicts through their [repr], which is left to [repr]. *)
Definition format (repr : json -> string) (v : json) : string :=
  match v with
  | JStr s => s
  | JNum n => str_of_int n
  | JNull => "None"
  | JBool true => "True"
  | JBool false => "False"
  | _ => repr v
  end.

(** A comprehension [[x for x in items if keep(x)]] whose test may raise. *)
Fixpoint rfilter {A} (keep : A -> result bool) (items : list A) : result (list A) :=
  match items with
  | [] => Ok []
  | x :: rest =>
      let! k := keep x in
      let! kept := rfilter keep rest in
      Ok (if k : bool then x :: kept else kept)
  end.

End PyMore.

Export PyMore.

(* ===================================================================== *)
(** ** src/python/github_service.py, further methods                      *)
(* ===================================================================== *)

Module GithubServiceMore.

Import GithubService.

Section Paths.

(** The URL templates the endpoint type does not name. *)
Variable repo_path : string -> Endpoint.
  (* /repos/{repo} *)
Variable open_prs_search_path : string -> Endpoint.
  (* /search/issues?q=repo:{repo}+is:pr+is:open *)
Variable issues_path : string -> string -> Endpoint.
  (* /repos/{repo}/issues?state={state}&per_page=100 *)

(** lines 59-63: the open pull-request count, 0 when the search fails. *)
Definition open_prs_count (repo : string) : M json :=
  try_except
    (search_data <- _request (open_prs_search_path repo) GET false ;;
     lift (get search_data "total_count" (JNum 0)))
    (fun _ => ret (JNum 0)).

(** lines 65-71: the dict display. *)
Definition repo_stats (data open_prs : json) : result json :=
  let! open_issues := getitem data "open_issues_count" in
  let! updated := getitem data "updated_at" in
  let! stars := getitem data "stargazers_count" in
  let! forks := getitem data "forks_count" in
  Ok (JObj [("openIssuesCount", open_issues);
            ("openPRsCount", open_prs);
            ("lastUpdated", updated);
            ("stars", stars);
            ("forks", forks)]).

(** lines 55-71. *)
Definition fetch_repo_stats (repo : string) : M json :=
  data <- _request (repo_path repo) GET false ;;
  open_prs <- open_prs_count repo ;;
  lift (repo_stats data open_prs).

(** line 93: the comprehension. *)
Definition without_pull_requests (data : json) : result (list json) :=
  let! items := iter data in
  rfilter (fun item => let! is_pr := contains "pull_request" item in
                       Ok (negb is_pr)) items.

(** lines 91-93. *)
Definition fetch_issues (repo state : string) : M (list json) :=
  data <- _request (issues_path repo state) GET false ;;
  lift (without_pull_requests data).

(** lines 104-105. *)
Definition fetch_pr_diff (repo : string) (number : json) : M json :=
  _request (PullDetail repo number) GET true.

End Paths.

Section Contents.

Variable b64decode_utf8 : string -> option string.
Variable repr : json -> string.

(** line 142: the test that selects a workflow file. *)
Definition is_workflow_file (file : json) : result bool :=
  let! type := getitem file "type" in
  if is_str "file" type
  then let! name := getitem file "name" in
       let! yml := endswith name ".yml" in
       if yml : bool then Ok true
       else let! name' := getitem file "name" in
            endswith name' ".yaml"
  else Ok false.

(** lines 142-145: what one entry of the directory adds to [results]. *)
Definition workflow_entries (repo : string) (file : json) : M (list json) :=
  selected <- lift (is_workflow_file file) ;;
  if selected : bool
  then path <- lift (getitem file "path") ;;
       content <- fetch_repo_content b64decode_utf8 repo (format repr path) ;;
       if truthy content
       then lift (let! name := getitem file "name" in
                  let! path' := getitem file "path" in
                  Ok [JObj [("name", name); ("path", path');
                            ("content", content)]])
       else ret []
  else ret [].

(** lines 137-148. *)
Definition fetch_workflows_content (repo : string) : M (list json) :=
  try_except
    (workflows_dir <- _request (Contents repo ".github/workflows") GET false ;;
     files <- lift (iter workflows_dir) ;;
     added <- for_each (workflow_entries repo) files ;;
     ret (List.concat added))
    (fun _ => ret []).

(** lines 234-242. *)
Definition template_paths : list string :=
  [".github/ISSUE_TEMPLATE/bug_report.md";
   ".github/ISSUE_TEMPLATE/feature_request.md";
   ".github/CONTRIBUTING.md";
   "CONTRIBUTING.md";
   "AUDIT.md";
   "HACKING.md";
   "DEVELOPMENT.md"].

(** lines 244-247: the loop over the paths still to visit. *)
Fixpoint collect_templates (repo : string) (paths : list string)
    (templates : pydict) : M pydict :=
  match paths with
  | [] => ret templates
  | path :: rest =>
      content <- fetch_repo_content b64decode_utf8 repo path ;;
      templates' <-
        (if truthy content
         then sliced <- lift (slice_to 1000 content) ;;
              ret (dict_set path sliced templates)
         else ret templates) ;;
      collect_templates repo rest templates'
  end.

(** lines 233-248. *)
Definition fetch_repo_templates (repo : string) : M pydict :=
  collect_templates repo template_paths [].

End Contents.

End GithubServiceMore.

(* ===================================================================== *)
(** ** src/python_lib/github_client/client.py, further methods            *)
(* ===================================================================== *)

Module GitHubClientMore.

Import GitHubClient.

Section Paths.

Variable repo_path : string -> Endpoint.
  (* /repos/{repo} *)
Variable open_prs_search_path : string -> Endpoint.
  (* /search/issues?q=repo:{repo}+type:pr+state:open&per_page=1 *)
Variable issues_path : string -> string -> Endpoint.
  (* /repos/{repo}/issues?state={state}&per_page=100 *)

(** lines 74-79: the open pull-request count, 0 when the search fails. *)
Definition open_prs_count (repo : string) : M json :=
  try_except
    (search_result <- _request GET (open_prs_search_path repo) false ;;
     lift (get search_result "total_count" (JNum 0)))
    (fun _ => ret (JNum 0)).

(** lines 81-90. *)
Definition repo_stats (data open_prs : json) : result json :=
  let! total_open := get data "open_issues_count" (JNum 0) in
  let! open_issues := sub total_open open_prs in
  let! updated := get data "updated_at" JNull in
  let! stars := get data "stargazers_count" JNull in
  let! forks := get data "forks_count" JNull in
  Ok (JObj [("openIssuesCount", open_issues);
            ("openPRsCount", open_prs);
            ("lastUpdated", updated);
            ("stars", stars);
            ("forks", forks)]).

(** lines 56-90. *)
Definition fetch_repo_stats (repo : string) : M json :=
  data <- _request GET (repo_path repo) false ;;
  open_prs <- open_prs_count repo ;;
  lift (repo_stats data open_prs).

(** lines 92-94. *)
Definition fetch_issues (repo state : string) : M (list json) :=
  data <- _request GET (issues_path repo state) false ;;
  lift (GithubServiceMore.without_pull_requests data).

(** lines 105-106. *)
Definition fetch_pr_diff (repo : string) (number : json) : M json :=
  _request GET (PullDetail repo number) true.

End Paths.

Section Contents.

Variable b64decode_utf8 : string -> option string.
Variable repr : json -> string.

(** line 139: the test that selects a workflow file. *)
Definition is_workflow_file (file : json) : result bool :=
  let! type := get file "type" JNull in
  if is_str "file" type
  then let! name := get file "name" (JStr "") in
       let! yml := endswith name ".yml" in
       if yml : bool then Ok true
       else let! name' := get file "name" (JStr "") in
            endswith name' ".yaml"
  else Ok false.

(** lines 139-146: what one entry of the directory adds to [results]. *)
Definition workflow_entries (repo : string) (file : json) : M (list json) :=
  selected <- lift (is_workflow_file file) ;;
  if selected : bool
  then path <- lift (get file "path" JNull) ;;
       content <- fetch_repo_content b64decode_utf8 repo (format repr path) ;;
       if truthy content
       then lift (let! name := get file "name" JNull in
                  let! path' := get file "path" JNull in
                  Ok [JObj [("name", name); ("path", path');
                            ("content", content)]])
       else ret []
  else ret [].

(** lines 134-149. *)
Definition fetch_workflows_content (repo : string) : M (list json) :=
  try_except
    (workflows_dir <- _request GET (Contents repo ".github/workflows") false ;;
     files <- lift (iter workflows_dir) ;;
     added <- for_each (workflow_entries repo) files ;;
     ret (List.concat added))
    (fun _ => ret []).

(** lines 209-212: the loop over the paths still to visit. *)
Fixpoint collect_templates (repo : string) (paths : list string)
    (results : pydict) : M pydict :=
  match paths with
  | [] => ret results
  | path :: rest =>
      content <- fetch_repo_content b64decode_utf8 repo path ;;
      results' <-
        (if truthy content
         then sliced <- lift (slice_to 1000 content) ;;
              ret (dict_set path sliced results)
         else ret results) ;;
      collect_templates repo rest results'
  end.

(** lines 198-213. *)
Definition fetch_repo_templates (repo : string) : M pydict :=
  collect_templates repo GithubServiceMore.template_paths [].

End Contents.

End GitHubClientMore.

(* ===================================================================== *)
(** ** src/python/jules_service.py, further methods                       *)
(* ===================================================================== *)

Module JulesServiceMore.

Import JulesService.

Section Paths.

(** [sources] with the quoted filter, if one is sent. *)
Variable sources_path : option string -> Endpoint.

(** lines 40-43. *)
Definition list_sources (filter_str : option string) : M json :=
  let query :=
    match filter_str with
    | Some f => if String.eqb f "" then None else Some f
    | None => None
    end in
  data <- _request (sources_path query) GET ;;
  lift (get data "sources" (JArr [])).

(** line 89: the test on one source. *)
Definition names_repo (repo_name : string) (source : json) : result bool :=
  let! name := getitem source "name" in
  let! at_end := endswith name repo_name in
  if at_end : bool then Ok true
  else let! name' := getitem source "name" in
       contains repo_name name'.

(** lines 88-91: the loop, left at the first source that matches. *)
Fixpoint first_source (repo_name : string) (sources : list json) : result json :=
  match sources with
  | [] => Ok JNull
  | source :: rest =>
      let! found := names_repo repo_name source in
      if found : bool then getitem source "name"
      else first_source repo_name rest
  end.

(** lines 85-93. *)
Definition find_source_for_repo (repo_name : string) : M json :=
  try_except
    (sources <- list_sources None ;;
     lift (let! items := iter sources in first_source repo_name items))
    (fun _ => ret JNull).

End Paths.

End JulesServiceMore.

(* ===================================================================== *)
(** ** src/python/gemini_service.py and src/python/gemini_service/core.py *)
(* ===================================================================== *)

Module GeminiService.

(** A [str] as the sequence of its code points. *)
Definition text : Type := list N.

(** [c.isspace()]: the characters [str.strip()] removes. *)
Definition isspace (c : N) : bool :=
  ((9 <=? c) && (c <=? 13) || (28 <=? c) && (c <=? 32) ||
   (c =? 133) || (c =? 160) || (c =? 5760) ||
   (8192 <=? c) && (c <=? 8202) ||
   (c =? 8232) || (c =? 8233) || (c =? 8239) || (c =? 8287) ||
   (c =? 12288))%N.

Fixpoint lstrip (s : text) : text :=
  match s with
  | c :: s' => if isspace c then lstrip s' else s
  | [] => []
  end.

Fixpoint rstrip (s : text) : text :=
  match s with
  | [] => []
  | c :: s' =>
      match rstrip s' with
      | [] => if isspace c then [] else [c]
      | kept => c :: kept
      end
  end.

(** [s.strip()]. *)
Definition strip (s : text) : text := lstrip (rstrip s).

(** [s.startswith(p)]. *)
Fixpoint startswith (p s : text) : bool :=
  match p, s with
  | [], _ => true
  | a :: p', b :: s' => (a =? b)%N && startswith p' s'
  | _ :: _, [] => false
  end.

(** [s.endswith(p)]. *)
Definition endswith (p s : text) : bool := startswith (rev p) (rev s).

(** [s[:-n]] for [n] > 0. *)
Definition drop_last (n : nat) (s : text) : text :=
  firstn (List.length s - n) s.

Definition newline : N := 10%N.

Definition backtick : N := 96%N.

(** The three backticks that close a block. *)
Definition fence : text := [backtick; backtick; backtick].

(** The three backticks and [json] that open a block. *)
Definition fence_json : text := fence ++ [106; 115; 111; 110]%N.

(** core.py, lines 31-37. *)
Definition _clean_json_string (t : text) : text :=
  let t := strip t in
  let t := if startswith fence_json t then skipn 7 t else t in
  let t := if endswith fence t then drop_last 3 t else t in
  strip t.

(** The optional newline after the opening fence. *)
Definition skip_newline (s : text) : text :=
  if startswith [newline] s then skipn 1 s else s.

(** The optional newline before the closing fence. *)
Definition chomp (s : text) : text :=
  if endswith [newline] s then drop_last 1 s else s.

(** gemini_service.py, line 20: the pattern is anchored at the start, so
    it matches at most once, with the newline when there is one. *)
Definition sub_open (s : text) : text :=
  if startswith fence_json s then skip_newline (skipn 7 s) else s.

(** gemini_service.py, line 21: the pattern ends at [$], which is the end
    of the string or the place before a newline that ends it; the
    leftmost match takes the newline before the fence when there is
    one. *)
Definition sub_close (s : text) : text :=
  if endswith fence s then chomp (drop_last 3 s)
  else if endswith (fence ++ [newline]) s
       then chomp (drop_last 4 s) ++ [newline]
       else s.

(** gemini_service.py, lines 18-22. *)
Definition clean_json_string (s : text) : text :=
  let s := strip s in
  let s := sub_open s in
  let s := sub_close s in
  strip s.

End GeminiService.

(* ===================================================================== *)
(** ** Further shapes and inputs                                          *)
(* ===================================================================== *)

Module SpecMore.

(** The keys [enriched] and [degraded] write. *)
Definition derived_keys : list string :=
  ["testStatus"; "checkResults"; "isApproved"; "isBig";
   "isReadyToMerge"; "isLeaderBranch"].

Definition is_derived_key (k : string) : bool :=
  existsb (String.eqb k) derived_keys.

Definition leader_names : list string := ["leader"; "main"; "master"; "develop"].

(** [details['base']['ref']]. *)
Definition base_ref (details : json) : result json :=
  let! base := getitem details "base" in
  getitem base "ref".

(** What the review loop reads of one review: its state, then the login
    of its user, which must be hashable to serve as a key. *)
Definition review_entry (r : json) : result (json * json) :=
  let! state := getitem r "state" in
  let! user := getitem r "user" in
  let! login := getitem user "login" in
  if hashable login then Ok (login, state) else Raise TypeError.

(** With the three fetches of a pull request done, [enrich_pr] yields the
    fallback record whenever detail and reviews are [unbuildable]. *)
Definition degrades_when
    (enrich_pr : string -> json -> M json)
    (fetch_pr_details fetch_pr_reviews : string -> json -> M json)
    (fetch_check_runs : string -> json -> M (list CheckResult))
    (degraded : json -> result json)
    (unbuildable : json -> json -> Prop) : Prop :=
  forall repo pr w number head sha details w1 reviews w2 crs w3,
    getitem pr "number" = Ok number ->
    getitem pr "head" = Ok head ->
    getitem head "sha" = Ok sha ->
    fetch_pr_details repo number w = (Ok details, w1) ->
    fetch_pr_reviews repo number w1 = (Ok reviews, w2) ->
    fetch_check_runs repo sha w2 = (Ok crs, w3) ->
    unbuildable details reviews ->
    enrich_pr repo pr w = (degraded pr, w3).

(** The detail record has no string under [base.ref]. *)
Definition lacks_base_ref (details reviews : json) : Prop :=
  forall ref, base_ref details <> Ok (JStr ref).

(** Some fetched review cannot be read. *)
Definition has_unreadable_review (details reviews : json) : Prop :=
  exists rs r e, iter reviews = Ok rs /\ In r rs /\ review_entry r = Raise e.

(** [pr['head']['sha']]. *)
Definition head_sha (pr : json) : result json :=
  let! head := getitem pr "head" in
  getitem head "sha".

(** The event is not a check-runs request. *)
Definition no_check_runs_request (ev : Event) : Prop :=
  match ev with
  | Sent rq =>
      match endpoint rq with
      | CheckRuns _ _ => False
      | _ => True
      end
  | Slept _ => True
  end.

(** *** The record a pull request is given *)

(** The reviews as the loop reads them: login and state, in list order. *)
Definition review_entries (reviews : list json)
  : result (list (json * json)) :=
  rmap review_entry reviews.

(** The state of the last review whose login is the dict key [login]. *)
Fixpoint latest_state (login : json) (entries : list (json * json))
  : option json :=
  match entries with
  | [] => None
  | (l, s) :: rest =>
      match latest_state login rest with
      | Some s' => Some s'
      | None => if key_eqb l login then Some s else None
      end
  end.

(** Some reviewer's latest state is the string [state]. *)
Definition some_latest (state : string) (entries : list (json * json))
  : Prop :=
  exists login s, latest_state login entries = Some s /\ is_str state s = true.

(** APPROVED is among the latest states and CHANGES_REQUESTED is not. *)
Definition approved (entries : list (json * json)) : Prop :=
  some_latest "APPROVED" entries /\ ~ some_latest "CHANGES_REQUESTED" entries.

(** The table the review loop ends with. *)
Definition table_of (entries : list (json * json)) : list (json * json) :=
  fold_left (fun table e => kv_set (fst e) (snd e) table) entries [].

(** [d.get(k)] on a dict with arbitrary keys. *)
Fixpoint kv_get (k : json) (d : list (json * json)) : option json :=
  match d with
  | [] => None
  | (k', v) :: d' => if key_eqb k' k then Some v else kv_get k d'
  end.

(** No two keys of the table are the same dict key. *)
Fixpoint distinct_keys (d : list (json * json)) : Prop :=
  match d with
  | [] => True
  | (k, _) :: d' =>
      (forall e, In e d' -> key_eqb k (fst e) = false) /\ distinct_keys d'
  end.

(** The loop collapses the reviews to one state per login, the last one,
    and the decision is taken on those states. *)
Definition collapses
    (latest_reviews : list json -> list (json * json)
                      -> result (list (json * json)))
    (is_approved : list (json * json) -> bool) : Prop :=
  forall reviews entries,
    review_entries reviews = Ok entries ->
    exists latest,
      latest_reviews reviews [] = Ok latest /\
      distinct_keys latest /\
      (forall login, kv_get login latest = latest_state login entries) /\
      (is_approved latest = true <-> approved entries).

(** The detail record and the reviews have what a record is built from:
    the detail is an object with a string [base.ref] and an integer or no
    [changed_files], the reviews are a list whose entries can be read. *)
Definition buildable (details reviews : json) (fields : pydict)
    (ref : string) (entries : list (json * json)) : Prop :=
  details = JObj fields /\
  base_ref details = Ok (JStr ref) /\
  match dict_lookup "changed_files" fields with
  | None | Some (JNum _) => True
  | Some _ => False
  end /\
  exists rs, reviews = JArr rs /\ review_entries rs = Ok entries.

(** More than 15 changed files. *)
Definition big (fields : pydict) : bool :=
  match dict_lookup "changed_files" fields with
  | Some (JNum n) => (15 <? n)%Z
  | _ => false
  end.

(** [mergeable] is the value true. *)
Definition ready (fields : pydict) : bool :=
  match dict_lookup "mergeable" fields with
  | Some (JBool true) => true
  | _ => false
  end.

(** The base branch is one of the leader branches. *)
Definition leader (ref : string) : bool :=
  existsb (String.eqb (lower_string ref)) leader_names.

(** The three fetches of a pull request are served: [details], [reviews]
    and the check-runs [crs] come back, leaving the world [w3]. *)
Definition served
    (fetch_pr_details fetch_pr_reviews : string -> json -> M json)
    (fetch_check_runs : string -> json -> M (list CheckResult))
    (repo : string) (pr : json) (w : World)
    (details reviews : json) (crs : list CheckResult) (w3 : World) : Prop :=
  exists number head sha w1 w2,
    getitem pr "number" = Ok number /\
    getitem pr "head" = Ok head /\
    getitem head "sha" = Ok sha /\
    fetch_pr_details repo number w = (Ok details, w1) /\
    fetch_pr_reviews repo number w1 = (Ok reviews, w2) /\
    fetch_check_runs repo sha w2 = (Ok crs, w3).

(** With the three fetches served, a record is returned whose
    [testStatus] is the status of the fetched check-runs whenever the
    record can be built, and that status or ['unknown'] in every case. *)
Definition status_joined
    (enrich_pr : string -> json -> M json)
    (fetch_pr_details fetch_pr_reviews : string -> json -> M json)
    (fetch_check_runs : string -> json -> M (list CheckResult)) : Prop :=
  forall repo pr w details reviews crs w3,
    served fetch_pr_details fetch_pr_reviews fetch_check_runs
      repo pr w details reviews crs w3 ->
    (forall fields ref entries,
        buildable details reviews fields ref entries ->
        exists record,
          enrich_pr repo pr w = (Ok record, w3) /\
          getitem record "testStatus" = Ok (JStr (Spec.test_status crs))) /\
    (exists record,
        enrich_pr repo pr w = (Ok record, w3) /\
        (getitem record "testStatus" = Ok (JStr (Spec.test_status crs)) \/
         getitem record "testStatus" = Ok (JStr "unknown"))).

(** The same without the condition on what was fetched. *)
Definition status_of_served
    (enrich_pr : string -> json -> M json)
    (fetch_pr_details fetch_pr_reviews : string -> json -> M json)
    (fetch_check_runs : string -> json -> M (list CheckResult)) : Prop :=
  forall repo pr w details reviews crs w3,
    served fetch_pr_details fetch_pr_reviews fetch_check_runs
      repo pr w details reviews crs w3 ->
    exists record,
      fst (enrich_pr repo pr w) = Ok record /\
      getitem record "testStatus" = Ok (JStr (Spec.test_status crs)).

(** With the three fetches served, a record is returned whose
    [isApproved] is the decision on the collapsed reviews whenever the
    record can be built; over readable reviews it is never true without
    that decision, and over unreadable ones it is false. *)
Definition approval_joined
    (enrich_pr : string -> json -> M json)
    (fetch_pr_details fetch_pr_reviews : string -> json -> M json)
    (fetch_check_runs : string -> json -> M (list CheckResult)) : Prop :=
  forall repo pr w details reviews crs w3,
    served fetch_pr_details fetch_pr_reviews fetch_check_runs
      repo pr w details reviews crs w3 ->
    (forall fields ref entries,
        buildable details reviews fields ref entries ->
        exists record b,
          enrich_pr repo pr w = (Ok record, w3) /\
          getitem record "isApproved" = Ok (JBool b) /\
          (b = true <-> approved entries)) /\
    (forall rs entries,
        reviews = JArr rs -> review_entries rs = Ok entries ->
        exists record b,
          enrich_pr repo pr w = (Ok record, w3) /\
          getitem record "isApproved" = Ok (JBool b) /\
          (b = true -> approved entries)) /\
    (forall rs e,
        reviews = JArr rs -> review_entries rs = Raise e ->
        exists record,
          enrich_pr repo pr w = (Ok record, w3) /\
          getitem record "isApproved" = Ok (JBool false)).

(** The same for every readable review list, whatever else was fetched. *)
Definition approval_of_served
    (enrich_pr : string -> json -> M json)
    (fetch_pr_details fetch_pr_reviews : string -> json -> M json)
    (fetch_check_runs : string -> json -> M (list CheckResult)) : Prop :=
  forall repo pr w details reviews crs w3,
    served fetch_pr_details fetch_pr_reviews fetch_check_runs
      repo pr w details reviews crs w3 ->
    forall rs entries,
      reviews = JArr rs -> review_entries rs = Ok entries ->
      exists record b,
        fst (enrich_pr repo pr w) = Ok record /\
        getitem record "isApproved" = Ok (JBool b) /\
        (b = true <-> approved entries).

(** *** Check-runs *)

(** [run.get(k)]. *)
Definition field (k : string) (run : pydict) : json :=
  match dict_lookup k run with
  | Some v => v
  | None => JNull
  end.

(** The four values kept of a check-run: [url] is the run's [html_url]. *)
Definition projected (run : pydict) : CheckResult :=
  mkCheckResult (field "name" run) (field "status" run)
    (field "conclusion" run) (field "html_url" run).

(** The run has the four keys that are read. *)
Definition has_run_keys (run : pydict) : bool :=
  forallb (fun k => match dict_lookup k run with
                    | Some _ => true
                    | None => false
                    end)
    ["name"; "status"; "conclusion"; "html_url"].

(** [fetch] never raises and sends the one [request].  It yields the
    empty list when the request fails or answers something that is not an
    object with a list of objects under [check_runs]; of a list of run
    objects it yields the projections in order, provided the runs are all
    [complete], and the empty list otherwise. *)
Definition total_check_runs
    (fetch : string -> json -> M (list CheckResult))
    (request : string -> json -> M json)
    (complete : pydict -> bool) : Prop :=
  forall repo ref w,
    exists results,
      fetch repo ref w = (Ok results, snd (request repo ref w)) /\
      (forall e, fst (request repo ref w) = Raise e -> results = []) /\
      (forall data,
          fst (request repo ref w) = Ok data ->
          Spec.well_shaped_check_runs data = false -> results = []) /\
      (forall o runs,
          fst (request repo ref w) = Ok (JObj o) ->
          dict_lookup "check_runs" o = Some (JArr (map JObj runs)) ->
          results = if forallb complete runs then map projected runs else []).

(** The check-run request failed or answered something of another shape
    than a listing. *)
Definition unusable (answer : result json) : Prop :=
  match answer with
  | Raise _ => True
  | Ok data => Spec.well_shaped_check_runs data = false
  end.

(** When detail and reviews arrive, the record can be built from them and
    only the check-run request is of no use, the record is not the
    fallback: it has no check-run, the status ['unknown'] and the four
    other derived fields as the detail and the reviews give them. *)
Definition check_failure_absorbed
    (enrich_pr : string -> json -> M json)
    (fetch_pr_details fetch_pr_reviews request_check_runs
       : string -> json -> M json) : Prop :=
  forall repo pr w number head sha details w1 reviews w2 fields ref entries,
    getitem pr "number" = Ok number ->
    getitem pr "head" = Ok head ->
    getitem head "sha" = Ok sha ->
    fetch_pr_details repo number w = (Ok details, w1) ->
    fetch_pr_reviews repo number w1 = (Ok reviews, w2) ->
    unusable (fst (request_check_runs repo sha w2)) ->
    buildable details reviews fields ref entries ->
    exists record b,
      enrich_pr repo pr w = (Ok record, snd (request_check_runs repo sha w2)) /\
      getitem record "checkResults" = Ok (JArr []) /\
      getitem record "testStatus" = Ok (JStr "unknown") /\
      getitem record "isApproved" = Ok (JBool b) /\
      (b = true <-> approved entries) /\
      getitem record "isBig" = Ok (JBool (big fields)) /\
      getitem record "isReadyToMerge" = Ok (JBool (ready fields)) /\
      getitem record "isLeaderBranch" = Ok (JBool (leader ref)).

(** What [fetch] returns for each answer of the contents [request]
    behind it: None when the request raises, a directory listing as it
    is, the decoded text of a file sent with non-empty base64 content
    (None when decoding raises) and the answer itself when its encoding is
    not base64.  It never raises. *)
Definition reads_content (decode : string -> option string)
    (fetch request : string -> string -> M json) : Prop :=
  forall repo path w,
    exists content,
      fetch repo path w = (Ok content, snd (request repo path w)) /\
      (forall e, fst (request repo path w) = Raise e -> content = JNull) /\
      (forall items,
          fst (request repo path w) = Ok (JArr items) -> content = JArr items) /\
      (forall o c,
          fst (request repo path w) = Ok (JObj o) ->
          dict_lookup "content" o = Some (JStr c) -> c <> "" ->
          dict_lookup "encoding" o = Some (JStr "base64") ->
          content = match decode c with
                    | Some t => JStr t
                    | None => JNull
                    end) /\
      (forall o,
          fst (request repo path w) = Ok (JObj o) ->
          dict_lookup "encoding" o <> Some (JStr "base64") ->
          content = JObj o).

(** The paths of a root listing whose entries all have a string [path]. *)
Fixpoint paths_of (items : list json) : option (list string) :=
  match items with
  | [] => Some []
  | f :: rest =>
      match getitem f "path", paths_of rest with
      | Ok (JStr p), Some ps => Some (p :: ps)
      | _, _ => None
      end
  end.

(** The first 1500 characters of a fetched text, [""] for anything else. *)
Definition snippet_of (fetched : result json) : json :=
  match fetched with
  | Ok (JStr s) => JStr (take_chars 1500 s)
  | _ => JStr ""
  end.

(** Whether a fetched listing is a non-empty list. *)
Definition has_entries (fetched : result json) : bool :=
  match fetched with
  | Ok (JArr (_ :: _)) => true
  | _ => false
  end.

(** A fetched content that is a text or None. *)
Definition text_or_none (content : result json) : Prop :=
  match content with
  | Ok (JStr _) | Ok JNull => True
  | _ => False
  end.

(** The comma-joined paths of a listing, when every entry has one. *)
Definition joined_paths (items : list json) : option string :=
  match paths_of items with
  | Some paths => Some (String.concat ", " paths)
  | None => None
  end.

(** An entry of the templates dict: one of the seven paths, with a
    non-empty text of at most 1000 characters or a non-empty list of at
    most 1000 items. *)
Definition bounded_template (kv : string * json) : Prop :=
  In (fst kv) GithubServiceMore.template_paths /\
  match snd kv with
  | JStr s => s <> "" /\ (char_length s <= 1000)%nat
  | JArr l => (1 <= List.length l <= 1000)%nat
  | _ => False
  end.

(** What [fetch_repo_templates] yields when it does not raise. *)
Definition templates_outcome (outcome : result pydict) : Prop :=
  match outcome with
  | Ok templates =>
      NoDup (map fst templates) /\ Forall bounded_template templates
  | Raise _ => True
  end.

(** An entry of the workflow list: a file named [*.yml] or [*.yaml] with
    a truthy content. *)
Definition workflow_entry (e : json) : Prop :=
  exists name path content,
    e = JObj [("name", JStr name); ("path", path); ("content", content)] /\
    (ends_with name ".yml" || ends_with name ".yaml") = true /\
    truthy content = true.

(** [fetch] never raises, yields only workflow entries and yields the
    empty list when the directory [request] fails. *)
Definition lists_workflows (fetch : string -> M (list json))
    (request : string -> M json) : Prop :=
  forall repo w,
    exists entries w',
      fetch repo w = (Ok entries, w') /\
      Forall workflow_entry entries /\
      (forall e, fst (request repo w) = Raise e -> entries = []).

(** An item of the issue listing that is a pull request. *)
Definition is_pull_request (o : pydict) : bool :=
  match dict_lookup "pull_request" o with
  | Some _ => true
  | None => false
  end.

(** The items of a listing that are not pull requests, in their order. *)
Definition issues_of (items : list pydict) : list json :=
  map JObj (filter (fun o => negb (is_pull_request o)) items).

(** [fetch] sends the one [request]; it passes a failure on and keeps of
    a listing of objects those that are not pull requests. *)
Definition filters_issues (fetch : M (list json)) (request : M json) : Prop :=
  forall w,
    (forall items,
        fst (request w) = Ok (JArr (map JObj items)) ->
        fetch w = (Ok (issues_of items), snd (request w))) /\
    (forall e,
        fst (request w) = Raise e -> fetch w = (Raise e, snd (request w))).

(** [search_data.get('total_count', 0)], 0 when the search or the read
    raises. *)
Definition total_count_or_zero (search : result json) : json :=
  match search with
  | Ok (JObj o) =>
      match dict_lookup "total_count" o with
      | Some n => n
      | None => JNum 0
      end
  | _ => JNum 0
  end.

(** [f"Jules API Error: {response.status_code}"]. *)
Definition generic_message (response : Response) : json :=
  JStr ("Jules API Error: " ++ str_of_int (status_code response))%string.

(** The [message] of the [error] object of the provider's error body,
    when the body is an object that has one. *)
Definition error_message_of (response : Response) : option json :=
  match body response with
  | Some (JObj o) =>
      match dict_lookup "error" o with
      | Some (JObj error) => dict_lookup "message" error
      | _ => None
      end
  | _ => None
  end.

(** What the Jules service raises on an error status. *)
Definition jules_error (response : Response) : exn :=
  Exception match error_message_of response with
            | Some m => m
            | None => generic_message response
            end.

(** The names of the sources of a listing, read as the loop reads them. *)
Definition source_names (items : list json) : result (list json) :=
  rmap (fun source => getitem source "name") items.

(** The first name that contains [repo_name], None when there is none. *)
Definition first_naming (repo_name : string) (names : list string) : json :=
  match find (is_infix repo_name) names with
  | Some n => JStr n
  | None => JNull
  end.

(** What [_request] of the Jules service raises on an outcome of the
    transport that is a failure or an error status. *)
Definition failure_of (o : Outcome) : option exn :=
  match o with
  | Failed e => Some e
  | Reply r =>
      if ok r then None else Some (Exception (JulesService.error_message r))
  end.

(** The requests of a listing that reads [count] pages from page [from]
    on, entered with the token [tok]. *)
Fixpoint session_requests (pages : nat -> Spec.Page) (from count : nat)
    (tok : json) : list Event :=
  match count with
  | O => []
  | S count' =>
      Sent (mkRequest GET (Sessions (JulesService.page_query tok)) false)
      :: session_requests pages (S from) count' (Spec.token_json (pages from))
  end.

(** In a loop of [body] over the items, the value of [x] is the one
    [body] yields for it alone and the other values are what they are
    without [x]. *)
Definition isolates {A B} (body : A -> M B) (before after : list A) (x : A)
    (w : World) : Prop :=
  exists values_before value values_after,
    fst (for_each body (before ++ x :: after) w)
    = Ok (values_before ++ value :: values_after) /\
    fst (for_each body (before ++ after) w)
    = Ok (values_before ++ values_after) /\
    fst (body x w) = Ok value /\
    List.length values_before = List.length before.

(** The text neither starts nor ends with a white-space character. *)
Definition trimmed (s : GeminiService.text) : Prop :=
  (forall c rest, s = c :: rest -> GeminiService.isspace c = false) /\
  (forall front c, s = front ++ [c] -> GeminiService.isspace c = false).

(** The request the services send for an endpoint read as JSON. *)
Definition json_request (e : Endpoint) : Request := mkRequest GET e false.

End SpecMore.

Module ScenarioMore.

Import Scenario.

(** A detail record without [base]. *)
Definition details_no_base : json :=
  JObj [("number", JNum 42); ("head", JObj [("sha", JStr "abc")]);
        ("mergeable", JBool true); ("changed_files", JNum 3)].

Definition no_base_net : nat -> Request -> Outcome :=
  fun _ rq =>
    match endpoint rq with
    | PullDetail _ _ => reply details_no_base
    | PullReviews _ _ => reply reviews
    | CheckRuns _ _ => reply (Spec.check_runs_json checks)
    | _ => Failed (ConnectionError "down")
    end.

Definition no_base_world : World := mkWorld no_base_net 0 [].

(** A review whose author account is gone. *)
Definition ghost_review : json :=
  JObj [("user", JNull); ("state", JStr "APPROVED")].

Definition ghost_review_net : nat -> Request -> Outcome :=
  fun _ rq =>
    match endpoint rq with
    | PullDetail _ _ => reply details
    | PullReviews _ _ => reply (JArr [Spec.review_json ("bob", "APPROVED"); ghost_review])
    | CheckRuns _ _ => reply (Spec.check_runs_json checks)
    | _ => Failed (ConnectionError "down")
    end.

Definition ghost_review_world : World := mkWorld ghost_review_net 0 [].

(** Every file of the repository is empty. *)
Definition empty_files_world : World :=
  mkWorld (fun _ _ => reply empty_readme) 0 [].

(** The scenarios below answer by call order or always the same, so any
    endpoint can stand for the URL a method formats. *)
Definition repo_url (repo : string) : Endpoint := Contents repo "".

Definition query_url (repo state : string) : Endpoint := Pulls repo state.

(** An issue listing with one issue and one pull request. *)
Definition an_issue : pydict := [("number", JNum 7); ("title", JStr "bug")].

Definition a_pull_request : pydict :=
  [("number", JNum 8); ("pull_request", JObj [("url", JStr "u")])].

Definition issue_listing_world : World :=
  mkWorld (fun _ _ => reply (JArr [JObj an_issue; JObj a_pull_request])) 0 [].

(** A repository record, then a search answer. *)
Definition repo_record : json :=
  JObj [("open_issues_count", JNum 12); ("updated_at", JStr "2024-05-01");
        ("stargazers_count", JNum 3); ("forks_count", JNum 1)].

Definition stats_net : nat -> Request -> Outcome :=
  fun n _ =>
    if (n <? 1)%nat then reply repo_record
    else reply (JObj [("total_count", JNum 5)]).

Definition stats_world : World := mkWorld stats_net 0 [].

(** The repository record is served, the search is not. *)
Definition search_down_net : nat -> Request -> Outcome :=
  fun n _ =>
    if (n <? 1)%nat then reply repo_record
    else Failed (ConnectionError "down").

Definition search_down_world : World := mkWorld search_down_net 0 [].

Definition sources_url (filter : option string) : Endpoint := Sessions None.

(** Two connected sources. *)
Definition sources_world : World :=
  mkWorld (fun _ _ =>
             reply (JObj [("sources",
                           JArr [JObj [("name", JStr "sources/github/o/other")];
                                 JObj [("name", JStr "sources/github/o/r");
                                       ("id", JStr "r")]])])) 0 [].

(** Two pages are served, then the provider is down. *)
Definition two_pages_net : nat -> Request -> Outcome :=
  fun n _ =>
    if (n <? 2)%nat then Reply (Spec.page_response (endless_pages n))
    else Failed (ConnectionError "down").

Definition two_pages_world : World := mkWorld two_pages_net 0 [].

(** A diff is served as text, not as JSON. *)
Definition diff_response : Response :=
  mkResponse 200 [] None "diff --git a/x b/x".

Definition diff_world : World := mkWorld (fun _ _ => Reply diff_response) 0 [].

(** The listing of pull requests cannot be fetched. *)
Definition listing_down_world : World :=
  mkWorld (fun _ _ => Failed (ConnectionError "down")) 0 [].

(** A model answer: an empty object in a fenced block, with a newline
    after it. *)
Definition fenced_answer : GeminiService.text :=
  (GeminiService.fence_json ++ [10; 123; 125; 10] ++ GeminiService.fence
   ++ [10])%N.

(** A failing check-run and a review whose author account is gone. *)
Definition failing_checks : list CheckResult :=
  [mkCheckResult (JStr "ci") (JStr "completed") (JStr "failure") JNull].

Definition ghost_failing_net : nat -> Request -> Outcome :=
  fun _ rq =>
    match endpoint rq with
    | PullDetail _ _ => reply details
    | PullReviews _ _ => reply (JArr [ghost_review])
    | CheckRuns _ _ => reply (Spec.check_runs_json failing_checks)
    | _ => Failed (ConnectionError "down")
    end.

Definition ghost_failing_world : World := mkWorld ghost_failing_net 0 [].

(** A check-run as the provider lists it, with keys that are not read. *)
Definition listed_run : pydict :=
  [("id", JNum 7); ("name", JStr "ci"); ("status", JStr "completed");
   ("conclusion", JStr "success"); ("url", JStr "https://api/runs/7");
   ("html_url", JStr "https://web/runs/7")].

Definition listed_runs_world : World :=
  mkWorld (fun _ _ => reply (JObj [("total_count", JNum 1);
                                   ("check_runs", JArr [JObj listed_run])]))
    0 [].

(** The provider refuses the key, with its reason. *)
Definition denied : Response :=
  mkResponse 403 []
    (Some (JObj [("error", JObj [("code", JNum 403);
                                 ("message", JStr "API key not valid")])])) "".

Definition denying_world : World := mkWorld (fun _ _ => Reply denied) 0 [].

(** A list entry without [number]. *)
Definition anonymous_pr : json := JObj [("title", JStr "orphan")].

(** A list entry without [head]. *)
Definition headless_pr : json := JObj [("number", JNum 42)].

End ScenarioMore.

Module ScenarioRetry.

Import Scenario.

(** A provider that throttles every call. *)
Definition throttled : Response := mkResponse 429 [] None "".

Definition throttling_world : World := mkWorld (fun _ _ => Reply throttled) 0 [].

(** A transport that fails once and then answers. *)
Definition hiccup_net : nat -> Request -> Outcome :=
  fun n _ =>
    if (n <? 1)%nat then Failed (ConnectionError "reset")
    else reply (JArr []).

Definition hiccup_world : World := mkWorld hiccup_net 0 [].

(** A response without content. *)
Definition no_content : Response := mkResponse 204 [] None "".

End ScenarioRetry.
(* ===================================================================== *)
(** ** Generic facts about the Python operations                          *)
(* ===================================================================== *)

Lemma dict_lookup_set_same (k : string) (v : json) (d : pydict) :
  dict_lookup k (dict_set k v d) = Some v.
Proof.
  induction d as [|[k' v'] d IH]; simpl.
  - now rewrite String.eqb_refl.
  - destruct (String.eqb k k') eqn:E; simpl; rewrite ?String.eqb_refl, ?E; auto.
Qed.

Lemma dict_lookup_set_other (k k' : string) (v : json) (d : pydict) :
  String.eqb k k' = false ->
  dict_lookup k (dict_set k' v d) = dict_lookup k d.
Proof.
  intros Hne.
  induction d as [|[k0 v0] d IH]; simpl.
  - now rewrite Hne.
  - destruct (String.eqb k' k0) eqn:E; simpl.
    + apply String.eqb_eq in E; subst k0. now rewrite Hne.
    + now rewrite IH.
Qed.

(** Reading a field of a freshly built record: walk the updates from the
    last one back to the one that wrote the key. *)
Ltac lookup_field :=
  unfold dict_update; simpl fold_left;
  repeat (rewrite dict_lookup_set_other by reflexivity);
  rewrite dict_lookup_set_same.

Lemma filter_nonempty_existsb {A} (p : A -> bool) (l : list A) :
  (0 <? List.length (filter p l))%nat = existsb p l.
Proof.
  induction l as [|x l IH]; simpl; [reflexivity|].
  destruct (p x); simpl; [reflexivity | exact IH].
Qed.

Lemma existsb_pointwise {A} (p q : A -> bool) (l : list A) :
  (forall x, p x = q x) -> existsb p l = existsb q l.
Proof.
  intros H; induction l as [|x l IH]; simpl; [reflexivity|].
  now rewrite H, IH.
Qed.

Lemma in_strs_failing (r : CheckResult) :
  in_strs (conclusion r) ["failure"; "timed_out"] = Spec.failing r.
Proof.
  unfold in_strs, Spec.failing; simpl. now rewrite orb_false_r.
Qed.

Lemma GithubService_test_status_spec (crs : list CheckResult) :
  GithubService.test_status crs = Spec.test_status crs.
Proof.
  unfold GithubService.test_status, Spec.test_status.
  rewrite !filter_nonempty_existsb.
  rewrite (existsb_pointwise _ Spec.failing crs in_strs_failing).
  destruct (existsb Spec.failing crs); [reflexivity|].
  fold Spec.incomplete.
  destruct (existsb Spec.incomplete crs); [reflexivity|].
  destruct crs; reflexivity.
Qed.

Lemma GitHubClient_test_status_spec (crs : list CheckResult) :
  GitHubClient.test_status crs = Spec.test_status crs.
Proof.
  unfold GitHubClient.test_status, Spec.test_status.
  rewrite !filter_nonempty_existsb.
  fold Spec.failing. fold Spec.incomplete.
  destruct (existsb Spec.failing crs); [reflexivity|].
  destruct (existsb Spec.incomplete crs); [reflexivity|].
  destruct crs; reflexivity.
Qed.

(** Peel the steps of a computation in the exception monad that is known
    to have succeeded. *)
Ltac peel H :=
  unfold rbind in H;
  repeat match type of H with
         | context [match ?x with Ok _ => _ | Raise _ => _ end] =>
             let E := fresh "E" in destruct x eqn:E; [|discriminate H]
         end.

Lemma GithubService_enriched_inv details reviews crs record :
  GithubService.enriched details reviews crs = Ok record ->
  exists rs latest fields big ready leader,
    iter reviews = Ok rs /\
    GithubService.latest_reviews rs [] = Ok latest /\
    details = JObj fields /\
    GithubService.is_big details = Ok big /\
    GithubService.is_ready_to_merge details = Ok ready /\
    GithubService.is_leader_branch details = Ok leader /\
    record = JObj (dict_update fields
               (enriched_fields (GithubService.test_status crs) crs
                  (GithubService.is_approved latest) big ready leader)).
Proof.
  unfold GithubService.enriched. intros H. peel H.
  injection H as <-.
  destruct details; try discriminate. injection E1 as <-.
  repeat eexists; eauto.
Qed.

Lemma GitHubClient_enriched_inv details reviews crs record :
  GitHubClient.enriched details reviews crs = Ok record ->
  exists rs latest fields big ready leader,
    iter reviews = Ok rs /\
    GitHubClient.latest_reviews rs [] = Ok latest /\
    details = JObj fields /\
    GitHubClient.is_big details = Ok big /\
    GitHubClient.is_ready_to_merge details = Ok ready /\
    GitHubClient.is_leader_branch details = Ok leader /\
    record = JObj (dict_update fields
               (enriched_fields (GitHubClient.test_status crs) crs
                  (GitHubClient.is_approved latest) big ready leader)).
Proof.
  unfold GitHubClient.enriched. intros H. peel H.
  injection H as <-.
  destruct details; try discriminate. injection E1 as <-.
  repeat eexists; eauto.
Qed.

Lemma enriched_fields_lookup fields status crs approved big ready leader :
  let record := JObj (dict_update fields
                  (enriched_fields status crs approved big ready leader)) in
  getitem record "testStatus" = Ok (JStr status) /\
  getitem record "checkResults" = Ok (JArr (map check_json crs)) /\
  getitem record "isApproved" = Ok (JBool approved) /\
  getitem record "isBig" = Ok (JBool big) /\
  getitem record "isReadyToMerge" = Ok (JBool ready) /\
  getitem record "isLeaderBranch" = Ok (JBool leader).
Proof.
  unfold enriched_fields, getitem; cbv zeta.
  repeat split; lookup_field; reflexivity.
Qed.

(* ===================================================================== *)
(** ** Slicing a text                                                     *)
(* ===================================================================== *)

(** [s[:n]] has the first [n] characters of [s], or all of them. *)
Lemma take_chars_count (n : nat) (s : string) :
  char_length (take_chars n s) = Nat.min n (char_length s).
Proof.
  revert n. induction s as [|c s IH]; intros n; simpl; [now rewrite Nat.min_0_r|].
  destruct (is_continuation c) eqn:Hc; simpl.
  - rewrite Hc. apply IH.
  - destruct n as [|n]; simpl; [reflexivity|].
    rewrite Hc. now rewrite IH.
Qed.

Lemma take_chars_length (n : nat) (s : string) :
  (char_length (take_chars n s) <= n)%nat.
Proof. rewrite take_chars_count. apply Nat.le_min_l. Qed.

(** It is a prefix of [s] that ends where a character ends. *)
Lemma take_chars_prefix (n : nat) (s : string) :
  exists rest,
    s = (take_chars n s ++ rest)%string /\ continues rest = false.
Proof.
  revert n. induction s as [|c s IH]; intros n; simpl.
  - exists "". now split.
  - destruct (is_continuation c) eqn:Hc.
    + destruct (IH n) as (rest & Hs & Hr). exists rest.
      split; [|exact Hr]. simpl. now rewrite <- Hs.
    + destruct n as [|n].
      * exists (String c s). now split.
      * destruct (IH n) as (rest & Hs & Hr). exists rest.
        split; [|exact Hr]. simpl. now rewrite <- Hs.
Qed.

(** Where every character is a single byte, characters are bytes. *)
Lemma take_chars_single_bytes (n : nat) (s : string) :
  Forall (fun c => is_continuation c = false) (list_ascii_of_string s) ->
  take_chars n s = substring 0 n s /\ char_length s = String.length s.
Proof.
  revert n. induction s as [|c s IH]; intros n H; simpl.
  - now destruct n.
  - inversion H as [|? ? Hc Hs]; subst. rewrite Hc.
    destruct n as [|n].
    + split; [reflexivity|]. f_equal. apply (IH 0%nat Hs).
    + destruct (IH n Hs) as [-> ->]. now split.
Qed.

(** ["h\u00e9llo"[:2]] is ["h\u00e9"]: the two bytes of the second
    character stay together. *)
Lemma take_chars_two_byte_character :
  let e_acute := String (ascii_of_nat 195) (String (ascii_of_nat 169) "") in
  let text := ("h" ++ e_acute ++ "llo")%string in
  take_chars 2 text = ("h" ++ e_acute)%string /\
  char_length text = 5%nat /\
  String.length text = 6%nat /\
  chars text = ["h"; e_acute; "l"; "l"; "o"]%string /\
  slice_to 2 (JStr text) = Ok (JStr ("h" ++ e_acute)%string).
Proof. cbv zeta. repeat split; reflexivity. Qed.

(* ===================================================================== *)
(** ** Reviews: last state per login                                      *)
(* ===================================================================== *)

Unset Implicit Arguments.

Section Reviews.

Import SpecMore.

(** Key identity is an equivalence on the values that can be keys. *)
Lemma key_eqb_refl (k : json) : hashable k = true -> key_eqb k k = true.
Proof.
  destruct k as [|b|n|s|l|o]; simpl; intros H; try discriminate;
    try reflexivity.
  - now destruct b.
  - apply Z.eqb_refl.
  - apply String.eqb_refl.
Qed.

Lemma key_eqb_sym (a b : json) : key_eqb a b = key_eqb b a.
Proof.
  destruct a as [|x|n|s|l|o], b as [|y|m|t|l'|o']; simpl; try reflexivity.
  - now destruct x, y.
  - apply Z.eqb_sym.
  - apply String.eqb_sym.
Qed.

Lemma key_eqb_trans (a b c : json) :
  key_eqb a b = true -> key_eqb a c = key_eqb b c.
Proof.
  destruct a as [|x|n|s|l|o], b as [|y|m|t|l'|o']; simpl; intros H;
    try discriminate H;
    destruct c as [|z|p|u|l''|o'']; simpl; try reflexivity;
    repeat match goal with
           | H : Bool.eqb _ _ = true |- _ => apply Bool.eqb_prop in H; subst
           | H : Z.eqb _ _ = true |- _ => apply Z.eqb_eq in H; subst
           | H : String.eqb _ _ = true |- _ => apply String.eqb_eq in H; subst
           end;
    try reflexivity;
    try (repeat match goal with
                | b : bool |- _ => destruct b
                end; reflexivity);
    try apply Z.eqb_sym.
Qed.

Lemma latest_state_snoc login entries l s :
  latest_state login (entries ++ [(l, s)])
  = if key_eqb l login then Some s else latest_state login entries.
Proof.
  induction entries as [|[a b] entries IH]; simpl; [reflexivity|].
  rewrite IH. now destruct (key_eqb l login).
Qed.

Lemma table_of_snoc entries e :
  table_of (entries ++ [e]) = kv_set (fst e) (snd e) (table_of entries).
Proof. unfold table_of. now rewrite fold_left_app. Qed.

(** Reading the table after an assignment. *)
Lemma kv_get_set l s table k :
  kv_get k (kv_set l s table)
  = if key_eqb l k then Some s else kv_get k table.
Proof.
  induction table as [|[k' v'] table IH]; simpl; [reflexivity|].
  destruct (key_eqb k' l) eqn:E; simpl.
  - rewrite (key_eqb_trans k' l k E).
    now destruct (key_eqb l k).
  - rewrite IH.
    destruct (key_eqb k' k) eqn:Ek; [|reflexivity].
    destruct (key_eqb l k) eqn:El; [|reflexivity].
    rewrite key_eqb_sym in El.
    rewrite (key_eqb_trans k' k l Ek) in E.
    congruence.
Qed.

(** The table holds, for every login, the state of its last review. *)
Lemma table_get entries login :
  kv_get login (table_of entries) = latest_state login entries.
Proof.
  induction entries as [|[l s] entries IH] using rev_ind; [reflexivity|].
  rewrite table_of_snoc, latest_state_snoc, kv_get_set. simpl.
  now rewrite IH.
Qed.

Lemma kv_set_keys l s table e :
  In e (kv_set l s table) ->
  fst e = l \/ exists e', In e' table /\ fst e = fst e'.
Proof.
  induction table as [|[k' v'] table IH]; simpl.
  - intros [<-|[]]. now left.
  - destruct (key_eqb k' l); simpl.
    + intros [<-|H].
      * right. exists (k', v'). split; [now left|reflexivity].
      * right. exists e. split; [now right|reflexivity].
    + intros [<-|H].
      * right. exists (k', v'). split; [now left|reflexivity].
      * destruct (IH H) as [Hl|(e' & Hin & He)]; [now left|].
        right. exists e'. split; [now right|assumption].
Qed.

Lemma kv_set_distinct l s table :
  distinct_keys table -> distinct_keys (kv_set l s table).
Proof.
  induction table as [|[k' v'] table IH]; simpl.
  - intros _. split; [intros e []|exact I].
  - intros [Hk Ht]. destruct (key_eqb k' l) eqn:E; simpl.
    + now split.
    + split; [|now apply IH].
      intros e Hin. apply kv_set_keys in Hin.
      destruct Hin as [->|(e' & Hin & ->)]; [exact E|now apply Hk].
Qed.

Lemma kv_set_hashable l s table :
  hashable l = true ->
  Forall (fun e => hashable (fst e) = true) table ->
  Forall (fun e => hashable (fst e) = true) (kv_set l s table).
Proof.
  intros Hl Ht. induction Ht as [|[k' v'] table Hk Ht IH]; simpl.
  - now repeat constructor.
  - destruct (key_eqb k' l); constructor; assumption.
Qed.

Lemma table_distinct entries :
  Forall (fun e => hashable (fst e) = true) entries ->
  distinct_keys (table_of entries) /\
  Forall (fun e => hashable (fst e) = true) (table_of entries).
Proof.
  induction entries as [|[l s] entries IH] using rev_ind; intros H.
  - split; [exact I|constructor].
  - apply Forall_app in H. destruct H as [He Hl].
    inversion Hl as [|? ? Hh _]; subst. simpl in Hh.
    destruct (IH He) as [Hd Hk].
    rewrite table_of_snoc. simpl. split.
    + now apply kv_set_distinct.
    + now apply kv_set_hashable.
Qed.

Lemma In_kv_get table k v :
  distinct_keys table -> hashable k = true ->
  In (k, v) table -> kv_get k table = Some v.
Proof.
  induction table as [|[k0 v0] table IH]; simpl; intros Hd Hh Hin;
    [destruct Hin|].
  destruct Hd as [Hk Ht]. destruct Hin as [H|H].
  - injection H as -> ->. now rewrite key_eqb_refl.
  - pose proof (Hk (k, v) H) as Hkk. cbn [fst] in Hkk.
    rewrite Hkk. now apply IH.
Qed.

Lemma kv_get_In table k v :
  kv_get k table = Some v -> exists k', In (k', v) table.
Proof.
  induction table as [|[k0 v0] table IH]; simpl; [discriminate|].
  destruct (key_eqb k0 k).
  - intros [= ->]. exists k0. now left.
  - intros H. destruct (IH H) as (k' & Hin). exists k'. now right.
Qed.

Lemma review_entry_hashable r login state :
  review_entry r = Ok (login, state) -> hashable login = true.
Proof.
  unfold review_entry.
  destruct (getitem r "state") as [st|]; cbn [rbind]; [|discriminate].
  destruct (getitem r "user") as [user|]; cbn [rbind]; [|discriminate].
  destruct (getitem user "login") as [lg|]; cbn [rbind]; [|discriminate].
  destruct (hashable lg) eqn:E; [|discriminate].
  now intros [= <- _].
Qed.

Lemma review_entries_hashable reviews :
  forall entries,
    review_entries reviews = Ok entries ->
    Forall (fun e => hashable (fst e) = true) entries.
Proof.
  unfold review_entries.
  induction reviews as [|r reviews IH]; intros entries; cbn [rmap].
  - intros [= <-]. constructor.
  - destruct (review_entry r) as [[login state]|] eqn:Er; cbn [rbind];
      [|discriminate].
    destruct (rmap review_entry reviews) as [rest|]; cbn [rbind];
      [|discriminate].
    intros [= <-]. constructor.
    + simpl. eapply review_entry_hashable. eassumption.
    + now apply IH.
Qed.

(** The loop reads the reviews in order and assigns each state to its
    login; it raises at the first review it cannot read. *)
Lemma GithubService_latest_reviews_run reviews :
  forall table,
    GithubService.latest_reviews reviews table
    = let! entries := review_entries reviews in
      Ok (fold_left (fun t e => kv_set (fst e) (snd e) t) entries table).
Proof.
  unfold review_entries.
  induction reviews as [|r reviews IH]; intros table;
    cbn [rmap GithubService.latest_reviews rbind]; [reflexivity|].
  unfold review_entry at 1.
  destruct (getitem r "state") as [state|]; cbn [rbind]; [|reflexivity].
  destruct (getitem r "user") as [user|]; cbn [rbind]; [|reflexivity].
  destruct (getitem user "login") as [login|]; cbn [rbind]; [|reflexivity].
  unfold setitem. destruct (hashable login); cbn [rbind]; [|reflexivity].
  rewrite IH.
  now destruct (rmap review_entry reviews).
Qed.

Lemma GitHubClient_latest_reviews_run reviews :
  forall table,
    GitHubClient.latest_reviews reviews table
    = let! entries := review_entries reviews in
      Ok (fold_left (fun t e => kv_set (fst e) (snd e) t) entries table).
Proof.
  unfold review_entries.
  induction reviews as [|r reviews IH]; intros table;
    cbn [rmap GitHubClient.latest_reviews rbind]; [reflexivity|].
  unfold review_entry at 1.
  destruct (getitem r "state") as [state|]; cbn [rbind]; [|reflexivity].
  destruct (getitem r "user") as [user|]; cbn [rbind]; [|reflexivity].
  destruct (getitem user "login") as [login|]; cbn [rbind]; [|reflexivity].
  unfold setitem. destruct (hashable login); cbn [rbind]; [|reflexivity].
  rewrite IH.
  now destruct (rmap review_entry reviews).
Qed.

(** A state is in the table exactly when it is some login's last one. *)
Lemma some_latest_table state entries :
  Forall (fun e => hashable (fst e) = true) entries ->
  existsb (is_str state) (map snd (table_of entries)) = true
  <-> some_latest state entries.
Proof.
  intros Hh. destruct (table_distinct entries Hh) as [Hd Hk].
  rewrite existsb_exists. unfold some_latest. split.
  - intros (v & Hin & Hv).
    apply in_map_iff in Hin. destruct Hin as ([k v'] & Hv' & Hin).
    simpl in Hv'. subst v'.
    exists k, v. split; [|assumption].
    rewrite <- table_get. apply In_kv_get; try assumption.
    rewrite Forall_forall in Hk. exact (Hk (k, v) Hin).
  - intros (login & s & Hl & Hs).
    rewrite <- table_get in Hl. apply kv_get_In in Hl.
    destruct Hl as (k' & Hin).
    exists s. split; [|assumption].
    apply in_map_iff. now exists (k', s).
Qed.

Lemma GithubService_is_approved_table entries :
  Forall (fun e => hashable (fst e) = true) entries ->
  GithubService.is_approved (table_of entries) = true <-> approved entries.
Proof.
  intros Hh. unfold GithubService.is_approved, approved; cbv zeta.
  rewrite andb_true_iff, negb_true_iff.
  rewrite <- !(some_latest_table _ entries Hh).
  destruct (existsb (is_str "CHANGES_REQUESTED") _); intuition congruence.
Qed.

Lemma GitHubClient_is_approved_table entries :
  Forall (fun e => hashable (fst e) = true) entries ->
  GitHubClient.is_approved (table_of entries) = true <-> approved entries.
Proof.
  intros Hh. unfold GitHubClient.is_approved, approved; cbv zeta.
  rewrite andb_true_iff, negb_true_iff.
  rewrite <- !(some_latest_table _ entries Hh).
  destruct (existsb (is_str "CHANGES_REQUESTED") _); intuition congruence.
Qed.

Lemma GithubService_collapses :
  collapses GithubService.latest_reviews GithubService.is_approved.
Proof.
  intros reviews entries H.
  pose proof (review_entries_hashable reviews entries H) as Hh.
  exists (table_of entries).
  rewrite GithubService_latest_reviews_run, H. cbn [rbind].
  split; [reflexivity|].
  split; [apply table_distinct; assumption|].
  split; [intros login; apply table_get|].
  now apply GithubService_is_approved_table.
Qed.

Lemma GitHubClient_collapses :
  collapses GitHubClient.latest_reviews GitHubClient.is_approved.
Proof.
  intros reviews entries H.
  pose proof (review_entries_hashable reviews entries H) as Hh.
  exists (table_of entries).
  rewrite GitHubClient_latest_reviews_run, H. cbn [rbind].
  split; [reflexivity|].
  split; [apply table_distinct; assumption|].
  split; [intros login; apply table_get|].
  now apply GitHubClient_is_approved_table.
Qed.

End Reviews.

Set Implicit Arguments.

(* ===================================================================== *)
(** ** The retry loop of GitHubClient._request                            *)
(* ===================================================================== *)

Section Retry.

Import GitHubClient.

Lemma attempt_run rq w :
  attempt rq w
  = (attempt_result rq (net w (calls w) rq),
     mkWorld (net w) (S (calls w)) (trace w ++ [Sent rq])).
Proof.
  unfold attempt, bind, requests_request, lift, attempt_result.
  now destruct (net w (calls w) rq).
Qed.

Lemma retry_loop_run retries rq w :
  retry_loop retries rq w
  = let w1 := mkWorld (net w) (S (calls w)) (trace w ++ [Sent rq]) in
    match attempt_result rq (net w (calls w) rq) with
    | Ok v => (Ok v, w1)
    | Raise e =>
        match retries with
        | O => (Raise e, w1)
        | S retries' =>
            retry_loop retries' rq
              (mkWorld (net w) (S (calls w))
                 ((trace w ++ [Sent rq]) ++ [Slept (2 - Z.of_nat retries')%Z]))
        end
    end.
Proof.
  destruct retries; simpl; unfold try_except; rewrite attempt_run;
    destruct (attempt_result rq (net w (calls w) rq)); reflexivity.
Qed.

(** Every call makes between one and [retries + 1] transport calls and
    leaves the provider untouched. *)
Lemma retry_loop_calls retries rq w :
  let w' := snd (retry_loop retries rq w) in
  (calls w < calls w' <= calls w + S retries)%nat /\ net w' = net w.
Proof.
  revert w. induction retries as [|r IH]; intros w; cbv zeta;
    rewrite retry_loop_run; cbv zeta;
    destruct (attempt_result rq (net w (calls w) rq)); simpl;
    try (split; [lia|reflexivity]).
  specialize (IH (mkWorld (net w) (S (calls w))
                    ((trace w ++ [Sent rq]) ++ [Slept (2 - Z.of_nat r)%Z]))).
  cbv zeta in IH; simpl in IH. destruct IH as [IH1 IH2].
  split; [lia|assumption].
Qed.

End Retry.

(** C3. The retry client makes at most three attempts per request.  When
    the first two attempts fail and the third succeeds, [_request] returns
    the third attempt's value after exactly three transport calls, having
    slept 1 second before the second and 2 seconds before the third; when
    all three fail, the third attempt's error reaches the caller and nothing
    is slept after it. *)
Theorem retry_three_attempts_linear_backoff :
  forall method endpoint is_text w,
    let rq := mkRequest method endpoint is_text in
    let a i := GitHubClient.attempt_result rq (net w (calls w + i) rq) in
    let run := GitHubClient._request method endpoint is_text w in
    let exhausted :=
      mkWorld (net w) (calls w + 3)
        (trace w ++ [Sent rq; Slept 1; Sent rq; Slept 2; Sent rq]) in
    (calls w < calls (snd run) <= calls w + 3)%nat /\
    (forall e1 e2 v,
        a 0%nat = Raise e1 -> a 1%nat = Raise e2 -> a 2%nat = Ok v ->
        run = (Ok v, exhausted)) /\
    (forall e1 e2 e3,
        a 0%nat = Raise e1 -> a 1%nat = Raise e2 -> a 2%nat = Raise e3 ->
        run = (Raise e3, exhausted)).
Proof.
  intros method endpoint is_text w rq a run exhausted.
  split; [apply (retry_loop_calls 2 rq w)|].
  subst run a exhausted. unfold GitHubClient._request. fold rq.
  replace (calls w + 0)%nat with (calls w) by lia.
  replace (calls w + 1)%nat with (S (calls w)) by lia.
  replace (calls w + 2)%nat with (S (S (calls w))) by lia.
  replace (calls w + 3)%nat with (S (S (S (calls w)))) by lia.
  split; intros * H0 H1 H2;
    rewrite retry_loop_run; cbv zeta; rewrite H0;
    rewrite retry_loop_run; cbv zeta; simpl net; simpl calls; rewrite H1;
    rewrite retry_loop_run; cbv zeta; simpl net; simpl calls; rewrite H2;
    simpl; rewrite <- !app_assoc; reflexivity.
Qed.

Lemma retry_three_attempts_linear_backoff_witness :
  let rq := mkRequest GET (Pulls "o/r" "open") false in
  GitHubClient._request GET (Pulls "o/r" "open") false Scenario.flaky_world
  = (Ok (JArr []),
     mkWorld Scenario.flaky_net 3 [Sent rq; Slept 1; Sent rq; Slept 2; Sent rq]).
Proof.
  exact (proj1 (proj2 (retry_three_attempts_linear_backoff
                         GET (Pulls "o/r" "open") false Scenario.flaky_world))
           (ConnectionError "reset") (ConnectionError "reset") (JArr [])
           eq_refl eq_refl eq_refl).
Defined.

(* ===================================================================== *)
(** ** What a computation adds to the trace                               *)
(* ===================================================================== *)

Section Emits.

Import Spec.

Context (P : Event -> Prop).

Lemma emits_ret {A} (a : A) : emits P (ret a).
Proof. intros w. exists []. simpl. now rewrite app_nil_r. Qed.

Lemma emits_raise {A} (e : exn) : emits P (@raise A e).
Proof. intros w. exists []. simpl. now rewrite app_nil_r. Qed.

Lemma emits_lift {A} (r : result A) : emits P (lift r).
Proof. intros w. exists []. simpl. now rewrite app_nil_r. Qed.

Lemma emits_bind {A B} (m : M A) (k : A -> M B) :
  emits P m -> (forall a, emits P (k a)) -> emits P (bind m k).
Proof.
  intros Hm Hk w. unfold bind.
  destruct (Hm w) as (evs & Ht & Hp).
  destruct (m w) as [[a|e] w1]; simpl in *.
  - destruct (Hk a w1) as (evs' & Ht' & Hp').
    exists (evs ++ evs'). rewrite Ht', Ht, app_assoc.
    split; [reflexivity|now apply Forall_app].
  - now exists evs.
Qed.

Lemma emits_try_except {A} (body : M A) (handler : exn -> M A) :
  emits P body -> (forall e, emits P (handler e)) ->
  emits P (try_except body handler).
Proof.
  intros Hm Hk w. unfold try_except.
  destruct (Hm w) as (evs & Ht & Hp).
  destruct (body w) as [[a|e] w1]; simpl in *.
  - now exists evs.
  - destruct (Hk e w1) as (evs' & Ht' & Hp').
    exists (evs ++ evs'). rewrite Ht', Ht, app_assoc.
    split; [reflexivity|now apply Forall_app].
Qed.

Lemma emits_requests_request rq :
  P (Sent rq) -> emits P (requests_request rq).
Proof.
  intros H w. exists [Sent rq]. unfold requests_request.
  destruct (net w (calls w) rq); simpl; split; auto.
Qed.

Lemma emits_time_sleep secs :
  P (Slept secs) -> emits P (time_sleep secs).
Proof. intros H w. exists [Slept secs]. simpl. auto. Qed.

Lemma emits_for_each {A B} (f : A -> M B) (l : list A) :
  (forall x, In x l -> emits P (f x)) -> emits P (for_each f l).
Proof.
  induction l as [|x l IH]; intros H; simpl.
  - apply emits_ret.
  - apply emits_bind; [apply H; now left|]. intros y.
    apply emits_bind; [apply IH; intros; apply H; now right|].
    intros ys. apply emits_ret.
Qed.

Lemma emits_submit {A} (task : M A) :
  emits P task -> emits P (GitHubClient.submit task).
Proof.
  intros H w. unfold GitHubClient.submit.
  destruct (H w) as (evs & Ht & Hp).
  destruct (task w) as [r w1]. now exists evs.
Qed.

Lemma emits_if {A} (b : bool) (m1 m2 : M A) :
  emits P m1 -> emits P m2 -> emits P (if b then m1 else m2).
Proof. now destruct b. Qed.

End Emits.

Lemma emits_weaken {A} (P Q : Event -> Prop) (m : M A) :
  (forall ev, P ev -> Q ev) -> Spec.emits P m -> Spec.emits Q m.
Proof.
  intros HPQ H w. destruct (H w) as (evs & Ht & Hp).
  exists evs. split; [assumption|].
  eapply Forall_impl; eauto.
Qed.

Create HintDb emits.
#[local] Hint Resolve emits_ret emits_raise emits_lift emits_requests_request
  emits_time_sleep emits_submit : emits.
#[local] Hint Extern 2 (Spec.emits _ (bind _ _)) =>
  apply emits_bind; [|intro] : emits.
#[local] Hint Extern 2 (Spec.emits _ (try_except _ _)) =>
  apply emits_try_except; [|intro] : emits.
#[local] Hint Extern 2 (Spec.emits _ (if _ then _ else _)) =>
  apply emits_if : emits.

Lemma emits_bind_lift {A B} (P : Event -> Prop) (r : result A) (k : A -> M B) :
  (forall a, r = Ok a -> Spec.emits P (k a)) -> Spec.emits P (bind (lift r) k).
Proof.
  intros Hk w. unfold bind, lift. destruct r as [a|e].
  - apply (Hk a eq_refl).
  - exists []. simpl. now rewrite app_nil_r.
Qed.

Lemma GithubService_request_emits (P : Event -> Prop) endpoint method is_text :
  P (Sent (mkRequest method endpoint is_text)) ->
  Spec.emits P (GithubService._request endpoint method is_text).
Proof. intros H. unfold GithubService._request. auto with emits. Qed.

Lemma GitHubClient_retry_loop_emits (P : Event -> Prop) retries rq :
  P (Sent rq) -> (forall secs, P (Slept secs)) ->
  Spec.emits P (GitHubClient.retry_loop retries rq).
Proof.
  intros Hs Hz. induction retries as [|r IH]; simpl;
    unfold GitHubClient.attempt; auto with emits.
Qed.

Lemma GitHubClient_request_emits (P : Event -> Prop) method endpoint is_text :
  P (Sent (mkRequest method endpoint is_text)) -> (forall secs, P (Slept secs)) ->
  Spec.emits P (GitHubClient._request method endpoint is_text).
Proof. intros. now apply GitHubClient_retry_loop_emits. Qed.

Lemma GithubService_enrich_pr_emits repo pr :
  Spec.emits (Spec.requested_for repo pr) (GithubService.enrich_pr repo pr).
Proof.
  unfold GithubService.enrich_pr.
  apply emits_try_except; [|auto with emits].
  apply emits_bind_lift; intros number Hn.
  apply emits_bind.
  { apply GithubService_request_emits. left. exists number. auto. }
  intros details. apply emits_bind_lift; intros number' Hn'.
  apply emits_bind.
  { apply GithubService_request_emits. left. exists number'. auto. }
  intros reviews. apply emits_bind_lift; intros head Hh.
  apply emits_bind_lift; intros sha Hsha.
  apply emits_bind; [|auto with emits].
  unfold GithubService.fetch_check_runs.
  apply emits_try_except; [|auto with emits].
  apply emits_bind; [|auto with emits].
  apply GithubService_request_emits. right. exists head, sha. auto.
Qed.

Lemma GitHubClient_enrich_pr_emits repo pr :
  Spec.emits (Spec.requested_for repo pr) (GitHubClient.enrich_pr repo pr).
Proof.
  unfold GitHubClient.enrich_pr, GitHubClient.future_result.
  apply emits_try_except; [|auto with emits].
  apply emits_bind_lift; intros number Hn.
  apply emits_bind.
  { apply emits_submit, GitHubClient_request_emits; simpl; auto.
    left. exists number. auto. }
  intros details. apply emits_bind_lift; intros number' Hn'.
  apply emits_bind.
  { apply emits_submit, GitHubClient_request_emits; simpl; auto.
    left. exists number'. auto. }
  intros reviews. apply emits_bind_lift; intros head Hh.
  apply emits_bind_lift; intros sha Hsha.
  apply emits_bind; [|auto 10 with emits].
  apply emits_submit. unfold GitHubClient.fetch_check_runs.
  apply emits_try_except; [|auto with emits].
  apply emits_bind; [|auto with emits].
  apply GitHubClient_request_emits; simpl; auto.
  right. exists head, sha. auto.
Qed.

(** A loop whose body always yields a value yields one value per item. *)
Lemma for_each_total {A B} (f : A -> M B) (l : list A) :
  (forall x w, In x l -> exists y, fst (f x w) = Ok y) ->
  forall w, exists ys, fst (for_each f l w) = Ok ys /\ List.length ys = List.length l.
Proof.
  induction l as [|x l IH]; intros H w; simpl.
  - now exists [].
  - unfold bind at 1.
    destruct (H x w (or_introl eq_refl)) as (y & Hy).
    destruct (f x w) as [r w1]; simpl in Hy; subst r.
    unfold bind at 1.
    destruct (IH (fun x' w' Hin => H x' w' (or_intror Hin)) w1) as (ys & Hys & Hlen).
    destruct (for_each f l w1) as [r w2]; simpl in Hys; subst r.
    exists (y :: ys). simpl. now rewrite Hlen.
Qed.

Lemma GithubService_enrich_pr_total repo (pr : pydict) w :
  exists record, fst (GithubService.enrich_pr repo (JObj pr) w) = Ok record.
Proof.
  unfold GithubService.enrich_pr, try_except.
  match goal with |- context [match ?b w with _ => _ end] => destruct (b w) as [[a|e] w1] end.
  - now exists a.
  - unfold lift, GithubService.degraded; simpl. eauto.
Qed.

Lemma GitHubClient_enrich_pr_total repo (pr : pydict) w :
  exists record, fst (GitHubClient.enrich_pr repo (JObj pr) w) = Ok record.
Proof.
  unfold GitHubClient.enrich_pr, try_except.
  match goal with |- context [match ?b w with _ => _ end] => destruct (b w) as [[a|e] w1] end.
  - now exists a.
  - unfold lift, GitHubClient.degraded; simpl. eauto.
Qed.

Lemma for_each_submit_total {A B} (f : A -> M B) (l : list A) :
  (forall x w, In x l -> exists y, fst (f x w) = Ok y) ->
  forall w, exists values,
    fst (for_each (fun x => GitHubClient.submit (f x)) l w) = Ok (map Ok values) /\
    List.length values = List.length l.
Proof.
  induction l as [|x l IH]; intros H w; simpl.
  - now exists [].
  - unfold bind at 1. unfold GitHubClient.submit at 1.
    destruct (H x w (or_introl eq_refl)) as (y & Hy).
    destruct (f x w) as [r w1]; simpl in Hy; subst r.
    unfold bind at 1.
    destruct (IH (fun x' w' Hin => H x' w' (or_intror Hin)) w1) as (ys & Hys & Hlen).
    destruct (for_each _ l w1) as [r w2]; simpl in Hys; subst r.
    exists (y :: ys). simpl. now rewrite Hlen.
Qed.

Lemma map_Ok_injective {A} (l l' : list A) :
  map (@Ok A) l = map (@Ok A) l' -> l = l'.
Proof.
  revert l'. induction l as [|x l IH]; intros [|x' l'] H;
    try discriminate; [reflexivity|].
  simpl in H. injection H as -> H. f_equal. now apply IH.
Qed.

Lemma gathered_all_ok values outcome :
  GitHubClient.gathered (map Ok values) outcome ->
  exists results, outcome = Ok results /\ Permutation values results.
Proof.
  intros H. inversion H as [fs vs rs Hfs Hperm|fs e Hin]; subst.
  - apply map_Ok_injective in Hfs; subst vs. now exists rs.
  - apply in_map_iff in Hin. destruct Hin as (v & Hv & _). discriminate.
Qed.



(* ===================================================================== *)
(** ** JulesService.list_sessions                                         *)
(* ===================================================================== *)

Section Sessions.

Import Spec JulesService.

Lemma request_calls endpoint method w :
  calls (snd (_request endpoint method w)) = S (calls w) /\
  net (snd (_request endpoint method w)) = net w.
Proof.
  unfold _request, bind, requests_request.
  destruct (net w (calls w) _) as [response|e]; [|simpl; auto].
  unfold lift, raise, ret.
  repeat match goal with
         | |- context [if ?x then _ else _] => destruct x
         end; simpl; auto.
Qed.

Lemma fetch_page_world acc tok w :
  snd (fetch_page acc tok w) = snd (_request (Sessions (page_query tok)) GET w).
Proof.
  unfold fetch_page. unfold bind at 1.
  destruct (_request (Sessions (page_query tok)) GET w) as [[data|e] w0];
    [|reflexivity].
  unfold bind, lift, ret.
  repeat (cbv beta iota;
          match goal with
          | |- context [match ?x with Ok _ => _ | Raise _ => _ end] => destruct x
          | |- context [if ?x then _ else _] => destruct x
          end); reflexivity.
Qed.

Lemma fetch_page_calls acc tok w :
  calls (snd (fetch_page acc tok w)) = S (calls w) /\
  net (snd (fetch_page acc tok w)) = net w.
Proof. rewrite fetch_page_world. apply request_calls. Qed.

Lemma fetch_page_served acc tok w p :
  net w (calls w) (mkRequest GET (Sessions (page_query tok)) false)
    = Reply (page_response p) ->
  fetch_page acc tok w
  = (Ok (acc ++ sessions_of p, token_json p),
     mkWorld (net w) (S (calls w))
       (trace w ++ [Sent (mkRequest GET (Sessions (page_query tok)) false)])).
Proof.
  intros H. unfold fetch_page, _request, bind, requests_request.
  rewrite H. unfold sessions_of, token_json.
  destruct p as [[l|] [t|]]; simpl; rewrite ?app_nil_r; reflexivity.
Qed.

Lemma truthy_token p : truthy (token_json p) = has_next p.
Proof. unfold token_json, has_next. now destruct (nextPageToken p). Qed.

Lemma sessions_of_pages_cons pages from count :
  sessions_of_pages pages from (S count)
  = sessions_of (pages from) ++ sessions_of_pages pages (S from) count.
Proof. reflexivity. Qed.

(** Against a paginating provider the loop reads [pages_read] pages and
    appends their sessions in order. *)
Lemma list_sessions_loop_served pages :
  forall budget fuel acc tok n w from,
    (budget <= fuel)%nat -> (1 <= budget)%nat -> (n + budget = 5)%nat ->
    serves w pages from ->
    let k := pages_read pages from budget in
    exists w',
      list_sessions_loop fuel acc tok n w
      = (Ok (Some (acc ++ sessions_of_pages pages from k)), w') /\
      calls w' = (calls w + k)%nat.
Proof.
  induction budget as [|b IH]; intros fuel acc tok n w from Hf Hb Hn Hs; [lia|].
  destruct fuel as [|f]; [lia|].
  cbv zeta. cbn [list_sessions_loop pages_read].
  unfold bind at 1.
  rewrite (fetch_page_served acc tok w (p := pages from)).
  2:{ specialize (Hs 0%nat). rewrite !Nat.add_0_r in Hs. apply Hs. }
  cbn [fst snd]. rewrite truthy_token.
  set (w1 := mkWorld _ _ _).
  assert (Hone : sessions_of_pages pages from 1 = sessions_of (pages from)).
  { unfold sessions_of_pages; simpl. apply app_nil_r. }
  destruct (has_next (pages from)) eqn:Hnext; cbn [negb orb].
  - destruct (5 <=? S n)%nat eqn:Hcap.
    + apply Nat.leb_le in Hcap. assert (b = 0)%nat by lia. subst b.
      cbn [pages_read]. rewrite Hone.
      exists w1. split; [reflexivity|subst w1; simpl; lia].
    + apply Nat.leb_gt in Hcap.
      destruct (IH f (acc ++ sessions_of (pages from)) (token_json (pages from))
                  (S n) w1 (S from)) as (w' & Hr & Hc); try lia.
      { intros i rq. subst w1; simpl.
        replace (S (calls w + i)) with (calls w + S i)%nat by lia.
        replace (S (from + i)) with (from + S i)%nat by lia. apply Hs. }
      exists w'. rewrite Hr, Hc.
      rewrite sessions_of_pages_cons, app_assoc.
      split; [reflexivity|subst w1; simpl; lia].
  - rewrite Hone. exists w1. split; [reflexivity|subst w1; simpl; lia].
Qed.

(** Whatever the provider does, the loop stops within the page budget and
    never for lack of fuel. *)
Lemma list_sessions_loop_bounded :
  forall budget fuel acc tok n w,
    (budget <= fuel)%nat -> (1 <= budget)%nat -> (5 <= n + budget)%nat ->
    exists r w',
      list_sessions_loop fuel acc tok n w = (r, w') /\
      list_sessions_loop budget acc tok n w = (r, w') /\
      r <> Ok None /\
      (calls w < calls w' <= calls w + budget)%nat.
Proof.
  induction budget as [|b IH]; intros fuel acc tok n w Hf Hb Hn; [lia|].
  destruct fuel as [|f]; [lia|].
  cbn [list_sessions_loop]. unfold bind.
  destruct (fetch_page_calls acc tok w) as [Hc Hnet].
  destruct (fetch_page acc tok w) as [[page|e] w1]; cbn [fst snd] in *.
  - destruct (negb (truthy (snd page)) || (5 <=? S n)%nat) eqn:Hstop.
    + eexists _, _. repeat split; try discriminate; lia.
    + apply orb_false_iff in Hstop. destruct Hstop as [_ Hcap].
      apply Nat.leb_gt in Hcap.
      destruct (IH f (fst page) (snd page) (S n) w1)
        as (r & w' & H1 & H2 & H3 & H4); try lia.
      exists r, w'. repeat split; try assumption; lia.
  - eexists _, _. repeat split; try discriminate; lia.
Qed.

Lemma pages_read_spec pages :
  forall budget from,
    (1 <= budget)%nat ->
    let k := pages_read pages from budget in
    (1 <= k <= budget)%nat /\
    (forall i, (S i < k)%nat -> has_next (pages (from + i)%nat) = true) /\
    ((k < budget)%nat -> has_next (pages (from + (k - 1))%nat) = false).
Proof.
  induction budget as [|b IH]; intros from Hb; [lia|].
  cbv zeta. simpl.
  destruct (has_next (pages from)) eqn:Hnext.
  - destruct b as [|b'].
    + simpl. repeat split; try lia; intros; lia.
    + destruct (IH (S from)) as (H1 & H2 & H3); [lia|]. cbv zeta in *.
      repeat split; try lia.
      * intros [|i] Hi.
        -- now rewrite Nat.add_0_r.
        -- replace (from + S i)%nat with (S from + i)%nat by lia.
           apply H2. lia.
      * intros Hk.
        replace (from + (S (pages_read pages (S from) (S b')) - 1))%nat
          with (S from + (pages_read pages (S from) (S b') - 1))%nat by lia.
        apply H3. lia.
  - repeat split; try lia; intros; try lia.
    simpl. now rewrite Nat.add_0_r.
Qed.

End Sessions.

(** C9. [list_sessions] ends after at most five page fetches whatever the
    provider answers, a token on every page included, and never for lack
    of fuel in the model.  Against a provider that serves pages it returns
    the sessions of the pages it fetched, concatenated in page order; it
    fetches fewer than five exactly when the last page fetched names no
    next page, every page before it naming one. *)
Theorem list_sessions_five_page_cap :
  (forall fuel w,
      (5 <= fuel)%nat ->
      let run := JulesService.list_sessions fuel w in
      run = JulesService.list_sessions 5 w /\
      fst run <> Ok None /\
      (calls w < calls (snd run) <= calls w + 5)%nat) /\
  (forall fuel w pages,
      (5 <= fuel)%nat ->
      Spec.serves w pages 0 ->
      let k := Spec.pages_read pages 0 5 in
      let run := JulesService.list_sessions fuel w in
      fst run = Ok (Some (Spec.sessions_of_pages pages 0 k)) /\
      calls (snd run) = (calls w + k)%nat /\
      (1 <= k <= 5)%nat /\
      (forall i, (S i < k)%nat -> Spec.has_next (pages i) = true) /\
      ((k < 5)%nat -> Spec.has_next (pages (k - 1)%nat) = false)).
Proof.
  split.
  - intros fuel w Hf. cbv zeta. unfold JulesService.list_sessions.
    destruct (@list_sessions_loop_bounded 5 fuel [] JNull 0 w)
      as (r & w' & H1 & H2 & H3 & H4); try lia.
    rewrite H1, H2. simpl. repeat split; try assumption; lia.
  - intros fuel w pages Hf Hs. cbv zeta. unfold JulesService.list_sessions.
    destruct (@list_sessions_loop_served pages 5 fuel [] JNull 0 w 0)
      as (w' & H1 & H2); try lia; try assumption.
    destruct (@pages_read_spec pages 5 0) as (K1 & K2 & K3); [lia|].
    cbv zeta in *. simpl app in H1. rewrite H1. simpl fst; simpl snd.
    repeat split; try assumption; try lia.
Qed.

Lemma list_sessions_five_page_cap_witness :
  fst (JulesService.list_sessions 7 Scenario.endless_world)
  = Ok (Some [JNum 0; JNum 1; JNum 2; JNum 3; JNum 4]) /\
  calls (snd (JulesService.list_sessions 7 Scenario.endless_world)) = 5%nat.
Proof.
  assert (Hf : (5 <= 7)%nat) by lia.
  assert (Hs : Spec.serves Scenario.endless_world Scenario.endless_pages 0).
  { intros i rq. reflexivity. }
  pose proof (proj2 list_sessions_five_page_cap 7%nat Scenario.endless_world
                Scenario.endless_pages Hf Hs) as H.
  cbv zeta in H. destruct H as (H1 & H2 & _).
  split; [exact H1|exact H2].
Defined.

(* ===================================================================== *)
(** ** fetch_check_runs and the join of the three fetches                 *)
(* ===================================================================== *)

Lemma GithubService_fetch_check_runs_run repo ref w :
  let request := GithubService._request (CheckRuns repo ref) GET false w in
  GithubService.fetch_check_runs repo ref w
  = (Ok match fst request with
        | Ok data =>
            match GithubService.check_results_of data with
            | Ok results => results
            | Raise _ => []
            end
        | Raise _ => []
        end,
     snd request).
Proof.
  cbv zeta. unfold GithubService.fetch_check_runs, try_except, bind, lift, ret.
  destruct (GithubService._request (CheckRuns repo ref) GET false w)
    as [[data|e] w1]; cbn [fst snd]; [|reflexivity].
  now destruct (GithubService.check_results_of data).
Qed.

Lemma GitHubClient_fetch_check_runs_run repo ref w :
  let request := GitHubClient._request GET (CheckRuns repo ref) false w in
  GitHubClient.fetch_check_runs repo ref w
  = (Ok match fst request with
        | Ok data =>
            match GitHubClient.check_results_of data with
            | Ok results => results
            | Raise _ => []
            end
        | Raise _ => []
        end,
     snd request).
Proof.
  cbv zeta. unfold GitHubClient.fetch_check_runs, try_except, bind, lift, ret.
  destruct (GitHubClient._request GET (CheckRuns repo ref) false w)
    as [[data|e] w1]; cbn [fst snd]; [|reflexivity].
  now destruct (GitHubClient.check_results_of data).
Qed.

(** Once the three fetches have returned, the loop body yields the record
    built from them, or the fallback when building it raises. *)
Lemma GithubService_enrich_pr_joined repo pr w number head sha
    details w1 reviews w2 crs w3 :
  getitem pr "number" = Ok number ->
  getitem pr "head" = Ok head ->
  getitem head "sha" = Ok sha ->
  GithubService.fetch_pr_details repo number w = (Ok details, w1) ->
  GithubService.fetch_pr_reviews repo number w1 = (Ok reviews, w2) ->
  GithubService.fetch_check_runs repo sha w2 = (Ok crs, w3) ->
  GithubService.enrich_pr repo pr w
  = (match GithubService.enriched details reviews crs with
     | Ok record => Ok record
     | Raise _ => GithubService.degraded pr
     end, w3).
Proof.
  intros Hn Hh Hs Hd Hr Hc.
  unfold GithubService.enrich_pr, try_except, bind, lift.
  rewrite Hn, Hd, Hr, Hh, Hs, Hc.
  now destruct (GithubService.enriched details reviews crs).
Qed.

Lemma GitHubClient_enrich_pr_joined repo pr w number head sha
    details w1 reviews w2 crs w3 :
  getitem pr "number" = Ok number ->
  getitem pr "head" = Ok head ->
  getitem head "sha" = Ok sha ->
  GitHubClient.fetch_pr_details repo number w = (Ok details, w1) ->
  GitHubClient.fetch_pr_reviews repo number w1 = (Ok reviews, w2) ->
  GitHubClient.fetch_check_runs repo sha w2 = (Ok crs, w3) ->
  GitHubClient.enrich_pr repo pr w
  = (match GitHubClient.enriched details reviews crs with
     | Ok record => Ok record
     | Raise _ => GitHubClient.degraded pr
     end, w3).
Proof.
  intros Hn Hh Hs Hd Hr Hc.
  unfold GitHubClient.enrich_pr, try_except, bind, lift,
    GitHubClient.submit, GitHubClient.future_result, lift.
  rewrite Hn, Hd, Hr, Hh, Hs, Hc.
  now destruct (GitHubClient.enriched details reviews crs).
Qed.

Lemma rmap_cons {A B} (f : A -> result B) (x : A) (l : list A) :
  rmap f (x :: l) = let! y := f x in let! ys := rmap f l in Ok (y :: ys).
Proof. reflexivity. Qed.

Lemma rmap_some_fail {A B} (f : A -> result B) (l : list A) :
  (exists x, In x l /\ exists e, f x = Raise e) -> exists e, rmap f l = Raise e.
Proof.
  induction l as [|y l IH]; intros (x & Hin & e & He); [destruct Hin|].
  simpl. destruct (f y) as [b|e'] eqn:Ey; simpl; [|eauto].
  destruct Hin as [->|Hin]; [congruence|].
  destruct IH as (e1 & ->); simpl; eauto.
Qed.

Lemma rmap_all_fail {A B} (f : A -> result B) (l : list A) :
  (forall x, In x l -> exists e, f x = Raise e) ->
  match rmap f l with
  | Ok results => results = []
  | Raise _ => True
  end.
Proof.
  destruct l as [|y l]; intros H; simpl; [reflexivity|].
  destruct (H y (or_introl eq_refl)) as (e & ->). exact I.
Qed.

Lemma forallb_false_exists {A} (p : A -> bool) (l : list A) :
  forallb p l = false -> exists x, In x l /\ p x = false.
Proof.
  induction l as [|y l IH]; simpl; [discriminate|].
  destruct (p y) eqn:E; simpl; intros H.
  - destruct (IH H) as (x & Hin & Hx). eauto.
  - eauto.
Qed.

(** Items of another kind than an object make both projections raise. *)
Lemma project_run_not_object (v : json) :
  Spec.is_object v = false ->
  (exists e, GithubService.project_run v = Raise e) /\
  (exists e, GitHubClient.project_run v = Raise e).
Proof.
  destruct v; simpl; intros H; try discriminate; split; eexists; reflexivity.
Qed.

Lemma iter_scalar_items (v : json) (items : list json) :
  match v with JArr _ => False | _ => True end ->
  iter v = Ok items ->
  forall x, In x items -> Spec.is_object x = false.
Proof.
  destruct v; simpl; intros Hv H; try discriminate; try contradiction;
    injection H as <-; intros x Hin; apply in_map_iff in Hin;
    destruct Hin as (y & <- & _); reflexivity.
Qed.

Lemma GithubService_check_results_ill_shaped data :
  Spec.well_shaped_check_runs data = false ->
  match GithubService.check_results_of data with
  | Ok results => results = []
  | Raise _ => True
  end.
Proof.
  unfold GithubService.check_results_of, Spec.well_shaped_check_runs.
  destruct data; simpl; auto.
  destruct (dict_lookup "check_runs" o) as [runs|]; simpl; auto.
  intros H. destruct (iter runs) as [items|] eqn:Ei; simpl; auto.
  destruct runs; try discriminate.
  - apply rmap_all_fail. intros x Hx.
    apply project_run_not_object.
    exact (@iter_scalar_items (JStr s) items I Ei x Hx).
  - injection Ei as <-. apply forallb_false_exists in H.
    destruct H as (x & Hin & Hx).
    destruct (@rmap_some_fail _ _ GithubService.project_run l) as (e & ->); auto.
    exists x. split; [assumption|]. now apply project_run_not_object.
  - apply rmap_all_fail. intros x Hx.
    apply project_run_not_object.
    exact (@iter_scalar_items (JObj o0) items I Ei x Hx).
Qed.

Lemma GitHubClient_check_results_ill_shaped data :
  Spec.well_shaped_check_runs data = false ->
  match GitHubClient.check_results_of data with
  | Ok results => results = []
  | Raise _ => True
  end.
Proof.
  unfold GitHubClient.check_results_of, Spec.well_shaped_check_runs.
  destruct data; simpl; auto.
  destruct (dict_lookup "check_runs" o) as [runs|]; simpl; auto.
  intros H. destruct (iter runs) as [items|] eqn:Ei; simpl; auto.
  destruct runs; try discriminate.
  - apply rmap_all_fail. intros x Hx.
    apply project_run_not_object.
    exact (@iter_scalar_items (JStr s) items I Ei x Hx).
  - injection Ei as <-. apply forallb_false_exists in H.
    destruct H as (x & Hin & Hx).
    destruct (@rmap_some_fail _ _ GitHubClient.project_run l) as (e & ->); auto.
    exists x. split; [assumption|]. now apply project_run_not_object.
  - apply rmap_all_fail. intros x Hx.
    apply project_run_not_object.
    exact (@iter_scalar_items (JObj o0) items I Ei x Hx).
Qed.

(* ===================================================================== *)
(** ** Classification of responses                                        *)
(* ===================================================================== *)

Lemma GithubService_error_message r :
  Exception (GithubService.error_message r) = Spec.api_error r.
Proof.
  unfold GithubService.error_message, Spec.api_error, Spec.provider_message,
    response_json.
  destruct (body r) as [[| | | | l|o]|]; simpl; try reflexivity.
  - now destruct (is_infix "message" s).
  - now destruct (existsb (is_str "message") l).
  - now destruct (dict_lookup "message" o).
Qed.

Lemma GitHubClient_error_message r :
  Exception (GitHubClient.error_message r) = Spec.api_error r.
Proof.
  unfold GitHubClient.error_message, Spec.api_error, Spec.provider_message,
    response_json.
  destruct (body r) as [[| | | | l|o]|]; simpl; reflexivity.
Qed.

Lemma is_2xx_ok r : Spec.is_2xx r = true -> ok r = true /\ rate_limited r = false.
Proof.
  unfold Spec.is_2xx, ok, rate_limited. intros H.
  apply andb_true_iff in H. destruct H as [H1 H2].
  apply Z.leb_le in H1. apply Z.ltb_lt in H2.
  replace (400 <=? status_code r)%Z with false by (symmetry; apply Z.leb_gt; lia).
  replace (status_code r =? 429)%Z with false by (symmetry; apply Z.eqb_neq; lia).
  replace (status_code r =? 403)%Z with false by (symmetry; apply Z.eqb_neq; lia).
  now split.
Qed.

(** C6, as amended. Both services classify a response before anything
    else: status 429, or 403 with a remaining-rate-limit header of "0",
    raises the fixed rate-limit error; every other status from 400 to 599
    raises an error carrying the ['message'] of the JSON body when the body
    is an object that has one and ["Error: <status>"] otherwise; every
    other response, the 2xx ones among them, raises nothing. *)
Theorem classification_of_4xx_5xx :
  Spec.classifies_4xx_5xx GithubService.check_response /\
  Spec.classifies_4xx_5xx GitHubClient.check_response.
Proof.
  split; intros r;
    unfold GithubService.check_response, GitHubClient.check_response;
    rewrite ?GithubService_error_message, ?GitHubClient_error_message;
    unfold Spec.is_4xx_5xx; fold (negb (ok r)); unfold ok;
    (split; [now intros ->|]);
    (split; [now intros -> ->|]);
    (split; [now intros -> ->|]);
    intros H; apply is_2xx_ok in H; destruct H as [H1 H2];
    rewrite H2; unfold ok in H1; now rewrite H1.
Qed.

Lemma classification_of_4xx_5xx_witness :
  GithubService.check_response Scenario.not_found
  = Raise (Exception (JStr "Not Found")).
Proof.
  exact (proj1 (proj2 (proj1 classification_of_4xx_5xx Scenario.not_found))
           eq_refl eq_refl).
Defined.

(** C6, as stated, fails: a 304 response is neither 2xx nor rate-limited,
    and neither service raises on it. *)
Lemma non_2xx_not_always_raised :
  ~ Spec.classifies_non_2xx GithubService.check_response /\
  ~ Spec.classifies_non_2xx GitHubClient.check_response.
Proof.
  split; intros H;
    destruct (H Scenario.not_modified) as (_ & H2 & _);
    specialize (H2 eq_refl eq_refl); discriminate H2.
Qed.

(* ===================================================================== *)
(** ** The fallback record                                                *)
(* ===================================================================== *)

Lemma dict_lookup_update_other (k : string) (u d : pydict) :
  (forall kv, In kv u -> String.eqb k (fst kv) = false) ->
  dict_lookup k (dict_update d u) = dict_lookup k d.
Proof.
  unfold dict_update. revert d.
  induction u as [|[k' v] u IH]; intros d H; simpl; [reflexivity|].
  rewrite IH by (intros kv Hin; apply H; now right).
  apply dict_lookup_set_other. apply (H (k', v)). now left.
Qed.

(** GithubService's fallback keeps the pull request's own fields and sets
    the six derived ones to their defaults. *)
Lemma GithubService_degraded_fields (fields : pydict) :
  exists record,
    GithubService.degraded (JObj fields) = Ok record /\
    getitem record "testStatus" = Ok (JStr "unknown") /\
    getitem record "checkResults" = Ok (JArr []) /\
    getitem record "isApproved" = Ok (JBool false) /\
    getitem record "isBig" = Ok (JBool false) /\
    getitem record "isReadyToMerge" = Ok (JBool false) /\
    getitem record "isLeaderBranch" = Ok (JBool false) /\
    forall k,
      existsb (String.eqb k)
        ["testStatus"; "checkResults"; "isApproved"; "isBig";
         "isReadyToMerge"; "isLeaderBranch"] = false ->
      getitem record k = getitem (JObj fields) k.
Proof.
  eexists. split; [reflexivity|].
  unfold getitem.
  repeat (split; [lookup_field; reflexivity|]).
  intros k Hk. simpl in Hk.
  repeat (apply orb_false_iff in Hk; destruct Hk as [? Hk]).
  rewrite dict_lookup_update_other; [reflexivity|].
  simpl. intros kv Hin.
  repeat (destruct Hin as [<-|Hin]; [assumption|]). destruct Hin.
Qed.

(** GitHubClient's fallback sets five derived fields and leaves
    [checkResults] as it finds it. *)
Lemma GitHubClient_degraded_fields (fields : pydict) :
  exists record,
    GitHubClient.degraded (JObj fields) = Ok record /\
    getitem record "testStatus" = Ok (JStr "unknown") /\
    getitem record "isApproved" = Ok (JBool false) /\
    getitem record "isBig" = Ok (JBool false) /\
    getitem record "isReadyToMerge" = Ok (JBool false) /\
    getitem record "isLeaderBranch" = Ok (JBool false) /\
    getitem record "checkResults" = getitem (JObj fields) "checkResults".
Proof.
  eexists. split; [reflexivity|].
  unfold getitem.
  repeat (split; [lookup_field; reflexivity|]).
  rewrite dict_lookup_update_other; [reflexivity|].
  simpl. intros kv Hin.
  repeat (destruct Hin as [<-|Hin]; [reflexivity|]). destruct Hin.
Qed.

(** In GithubService a failing detail or review fetch leads to the
    fallback record and to nothing else. *)
Lemma GithubService_enrich_pr_fetch_failure repo pr w number :
  getitem pr "number" = Ok number ->
  (forall e w1,
      GithubService.fetch_pr_details repo number w = (Raise e, w1) ->
      GithubService.enrich_pr repo pr w = (GithubService.degraded pr, w1)) /\
  (forall details w1 e w2,
      GithubService.fetch_pr_details repo number w = (Ok details, w1) ->
      GithubService.fetch_pr_reviews repo number w1 = (Raise e, w2) ->
      GithubService.enrich_pr repo pr w = (GithubService.degraded pr, w2)).
Proof.
  intros Hn. split.
  - intros e w1 Hd.
    unfold GithubService.enrich_pr, try_except, bind, lift.
    now rewrite Hn, Hd.
  - intros details w1 e w2 Hd Hr.
    unfold GithubService.enrich_pr, try_except, bind, lift.
    now rewrite Hn, Hd, Hr.
Qed.

(** C2. With a failing detail fetch, GitHubClient returns the pull
    request with five derived fields reset and no [checkResults] key at
    all, where GithubService returns it with [checkResults = []]. *)
Theorem degraded_record_lacks_checkResults :
  let pr := Scenario.pull_request in
  let w := Scenario.detail_down_world in
  (exists record,
      fst (GitHubClient.enrich_pr "o/r" pr w) = Ok record /\
      GitHubClient.degraded pr = Ok record /\
      getitem record "testStatus" = Ok (JStr "unknown") /\
      getitem record "isApproved" = Ok (JBool false) /\
      getitem record "checkResults" = Raise (KeyError "checkResults")) /\
  (exists record,
      fst (GithubService.enrich_pr "o/r" pr w) = Ok record /\
      GithubService.degraded pr = Ok record /\
      getitem record "testStatus" = Ok (JStr "unknown") /\
      getitem record "isApproved" = Ok (JBool false) /\
      getitem record "checkResults" = Ok (JArr [])).
Proof.
  cbv zeta. split; eexists; repeat split; reflexivity.
Qed.

(* ===================================================================== *)
(** ** isBig                                                              *)
(* ===================================================================== *)

(** GithubService reads a missing or null [changed_files] as 0. *)
Lemma GithubService_is_big_spec (fields : pydict) :
  match dict_lookup "changed_files" fields with
  | None | Some JNull => GithubService.is_big (JObj fields) = Ok false
  | Some (JNum n) => GithubService.is_big (JObj fields) = Ok (15 <? n)%Z
  | Some _ => True
  end.
Proof.
  unfold GithubService.is_big, get; simpl.
  destruct (dict_lookup "changed_files" fields) as [[| |n| | |]|];
    simpl; auto.
  unfold por; simpl. destruct (Z.eqb_spec n 0) as [->|Hn]; reflexivity.
Qed.

(** GitHubClient reads a missing [changed_files] as 0 and raises on a
    null one. *)
Lemma GitHubClient_is_big_spec (fields : pydict) :
  match dict_lookup "changed_files" fields with
  | None => GitHubClient.is_big (JObj fields) = Ok false
  | Some JNull => GitHubClient.is_big (JObj fields) = Raise TypeError
  | Some (JNum n) => GitHubClient.is_big (JObj fields) = Ok (15 <? n)%Z
  | Some _ => True
  end.
Proof.
  unfold GitHubClient.is_big, get; simpl.
  destruct (dict_lookup "changed_files" fields) as [[| |n| | |]|];
    simpl; auto.
Qed.

(** C5. On a detail record whose [changed_files] is null, GitHubClient's
    comparison raises and the pull request comes back degraded, where
    GithubService classifies it not-big in a fully enriched record. *)
Theorem null_changed_files_degrades_client :
  let pr := Scenario.pull_request in
  let w := Scenario.null_size_world in
  GitHubClient.is_big Scenario.details_null_size = Raise TypeError /\
  fst (GitHubClient.enrich_pr "o/r" pr w) = GitHubClient.degraded pr /\
  GithubService.is_big Scenario.details_null_size = Ok false /\
  (exists record,
      fst (GithubService.enrich_pr "o/r" pr w) = Ok record /\
      getitem record "isBig" = Ok (JBool false) /\
      getitem record "testStatus" = Ok (JStr "passed") /\
      getitem record "isApproved" = Ok (JBool true) /\
      getitem record "isReadyToMerge" = Ok (JBool true) /\
      getitem record "isLeaderBranch" = Ok (JBool true)).
Proof.
  cbv zeta. repeat split; try reflexivity.
  eexists; repeat split; reflexivity.
Qed.

(* ===================================================================== *)
(** ** The record built from the three fetches                            *)
(* ===================================================================== *)

Unset Implicit Arguments.

Lemma GithubService_is_big_built (fields : pydict) :
  match dict_lookup "changed_files" fields with
  | None | Some (JNum _) => True
  | Some _ => False
  end ->
  GithubService.is_big (JObj fields) = Ok (SpecMore.big fields).
Proof.
  pose proof (GithubService_is_big_spec fields) as Hb. revert Hb.
  unfold SpecMore.big.
  destruct (dict_lookup "changed_files" fields) as [[| |n| | |]|];
    intros Hb H; try contradiction; exact Hb.
Qed.

Lemma GitHubClient_is_big_built (fields : pydict) :
  match dict_lookup "changed_files" fields with
  | None | Some (JNum _) => True
  | Some _ => False
  end ->
  GitHubClient.is_big (JObj fields) = Ok (SpecMore.big fields).
Proof.
  pose proof (GitHubClient_is_big_spec fields) as Hb. revert Hb.
  unfold SpecMore.big.
  destruct (dict_lookup "changed_files" fields) as [[| |n| | |]|];
    intros Hb H; try contradiction; exact Hb.
Qed.

Lemma GithubService_is_ready_built (fields : pydict) :
  GithubService.is_ready_to_merge (JObj fields) = Ok (SpecMore.ready fields).
Proof.
  unfold GithubService.is_ready_to_merge, SpecMore.ready. cbn [get rbind].
  now destruct (dict_lookup "mergeable" fields) as [[|[|]| | | |]|].
Qed.

Lemma GitHubClient_is_ready_built (fields : pydict) :
  GitHubClient.is_ready_to_merge (JObj fields) = Ok (SpecMore.ready fields).
Proof.
  unfold GitHubClient.is_ready_to_merge, SpecMore.ready. cbn [get rbind].
  now destruct (dict_lookup "mergeable" fields) as [[|[|]| | | |]|].
Qed.

Lemma GithubService_is_leader_built (details : json) (ref : string) :
  SpecMore.base_ref details = Ok (JStr ref) ->
  GithubService.is_leader_branch details = Ok (SpecMore.leader ref).
Proof.
  unfold SpecMore.base_ref, GithubService.is_leader_branch.
  destruct (getitem details "base") as [base|]; cbn [rbind]; [|discriminate].
  intros H. rewrite H. reflexivity.
Qed.

Lemma GitHubClient_is_leader_built (details : json) (ref : string) :
  SpecMore.base_ref details = Ok (JStr ref) ->
  GitHubClient.is_leader_branch details = Ok (SpecMore.leader ref).
Proof.
  unfold SpecMore.base_ref, GitHubClient.is_leader_branch.
  destruct (getitem details "base") as [base|]; cbn [rbind]; [|discriminate].
  intros H. rewrite H. reflexivity.
Qed.

(** From a detail record and reviews that have what is read of them, both
    services build the same record. *)
Lemma GithubService_enriched_built details reviews fields ref entries crs :
  SpecMore.buildable details reviews fields ref entries ->
  GithubService.enriched details reviews crs
  = Ok (JObj (dict_update fields
          (enriched_fields (Spec.test_status crs) crs
             (GithubService.is_approved (SpecMore.table_of entries))
             (SpecMore.big fields) (SpecMore.ready fields)
             (SpecMore.leader ref)))).
Proof.
  intros (-> & Href & Hsize & rs & -> & Hrs).
  unfold GithubService.enriched. cbv zeta. cbn [iter rbind].
  rewrite GithubService_latest_reviews_run, Hrs. cbn [rbind mapping].
  rewrite (GithubService_is_big_built fields Hsize). cbn [rbind].
  rewrite GithubService_is_ready_built. cbn [rbind].
  rewrite (GithubService_is_leader_built _ ref Href). cbn [rbind].
  now rewrite GithubService_test_status_spec.
Qed.

Lemma GitHubClient_enriched_built details reviews fields ref entries crs :
  SpecMore.buildable details reviews fields ref entries ->
  GitHubClient.enriched details reviews crs
  = Ok (JObj (dict_update fields
          (enriched_fields (Spec.test_status crs) crs
             (GitHubClient.is_approved (SpecMore.table_of entries))
             (SpecMore.big fields) (SpecMore.ready fields)
             (SpecMore.leader ref)))).
Proof.
  intros (-> & Href & Hsize & rs & -> & Hrs).
  unfold GitHubClient.enriched. cbv zeta. cbn [iter rbind].
  rewrite GitHubClient_latest_reviews_run, Hrs. cbn [rbind mapping].
  rewrite (GitHubClient_is_big_built fields Hsize). cbn [rbind].
  rewrite GitHubClient_is_ready_built. cbn [rbind].
  rewrite (GitHubClient_is_leader_built _ ref Href). cbn [rbind].
  now rewrite GitHubClient_test_status_spec.
Qed.

(** With the three fetches served, the loop body yields the record built
    from them, or the fallback of the list entry when building raises. *)
Lemma GithubService_enrich_pr_served repo pr w details reviews crs w3 :
  SpecMore.served GithubService.fetch_pr_details GithubService.fetch_pr_reviews
    GithubService.fetch_check_runs repo pr w details reviews crs w3 ->
  GithubService.enrich_pr repo pr w
  = (match GithubService.enriched details reviews crs with
     | Ok record => Ok record
     | Raise _ => GithubService.degraded pr
     end, w3) /\
  exists fields, pr = JObj fields.
Proof.
  intros (number & head & sha & w1 & w2 & Hn & Hh & Hs & Hd & Hr & Hc).
  split.
  - eapply GithubService_enrich_pr_joined; eassumption.
  - destruct pr; try discriminate Hn. eauto.
Qed.

Lemma GitHubClient_enrich_pr_served repo pr w details reviews crs w3 :
  SpecMore.served GitHubClient.fetch_pr_details GitHubClient.fetch_pr_reviews
    GitHubClient.fetch_check_runs repo pr w details reviews crs w3 ->
  GitHubClient.enrich_pr repo pr w
  = (match GitHubClient.enriched details reviews crs with
     | Ok record => Ok record
     | Raise _ => GitHubClient.degraded pr
     end, w3) /\
  exists fields, pr = JObj fields.
Proof.
  intros (number & head & sha & w1 & w2 & Hn & Hh & Hs & Hd & Hr & Hc).
  split.
  - eapply GitHubClient_enrich_pr_joined; eassumption.
  - destruct pr; try discriminate Hn. eauto.
Qed.

Lemma GithubService_status_joined :
  SpecMore.status_joined GithubService.enrich_pr
    GithubService.fetch_pr_details GithubService.fetch_pr_reviews
    GithubService.fetch_check_runs.
Proof.
  intros repo pr w details reviews crs w3 Hs.
  destruct (GithubService_enrich_pr_served _ _ _ _ _ _ _ Hs) as [E (p & ->)].
  rewrite E. split.
  - intros fields ref entries Hb.
    rewrite (GithubService_enriched_built _ _ _ _ _ crs Hb).
    eexists. split; [reflexivity|]. apply enriched_fields_lookup.
  - destruct (GithubService.enriched details reviews crs) as [record|e] eqn:Ee.
    + exists record. split; [reflexivity|]. left.
      apply GithubService_enriched_inv in Ee.
      destruct Ee as (rs & latest & fields & big & ready & leader & Ee).
      destruct Ee as (_ & _ & _ & _ & _ & _ & ->).
      rewrite <- GithubService_test_status_spec.
      apply enriched_fields_lookup.
    + destruct (GithubService_degraded_fields p) as (record & Hd & Ht & _).
      exists record. rewrite Hd. split; [reflexivity|now right].
Qed.

Lemma GitHubClient_status_joined :
  SpecMore.status_joined GitHubClient.enrich_pr
    GitHubClient.fetch_pr_details GitHubClient.fetch_pr_reviews
    GitHubClient.fetch_check_runs.
Proof.
  intros repo pr w details reviews crs w3 Hs.
  destruct (GitHubClient_enrich_pr_served _ _ _ _ _ _ _ Hs) as [E (p & ->)].
  rewrite E. split.
  - intros fields ref entries Hb.
    rewrite (GitHubClient_enriched_built _ _ _ _ _ crs Hb).
    eexists. split; [reflexivity|]. apply enriched_fields_lookup.
  - destruct (GitHubClient.enriched details reviews crs) as [record|e] eqn:Ee.
    + exists record. split; [reflexivity|]. left.
      apply GitHubClient_enriched_inv in Ee.
      destruct Ee as (rs & latest & fields & big & ready & leader & Ee).
      destruct Ee as (_ & _ & _ & _ & _ & _ & ->).
      rewrite <- GitHubClient_test_status_spec.
      apply enriched_fields_lookup.
    + destruct (GitHubClient_degraded_fields p) as (record & Hd & Ht & _).
      exists record. rewrite Hd. split; [reflexivity|now right].
Qed.




(* ===================================================================== *)
(** ** isApproved                                                         *)
(* ===================================================================== *)

Lemma GithubService_approval_joined :
  SpecMore.approval_joined GithubService.enrich_pr
    GithubService.fetch_pr_details GithubService.fetch_pr_reviews
    GithubService.fetch_check_runs.
Proof.
  intros repo pr w details reviews crs w3 Hs.
  destruct (GithubService_enrich_pr_served _ _ _ _ _ _ _ Hs) as [E (p & ->)].
  rewrite E. split; [|split].
  - intros fields ref entries Hb.
    rewrite (GithubService_enriched_built _ _ _ _ _ crs Hb).
    destruct Hb as (_ & _ & _ & rs & _ & Hrs).
    eexists. eexists. split; [reflexivity|].
    split; [apply enriched_fields_lookup|].
    apply GithubService_is_approved_table.
    eapply review_entries_hashable. eassumption.
  - intros rs entries -> Hrs.
    destruct (GithubService.enriched details (JArr rs) crs) as [record|e] eqn:Ee.
    + apply GithubService_enriched_inv in Ee.
      destruct Ee as (rs' & latest & fields & big & ready & leader & Ee).
      destruct Ee as (Hi & Hl & _ & _ & _ & _ & ->).
      injection Hi as <-.
      rewrite GithubService_latest_reviews_run, Hrs in Hl.
      cbn [rbind] in Hl. injection Hl as <-.
      eexists. eexists. split; [reflexivity|].
      split; [apply enriched_fields_lookup|].
      apply GithubService_is_approved_table.
      eapply review_entries_hashable. eassumption.
    + destruct (GithubService_degraded_fields p)
        as (record & Hd & _ & _ & Ha & _).
      exists record, false. rewrite Hd.
      split; [reflexivity|]. split; [exact Ha|discriminate].
  - intros rs e -> Hrs.
    assert (Ee : GithubService.enriched details (JArr rs) crs = Raise e).
    { unfold GithubService.enriched. cbv zeta. cbn [iter rbind].
      now rewrite GithubService_latest_reviews_run, Hrs. }
    rewrite Ee.
    destruct (GithubService_degraded_fields p)
      as (record & Hd & _ & _ & Ha & _).
    exists record. rewrite Hd. split; [reflexivity|exact Ha].
Qed.

Lemma GitHubClient_approval_joined :
  SpecMore.approval_joined GitHubClient.enrich_pr
    GitHubClient.fetch_pr_details GitHubClient.fetch_pr_reviews
    GitHubClient.fetch_check_runs.
Proof.
  intros repo pr w details reviews crs w3 Hs.
  destruct (GitHubClient_enrich_pr_served _ _ _ _ _ _ _ Hs) as [E (p & ->)].
  rewrite E. split; [|split].
  - intros fields ref entries Hb.
    rewrite (GitHubClient_enriched_built _ _ _ _ _ crs Hb).
    destruct Hb as (_ & _ & _ & rs & _ & Hrs).
    eexists. eexists. split; [reflexivity|].
    split; [apply enriched_fields_lookup|].
    apply GitHubClient_is_approved_table.
    eapply review_entries_hashable. eassumption.
  - intros rs entries -> Hrs.
    destruct (GitHubClient.enriched details (JArr rs) crs) as [record|e] eqn:Ee.
    + apply GitHubClient_enriched_inv in Ee.
      destruct Ee as (rs' & latest & fields & big & ready & leader & Ee).
      destruct Ee as (Hi & Hl & _ & _ & _ & _ & ->).
      injection Hi as <-.
      rewrite GitHubClient_latest_reviews_run, Hrs in Hl.
      cbn [rbind] in Hl. injection Hl as <-.
      eexists. eexists. split; [reflexivity|].
      split; [apply enriched_fields_lookup|].
      apply GitHubClient_is_approved_table.
      eapply review_entries_hashable. eassumption.
    + destruct (GitHubClient_degraded_fields p)
        as (record & Hd & _ & Ha & _).
      exists record, false. rewrite Hd.
      split; [reflexivity|]. split; [exact Ha|discriminate].
  - intros rs e -> Hrs.
    assert (Ee : GitHubClient.enriched details (JArr rs) crs = Raise e).
    { unfold GitHubClient.enriched. cbv zeta. cbn [iter rbind].
      now rewrite GitHubClient_latest_reviews_run, Hrs. }
    rewrite Ee.
    destruct (GitHubClient_degraded_fields p)
      as (record & Hd & _ & Ha & _).
    exists record. rewrite Hd. split; [reflexivity|exact Ha].
Qed.



Lemma approved_by_bob :
  SpecMore.approved [(JStr "bob", JStr "APPROVED")].
Proof.
  split.
  - exists (JStr "bob"), (JStr "APPROVED"). split; reflexivity.
  - intros (login & s & Hl & Hs). cbn [SpecMore.latest_state] in Hl.
    destruct (key_eqb (JStr "bob") login); [|discriminate Hl].
    injection Hl as <-. discriminate Hs.
Qed.


(* ===================================================================== *)
(** ** fetch_check_runs is total                                          *)
(* ===================================================================== *)

Lemma GithubService_project_object (run : pydict) :
  match GithubService.project_run (JObj run) with
  | Ok r => SpecMore.has_run_keys run = true /\ r = SpecMore.projected run
  | Raise _ => SpecMore.has_run_keys run = false
  end.
Proof.
  unfold GithubService.project_run, SpecMore.has_run_keys, SpecMore.projected,
    SpecMore.field.
  cbn [getitem forallb].
  destruct (dict_lookup "name" run); cbn [rbind andb]; [|reflexivity].
  destruct (dict_lookup "status" run); cbn [rbind andb]; [|reflexivity].
  destruct (dict_lookup "conclusion" run); cbn [rbind andb]; [|reflexivity].
  destruct (dict_lookup "html_url" run); cbn [rbind andb]; [|reflexivity].
  now split.
Qed.

Lemma GithubService_project_objects (runs : list pydict) :
  match rmap GithubService.project_run (map JObj runs) with
  | Ok results =>
      forallb SpecMore.has_run_keys runs = true /\
      results = map SpecMore.projected runs
  | Raise _ => forallb SpecMore.has_run_keys runs = false
  end.
Proof.
  induction runs as [|run runs IH]; cbn [map rmap forallb]; [now split|].
  pose proof (GithubService_project_object run) as Hr.
  destruct (GithubService.project_run (JObj run)) as [r|e]; cbn [rbind].
  - destruct Hr as [-> ->]. cbn [andb].
    destruct (rmap GithubService.project_run (map JObj runs)) as [rs|e];
      cbn [rbind]; [|exact IH].
    destruct IH as [-> ->]. now split.
  - now rewrite Hr.
Qed.

Lemma GitHubClient_project_objects (runs : list pydict) :
  rmap GitHubClient.project_run (map JObj runs)
  = Ok (map SpecMore.projected runs).
Proof.
  induction runs as [|run runs IH]; cbn [map rmap]; [reflexivity|].
  rewrite IH. reflexivity.
Qed.

Lemma forallb_always {A} (l : list A) : forallb (fun _ => true) l = true.
Proof. induction l; simpl; auto. Qed.

Lemma GithubService_total_check_runs :
  SpecMore.total_check_runs GithubService.fetch_check_runs
    (fun repo ref => GithubService._request (CheckRuns repo ref) GET false)
    SpecMore.has_run_keys.
Proof.
  intros repo ref w. eexists.
  split; [apply GithubService_fetch_check_runs_run|].
  cbv zeta. repeat split.
  - now intros e ->.
  - intros data -> H. apply GithubService_check_results_ill_shaped in H.
    now destruct (GithubService.check_results_of data).
  - intros o runs -> Ho.
    unfold GithubService.check_results_of. cbn [getitem]. rewrite Ho.
    cbn [rbind iter].
    pose proof (GithubService_project_objects runs) as Hp.
    destruct (rmap GithubService.project_run (map JObj runs)) as [rs|e].
    + destruct Hp as [-> ->]. reflexivity.
    + now rewrite Hp.
Qed.

Lemma GitHubClient_total_check_runs :
  SpecMore.total_check_runs GitHubClient.fetch_check_runs
    (fun repo ref => GitHubClient._request GET (CheckRuns repo ref) false)
    (fun _ => true).
Proof.
  intros repo ref w. eexists.
  split; [apply GitHubClient_fetch_check_runs_run|].
  cbv zeta. repeat split.
  - now intros e ->.
  - intros data -> H. apply GitHubClient_check_results_ill_shaped in H.
    now destruct (GitHubClient.check_results_of data).
  - intros o runs -> Ho.
    unfold GitHubClient.check_results_of. cbn [get]. rewrite Ho.
    cbn [rbind iter].
    now rewrite GitHubClient_project_objects, forallb_always.
Qed.

Lemma GithubService_check_failure_absorbed :
  SpecMore.check_failure_absorbed GithubService.enrich_pr
    GithubService.fetch_pr_details GithubService.fetch_pr_reviews
    (fun repo sha => GithubService._request (CheckRuns repo sha) GET false).
Proof.
  intros repo pr w number head sha details w1 reviews w2 fields ref entries
    Hn Hh Hs Hd Hr Hu Hb.
  assert (Hf : GithubService.fetch_check_runs repo sha w2
               = (Ok [], snd (GithubService._request (CheckRuns repo sha)
                                GET false w2))).
  { rewrite GithubService_fetch_check_runs_run. cbv zeta.
    destruct (fst (GithubService._request (CheckRuns repo sha) GET false w2))
      as [data|e]; [|reflexivity].
    apply GithubService_check_results_ill_shaped in Hu.
    destruct (GithubService.check_results_of data); [now subst|reflexivity]. }
  assert (Hserved : SpecMore.served GithubService.fetch_pr_details
                      GithubService.fetch_pr_reviews
                      GithubService.fetch_check_runs repo pr w details reviews
                      [] (snd (GithubService._request (CheckRuns repo sha)
                                 GET false w2))).
  { exists number, head, sha, w1, w2. repeat split; assumption. }
  destruct (GithubService_enrich_pr_served _ _ _ _ _ _ _ Hserved) as [E _].
  rewrite E, (GithubService_enriched_built _ _ _ _ _ [] Hb).
  destruct Hb as (_ & _ & _ & rs & _ & Hrs).
  eexists. eexists. split; [reflexivity|].
  split; [apply enriched_fields_lookup|].
  split; [apply enriched_fields_lookup|].
  split; [apply enriched_fields_lookup|].
  split.
  { apply GithubService_is_approved_table.
    eapply review_entries_hashable. eassumption. }
  split; [apply enriched_fields_lookup|].
  split; apply enriched_fields_lookup.
Qed.

Lemma GitHubClient_check_failure_absorbed :
  SpecMore.check_failure_absorbed GitHubClient.enrich_pr
    GitHubClient.fetch_pr_details GitHubClient.fetch_pr_reviews
    (fun repo sha => GitHubClient._request GET (CheckRuns repo sha) false).
Proof.
  intros repo pr w number head sha details w1 reviews w2 fields ref entries
    Hn Hh Hs Hd Hr Hu Hb.
  assert (Hf : GitHubClient.fetch_check_runs repo sha w2
               = (Ok [], snd (GitHubClient._request GET (CheckRuns repo sha)
                                false w2))).
  { rewrite GitHubClient_fetch_check_runs_run. cbv zeta.
    destruct (fst (GitHubClient._request GET (CheckRuns repo sha) false w2))
      as [data|e]; [|reflexivity].
    apply GitHubClient_check_results_ill_shaped in Hu.
    destruct (GitHubClient.check_results_of data); [now subst|reflexivity]. }
  assert (Hserved : SpecMore.served GitHubClient.fetch_pr_details
                      GitHubClient.fetch_pr_reviews
                      GitHubClient.fetch_check_runs repo pr w details reviews
                      [] (snd (GitHubClient._request GET (CheckRuns repo sha)
                                 false w2))).
  { exists number, head, sha, w1, w2. repeat split; assumption. }
  destruct (GitHubClient_enrich_pr_served _ _ _ _ _ _ _ Hserved) as [E _].
  rewrite E, (GitHubClient_enriched_built _ _ _ _ _ [] Hb).
  destruct Hb as (_ & _ & _ & rs & _ & Hrs).
  eexists. eexists. split; [reflexivity|].
  split; [apply enriched_fields_lookup|].
  split; [apply enriched_fields_lookup|].
  split; [apply enriched_fields_lookup|].
  split.
  { apply GitHubClient_is_approved_table.
    eapply review_entries_hashable. eassumption. }
  split; [apply enriched_fields_lookup|].
  split; apply enriched_fields_lookup.
Qed.

(** C10. [fetch_check_runs] never raises in either service and sends one
    request.  It returns the empty list when the request fails or the
    response is not an object with a list of objects under [check_runs].
    Of a list of run objects, whatever other keys they carry, it returns
    the four values [name], [status], [conclusion] and [html_url] (as
    [url]) of each, in order; GitHubClient fills a missing key with None,
    GithubService answers a run with a missing key with the empty list.
    Hence a check-run request of no use does not degrade a pull request
    whose record can be built: the record has [checkResults = []],
    [testStatus = 'unknown'] and the four other derived fields as the
    detail and the reviews give them. *)
Theorem fetch_check_runs_total :
  SpecMore.total_check_runs GithubService.fetch_check_runs
    (fun repo ref => GithubService._request (CheckRuns repo ref) GET false)
    SpecMore.has_run_keys /\
  SpecMore.total_check_runs GitHubClient.fetch_check_runs
    (fun repo ref => GitHubClient._request GET (CheckRuns repo ref) false)
    (fun _ => true) /\
  SpecMore.check_failure_absorbed GithubService.enrich_pr
    GithubService.fetch_pr_details GithubService.fetch_pr_reviews
    (fun repo sha => GithubService._request (CheckRuns repo sha) GET false) /\
  SpecMore.check_failure_absorbed GitHubClient.enrich_pr
    GitHubClient.fetch_pr_details GitHubClient.fetch_pr_reviews
    (fun repo sha => GitHubClient._request GET (CheckRuns repo sha) false).
Proof.
  split; [exact GithubService_total_check_runs|].
  split; [exact GitHubClient_total_check_runs|].
  split; [exact GithubService_check_failure_absorbed|].
  exact GitHubClient_check_failure_absorbed.
Qed.

Lemma fetch_check_runs_total_witness :
  (exists record w3,
      GithubService.enrich_pr "o/r" Scenario.pull_request
        Scenario.checks_down_world = (Ok record, w3) /\
      getitem record "checkResults" = Ok (JArr []) /\
      getitem record "testStatus" = Ok (JStr "unknown") /\
      getitem record "isBig" = Ok (JBool true)) /\
  (exists record w3,
      GitHubClient.enrich_pr "o/r" Scenario.pull_request
        Scenario.checks_down_world = (Ok record, w3) /\
      getitem record "checkResults" = Ok (JArr []) /\
      getitem record "testStatus" = Ok (JStr "unknown") /\
      getitem record "isBig" = Ok (JBool true)) /\
  fst (GithubService.fetch_check_runs "o/r" (JStr "abc")
         ScenarioMore.listed_runs_world)
  = Ok [mkCheckResult (JStr "ci") (JStr "completed") (JStr "success")
          (JStr "https://web/runs/7")] /\
  fst (GitHubClient.fetch_check_runs "o/r" (JStr "abc")
         ScenarioMore.listed_runs_world)
  = Ok [mkCheckResult (JStr "ci") (JStr "completed") (JStr "success")
          (JStr "https://web/runs/7")].
Proof.
  destruct fetch_check_runs_total as (Hts & Htc & Has & Hac).
  split; [|split; [|split]].
  - edestruct (Has "o/r" Scenario.pull_request Scenario.checks_down_world)
      with (fields := [("number", JNum 42);
                       ("head", JObj [("sha", JStr "abc")]);
                       ("base", JObj [("ref", JStr "main")]);
                       ("mergeable", JBool true);
                       ("changed_files", JNum 20)])
           (ref := "main") (entries := [(JStr "bob", JStr "APPROVED")])
      as (record & b & E & Hc & Ht & _ & _ & Hbig & _);
      try reflexivity; try exact I.
    { split; [reflexivity|]. split; [reflexivity|]. split; [exact I|].
      eexists. split; reflexivity. }
    exists record. eexists. split; [exact E|].
    split; [exact Hc|]. split; [exact Ht|exact Hbig].
  - edestruct (Hac "o/r" Scenario.pull_request Scenario.checks_down_world)
      with (fields := [("number", JNum 42);
                       ("head", JObj [("sha", JStr "abc")]);
                       ("base", JObj [("ref", JStr "main")]);
                       ("mergeable", JBool true);
                       ("changed_files", JNum 20)])
           (ref := "main") (entries := [(JStr "bob", JStr "APPROVED")])
      as (record & b & E & Hc & Ht & _ & _ & Hbig & _);
      try reflexivity; try exact I.
    { split; [reflexivity|]. split; [reflexivity|]. split; [exact I|].
      eexists. split; reflexivity. }
    exists record. eexists. split; [exact E|].
    split; [exact Hc|]. split; [exact Ht|exact Hbig].
  - destruct (Hts "o/r" (JStr "abc") ScenarioMore.listed_runs_world)
      as (results & E & _ & _ & Hp).
    rewrite E. cbn [fst]. f_equal.
    exact (Hp _ [ScenarioMore.listed_run] eq_refl eq_refl).
  - destruct (Htc "o/r" (JStr "abc") ScenarioMore.listed_runs_world)
      as (results & E & _ & _ & Hp).
    rewrite E. cbn [fst]. f_equal.
    exact (Hp _ [ScenarioMore.listed_run] eq_refl eq_refl).
Defined.

Set Implicit Arguments.

(* ===================================================================== *)
(** ** The repository context                                             *)
(* ===================================================================== *)

(** Whatever was fetched, GitHubClient's snippets are strings of at most
    1500 characters. *)
Lemma GitHubClient_snippet_bounded (future : result json) :
  exists t,
    GitHubClient.snippet (GitHubClient.text_or_empty future) = Ok (JStr t) /\
    (char_length t <= 1500)%nat.
Proof.
  unfold GitHubClient.snippet, GitHubClient.text_or_empty.
  destruct future as [[| | |s| |]|e]; cbn [isinstance_str slice_to rbind];
    try (exists ""; split; [reflexivity|simpl; lia]).
  exists (take_chars 1500 s). split; [reflexivity|].
  apply take_chars_length.
Qed.

(** GithubService's snippets are bounded when the content is a string and
    empty when it is None. *)
Lemma GithubService_snippet_bounded (content : json) :
  match content with
  | JStr _ | JNull =>
      exists t,
        GithubService.snippet (por content (JStr "")) = Ok (JStr t) /\
        (char_length t <= 1500)%nat
  | _ => True
  end.
Proof.
  destruct content as [| | |s| |]; try exact I.
  - exists "". split; [reflexivity|simpl; lia].
  - unfold GithubService.snippet, por.
    destruct s as [|c s]; cbn [truthy negb String.eqb slice_to rbind].
    + exists "". split; [reflexivity|simpl; lia].
    + eexists. split; [reflexivity|].
      apply (take_chars_length 1500 (String c s)).
Qed.

(** C8. GithubService's collector raises when README.md is an empty file:
    the content object is returned undecoded and then sliced.
    GitHubClient's collector answers a failed root listing with an empty
    [fileList], not with ['unknown'].  Each service does on the other's
    input what the specification says. *)
Theorem repo_context_fallbacks_differ :
  forall b64decode_utf8,
    fst (GithubService.fetch_repo_content b64decode_utf8 "o/r" "README.md"
           Scenario.empty_readme_world) = Ok Scenario.empty_readme /\
    (exists e,
        fst (GithubService.fetch_core_repo_context b64decode_utf8 "o/r"
               Scenario.empty_readme_world) = Raise e) /\
    fst (GitHubClient.fetch_core_repo_context b64decode_utf8 "o/r"
           Scenario.empty_readme_world)
    = Ok (mkRepoContext "README.md, src"
            match b64decode_utf8 "" with
            | Some readme => JStr (take_chars 1500 readme)
            | None => JStr ""
            end (JStr "") false) /\
    fst (GitHubClient.fetch_core_repo_context b64decode_utf8 "o/r"
           Scenario.root_down_world)
    = Ok (mkRepoContext "" (JStr "") (JStr "") false) /\
    fst (GithubService.fetch_core_repo_context b64decode_utf8 "o/r"
           Scenario.root_down_world)
    = Ok (mkRepoContext "unknown" (JStr "") (JStr "") false).
Proof.
  intros b64decode_utf8. repeat split; try reflexivity.
  - eexists. reflexivity.
  - cbv. destruct (b64decode_utf8 ""); reflexivity.
Qed.

(* ===================================================================== *)
(** ** Isolation of the items of a batch                                  *)
(* ===================================================================== *)

Section Oblivious.

Import Spec.

Lemma oblivious_ret {A} (a : A) : oblivious (ret a).
Proof. intros w. split; [reflexivity|]. now intros _ w' _. Qed.

Lemma oblivious_raise {A} (e : exn) : oblivious (@raise A e).
Proof. intros w. split; [reflexivity|]. now intros _ w' _. Qed.

Lemma oblivious_lift {A} (r : result A) : oblivious (lift r).
Proof. intros w. split; [reflexivity|]. now intros _ w' _. Qed.

Lemma oblivious_time_sleep secs : oblivious (time_sleep secs).
Proof. intros w. split; [reflexivity|]. now intros _ w' _. Qed.

Lemma oblivious_requests_request rq : oblivious (requests_request rq).
Proof.
  intros w. unfold requests_request. split.
  - now destruct (net w (calls w) rq).
  - intros Hs w' Hnet. rewrite Hnet, (Hs (calls w') (calls w) rq).
    now destruct (net w (calls w) rq).
Qed.

Lemma oblivious_bind {A B} (m : M A) (k : A -> M B) :
  oblivious m -> (forall a, oblivious (k a)) -> oblivious (bind m k).
Proof.
  intros Hm Hk w. unfold bind.
  destruct (Hm w) as [Hnet Hsame].
  destruct (m w) as [[a|e] w1] eqn:Ew; cbn [fst snd] in *.
  - destruct (Hk a w1) as [Hnet1 Hsame1]. split; [congruence|].
    intros Hs w' Hw'.
    specialize (Hsame Hs w' Hw'). destruct (Hm w') as [Hnet' _].
    destruct (m w') as [r' w1']; cbn [fst snd] in *. subst r'.
    apply Hsame1; [now rewrite Hnet|congruence].
  - split; [assumption|].
    intros Hs w' Hw'. specialize (Hsame Hs w' Hw').
    destruct (m w') as [r' w1']; cbn [fst snd] in *. now subst r'.
Qed.

Lemma oblivious_try_except {A} (body : M A) (handler : exn -> M A) :
  oblivious body -> (forall e, oblivious (handler e)) ->
  oblivious (try_except body handler).
Proof.
  intros Hm Hk w. unfold try_except.
  destruct (Hm w) as [Hnet Hsame].
  destruct (body w) as [[a|e] w1] eqn:Ew; cbn [fst snd] in *.
  - split; [assumption|].
    intros Hs w' Hw'. specialize (Hsame Hs w' Hw').
    destruct (body w') as [r' w1']; cbn [fst snd] in *. now subst r'.
  - destruct (Hk e w1) as [Hnet1 Hsame1]. split; [congruence|].
    intros Hs w' Hw'.
    specialize (Hsame Hs w' Hw'). destruct (Hm w') as [Hnet' _].
    destruct (body w') as [r' w1']; cbn [fst snd] in *. subst r'.
    apply Hsame1; [now rewrite Hnet|congruence].
Qed.

Lemma oblivious_for_each {A B} (f : A -> M B) (l : list A) :
  (forall x, oblivious (f x)) -> oblivious (for_each f l).
Proof.
  intros Hf. induction l as [|x l IH]; simpl.
  - apply oblivious_ret.
  - apply oblivious_bind; [apply Hf|]. intros y.
    apply oblivious_bind; [apply IH|]. intros ys. apply oblivious_ret.
Qed.

Lemma oblivious_submit {A} (task : M A) :
  oblivious task -> oblivious (GitHubClient.submit task).
Proof.
  intros H w. unfold GitHubClient.submit.
  destruct (H w) as [Hnet Hsame].
  destruct (task w) as [r w1] eqn:Ew; cbn [fst snd] in *.
  split; [assumption|].
  intros Hs w' Hw'. specialize (Hsame Hs w' Hw').
  destruct (task w') as [r' w1']; cbn [fst snd] in *. now subst r'.
Qed.

(** A loop over oblivious bodies yields, item by item, what each body
    yields when it is run alone. *)
Lemma for_each_alone {A B} (f : A -> M B) (l : list A) w :
  (forall x, oblivious (f x)) -> stateless (net w) ->
  fst (for_each f l w) = rmap (fun x => fst (f x w)) l.
Proof.
  intros Hf Hs. revert w Hs.
  induction l as [|x l IH]; intros w Hs; simpl; [reflexivity|].
  unfold bind at 1.
  destruct (Hf x w) as [Hnet _].
  destruct (f x w) as [[y|e] w1] eqn:Ex; cbn [fst snd] in *; [|reflexivity].
  unfold bind at 1.
  assert (Hs1 : stateless (net w1)) by now rewrite Hnet.
  specialize (IH w1 Hs1).
  assert (Hsame : rmap (fun x0 => fst (f x0 w1)) l
                  = rmap (fun x0 => fst (f x0 w)) l).
  { clear IH. induction l as [|z l IHl]; simpl; [reflexivity|].
    destruct (Hf z w) as [_ Hz]. rewrite (Hz Hs w1 Hnet).
    now rewrite IHl. }
  rewrite <- Hsame, <- IH.
  now destruct (for_each f l w1) as [[ys|e] w2].
Qed.

End Oblivious.

Create HintDb oblivious.
#[local] Hint Resolve oblivious_ret oblivious_raise oblivious_lift
  oblivious_time_sleep oblivious_requests_request oblivious_submit : oblivious.
#[local] Hint Extern 2 (Spec.oblivious (bind _ _)) =>
  apply oblivious_bind; [|intro] : oblivious.
#[local] Hint Extern 2 (Spec.oblivious (try_except _ _)) =>
  apply oblivious_try_except; [|intro] : oblivious.

Lemma GithubService_enrich_pr_oblivious repo pr :
  Spec.oblivious (GithubService.enrich_pr repo pr).
Proof.
  unfold GithubService.enrich_pr, GithubService.fetch_pr_details,
    GithubService.fetch_pr_reviews, GithubService.fetch_check_runs,
    GithubService._request.
  auto 20 with oblivious.
Qed.

Lemma GitHubClient_retry_loop_oblivious retries rq :
  Spec.oblivious (GitHubClient.retry_loop retries rq).
Proof.
  induction retries as [|r IH]; simpl; unfold GitHubClient.attempt;
    auto 10 with oblivious.
Qed.

Lemma GitHubClient_enrich_pr_oblivious repo pr :
  Spec.oblivious (GitHubClient.enrich_pr repo pr).
Proof.
  pose proof GitHubClient_retry_loop_oblivious.
  unfold GitHubClient.enrich_pr, GitHubClient.fetch_pr_details,
    GitHubClient.fetch_pr_reviews, GitHubClient.fetch_check_runs,
    GitHubClient._request, GitHubClient.future_result.
  auto 30 with oblivious.
Qed.

(** Against a stateless provider the record of a pull request does not
    depend on the rest of the batch: removing one pull request removes its
    record and leaves the other records as they were. *)
Lemma GithubService_enrichment_isolated repo (before after : list pydict)
    (pr : pydict) w :
  Spec.stateless (net w) ->
  exists records_before record records_after,
    fst (for_each (GithubService.enrich_pr repo)
           (map JObj (before ++ pr :: after)) w)
    = Ok (records_before ++ record :: records_after) /\
    fst (for_each (GithubService.enrich_pr repo)
           (map JObj (before ++ after)) w)
    = Ok (records_before ++ records_after) /\
    fst (GithubService.enrich_pr repo (JObj pr) w) = Ok record /\
    List.length records_before = List.length before.
Proof.
  intros Hs.
  assert (Hall : forall l : list pydict,
             exists rs, rmap (fun x => fst (GithubService.enrich_pr repo x w))
                          (map JObj l) = Ok rs /\
                        List.length rs = List.length l).
  { induction l as [|x l (rs & Hrs & Hlen)]; simpl; [now exists []|].
    destruct (GithubService_enrich_pr_total repo x w) as (r & ->).
    simpl. rewrite Hrs. simpl. exists (r :: rs). simpl. now rewrite Hlen. }
  assert (Happ : forall (l1 l2 : list json) r1 r2,
             rmap (fun x => fst (GithubService.enrich_pr repo x w)) l1 = Ok r1 ->
             rmap (fun x => fst (GithubService.enrich_pr repo x w)) l2 = Ok r2 ->
             rmap (fun x => fst (GithubService.enrich_pr repo x w)) (l1 ++ l2)
             = Ok (r1 ++ r2)).
  { induction l1 as [|x l1 IH]; intros l2 r1 r2 H1 H2; simpl in *.
    - now injection H1 as <-.
    - destruct (fst (GithubService.enrich_pr repo x w)) as [y|e]; [|discriminate].
      simpl in *.
      destruct (rmap _ l1) as [ys|e] eqn:E1; [|discriminate].
      simpl in H1. injection H1 as <-.
      rewrite (IH l2 ys r2 eq_refl H2). reflexivity. }
  destruct (Hall before) as (rb & Hb & Hlb).
  destruct (Hall after) as (ra & Ha & _).
  destruct (GithubService_enrich_pr_total repo pr w) as (r & Hr).
  exists rb, r, ra.
  rewrite !for_each_alone
    by (assumption || intros; apply GithubService_enrich_pr_oblivious).
  rewrite !map_app. simpl map.
  repeat split; try assumption.
  - apply Happ; [assumption|]. rewrite rmap_cons, Hr.
    unfold pydict in *. now rewrite Ha.
  - now apply Happ.
Qed.

(* ===================================================================== *)
(** ** Further properties of the enrichment                               *)
(* ===================================================================== *)

Unset Implicit Arguments.

Lemma is_derived_key_false (k : string) :
  SpecMore.is_derived_key k = false ->
  forall kv,
    In kv (enriched_fields "" [] false false false false) ->
    String.eqb k (fst kv) = false.
Proof.
  unfold SpecMore.is_derived_key, SpecMore.derived_keys. simpl. intros Hk.
  repeat (apply orb_false_iff in Hk; destruct Hk as [? Hk]).
  intros kv Hin.
  repeat (destruct Hin as [<-|Hin]; [assumption|]). destruct Hin.
Qed.

Lemma enriched_fields_keys status crs approved big ready leader :
  map fst (enriched_fields status crs approved big ready leader)
  = SpecMore.derived_keys.
Proof. reflexivity. Qed.

Lemma dict_lookup_enriched_other k fields status crs approved big ready leader :
  SpecMore.is_derived_key k = false ->
  dict_lookup k (dict_update fields
                   (enriched_fields status crs approved big ready leader))
  = dict_lookup k fields.
Proof.
  intros Hk. apply dict_lookup_update_other.
  intros kv Hin. apply (in_map fst) in Hin.
  rewrite enriched_fields_keys in Hin.
  unfold SpecMore.is_derived_key in Hk.
  destruct (String.eqb k (fst kv)) eqn:E; [|reflexivity].
  assert (existsb (String.eqb k) SpecMore.derived_keys = true).
  { apply existsb_exists. exists (fst kv). now split. }
  congruence.
Qed.

(** X1. The record of a successful enrichment is the detail record with
    the six derived keys laid over it: every other key reads as in the
    detail record, and [checkResults] holds the fetched check-runs in
    order. *)
Theorem enriched_record_overlays_detail :
  forall details reviews crs record,
    GithubService.enriched details reviews crs = Ok record \/
    GitHubClient.enriched details reviews crs = Ok record ->
    (forall k, SpecMore.is_derived_key k = false ->
               getitem record k = getitem details k) /\
    getitem record "checkResults" = Ok (JArr (map check_json crs)).
Proof.
  intros details reviews crs record H.
  assert (Hshape : exists fields status approved big ready leader,
             details = JObj fields /\
             record = JObj (dict_update fields
                        (enriched_fields status crs approved big ready leader))).
  { destruct H as [H|H].
    - apply GithubService_enriched_inv in H.
      destruct H as (rs & latest & fields & big & ready & leader & H).
      destruct H as (_ & _ & -> & _ & _ & _ & ->). repeat eexists.
    - apply GitHubClient_enriched_inv in H.
      destruct H as (rs & latest & fields & big & ready & leader & H).
      destruct H as (_ & _ & -> & _ & _ & _ & ->). repeat eexists. }
  destruct Hshape as (fields & status & approved & big & ready & leader & -> & ->).
  split.
  - intros k Hk. unfold getitem.
    now rewrite dict_lookup_enriched_other.
  - apply enriched_fields_lookup.
Qed.

Lemma enriched_record_overlays_detail_witness :
  getitem Scenario.record "number" = getitem Scenario.details "number".
Proof.
  exact (proj1 (enriched_record_overlays_detail Scenario.details
                  Scenario.reviews Scenario.checks Scenario.record
                  (or_introl eq_refl)) "number" eq_refl).
Defined.

(** X2. In the record of a successful enrichment [isReadyToMerge] is true
    exactly when the detail's [mergeable] is the JSON value true (absent,
    null, numbers and strings all give false), and [isLeaderBranch] is
    true exactly when the lower-cased base ref is leader, main, master or
    develop. *)
Theorem enriched_merge_and_branch_flags :
  forall fields reviews crs record,
    GithubService.enriched (JObj fields) reviews crs = Ok record \/
    GitHubClient.enriched (JObj fields) reviews crs = Ok record ->
    getitem record "isReadyToMerge"
    = Ok (JBool match dict_lookup "mergeable" fields with
                | Some (JBool true) => true
                | _ => false
                end) /\
    exists base ref,
      dict_lookup "base" fields = Some base /\
      getitem base "ref" = Ok (JStr ref) /\
      getitem record "isLeaderBranch"
      = Ok (JBool (existsb (String.eqb (lower_string ref)) SpecMore.leader_names)).
Proof.
  intros fields reviews crs record H.
  assert (Hshape : exists status approved big ready leader,
             GithubService.is_ready_to_merge (JObj fields) = Ok ready /\
             GithubService.is_leader_branch (JObj fields) = Ok leader /\
             record = JObj (dict_update fields
                        (enriched_fields status crs approved big ready leader))).
  { destruct H as [H|H].
    - apply GithubService_enriched_inv in H.
      destruct H as (rs & latest & fields' & big & ready & leader & H).
      destruct H as (_ & _ & Hf & _ & Hr & Hl & ->).
      injection Hf as <-. do 5 eexists.
      split; [eassumption|]. split; [eassumption|reflexivity].
    - apply GitHubClient_enriched_inv in H.
      destruct H as (rs & latest & fields' & big & ready & leader & H).
      destruct H as (_ & _ & Hf & _ & Hr & Hl & ->).
      injection Hf as <-. do 5 eexists.
      split; [eassumption|]. split; [eassumption|reflexivity]. }
  destruct Hshape as (status & approved & big & ready & leader & Hr & Hl & ->).
  destruct (enriched_fields_lookup fields status crs approved big ready leader)
    as (_ & _ & _ & _ & Hready & Hleader).
  cbv zeta in Hready, Hleader. rewrite Hready, Hleader. split.
  - unfold GithubService.is_ready_to_merge, get in Hr. simpl in Hr.
    injection Hr as <-.
    now destruct (dict_lookup "mergeable" fields) as [[|[|]| | | |]|].
  - unfold GithubService.is_leader_branch, getitem in Hl.
    destruct (dict_lookup "base" fields) as [base|]; [|discriminate].
    simpl in Hl. exists base.
    destruct base as [| | | | |o]; try discriminate.
    destruct (dict_lookup "ref" o) as [ref|] eqn:Eref; [|discriminate].
    simpl in Hl. destruct ref as [| | |s| |]; try discriminate.
    simpl in Hl. injection Hl as <-.
    exists s. repeat split. simpl. now rewrite Eref.
Qed.

Lemma enriched_merge_and_branch_flags_witness :
  getitem Scenario.record "isReadyToMerge" = Ok (JBool true).
Proof.
  exact (proj1 (enriched_merge_and_branch_flags
                  [("number", JNum 42); ("head", JObj [("sha", JStr "abc")]);
                   ("base", JObj [("ref", JStr "main")]);
                   ("mergeable", JBool true); ("changed_files", JNum 20)]
                  Scenario.reviews Scenario.checks Scenario.record
                  (or_introl eq_refl))).
Defined.

Lemma is_leader_branch_raises details :
  SpecMore.lacks_base_ref details JNull ->
  exists e, GithubService.is_leader_branch details = Raise e.
Proof.
  unfold SpecMore.lacks_base_ref, SpecMore.base_ref, GithubService.is_leader_branch.
  intros H.
  destruct (getitem details "base") as [base|e]; simpl in *; [|eauto].
  destruct (getitem base "ref") as [ref|e]; simpl in *; [|eauto].
  destruct ref; simpl; eauto. now contradiction (H s).
Qed.

Lemma GithubService_enriched_raises_leader details reviews crs e :
  GithubService.is_leader_branch details = Raise e ->
  exists e', GithubService.enriched details reviews crs = Raise e'.
Proof.
  intros H. unfold GithubService.enriched. cbv zeta.
  destruct (iter reviews) as [rs|]; cbn [rbind]; [|eauto].
  destruct (GithubService.latest_reviews rs []); cbn [rbind]; [|eauto].
  destruct (mapping details TypeError); cbn [rbind]; [|eauto].
  destruct (GithubService.is_big details); cbn [rbind]; [|eauto].
  destruct (GithubService.is_ready_to_merge details); cbn [rbind]; [|eauto].
  rewrite H. cbn [rbind]. eauto.
Qed.

Lemma GitHubClient_enriched_raises_leader details reviews crs e :
  GitHubClient.is_leader_branch details = Raise e ->
  exists e', GitHubClient.enriched details reviews crs = Raise e'.
Proof.
  intros H. unfold GitHubClient.enriched. cbv zeta.
  destruct (iter reviews) as [rs|]; cbn [rbind]; [|eauto].
  destruct (GitHubClient.latest_reviews rs []); cbn [rbind]; [|eauto].
  destruct (mapping details TypeError); cbn [rbind]; [|eauto].
  destruct (GitHubClient.is_big details); cbn [rbind]; [|eauto].
  destruct (GitHubClient.is_ready_to_merge details); cbn [rbind]; [|eauto].
  rewrite H. cbn [rbind]. eauto.
Qed.

(** X3. A detail record without a string [base.ref] degrades the pull
    request in both services although its three fetches succeeded: the
    lookup for [isLeaderBranch] raises inside the [try]. *)
Theorem enrichment_degrades_without_base_ref :
  SpecMore.degrades_when GithubService.enrich_pr
    GithubService.fetch_pr_details GithubService.fetch_pr_reviews
    GithubService.fetch_check_runs GithubService.degraded
    SpecMore.lacks_base_ref /\
  SpecMore.degrades_when GitHubClient.enrich_pr
    GitHubClient.fetch_pr_details GitHubClient.fetch_pr_reviews
    GitHubClient.fetch_check_runs GitHubClient.degraded
    SpecMore.lacks_base_ref.
Proof.
  split; intros repo pr w number head sha details w1 reviews w2 crs w3
    Hn Hh Hs Hd Hr Hc Hu;
    destruct (is_leader_branch_raises details Hu) as (e & He).
  - rewrite (@GithubService_enrich_pr_joined repo pr w number head sha details
               w1 reviews w2 crs w3 Hn Hh Hs Hd Hr Hc).
    destruct (GithubService_enriched_raises_leader details reviews crs e He)
      as (e' & ->). reflexivity.
  - rewrite (@GitHubClient_enrich_pr_joined repo pr w number head sha details
               w1 reviews w2 crs w3 Hn Hh Hs Hd Hr Hc).
    destruct (GitHubClient_enriched_raises_leader details reviews crs e He)
      as (e' & ->). reflexivity.
Qed.

Lemma enrichment_degrades_without_base_ref_witness :
  exists w3,
    GithubService.enrich_pr "o/r" Scenario.pull_request ScenarioMore.no_base_world
    = (GithubService.degraded Scenario.pull_request, w3).
Proof.
  pose proof (proj1 enrichment_degrades_without_base_ref) as H.
  unfold SpecMore.degrades_when in H.
  eexists. eapply H with (crs := Scenario.checks); try reflexivity.
  intros ref. discriminate.
Defined.

Lemma latest_reviews_unreadable rs r e :
  In r rs -> SpecMore.review_entry r = Raise e ->
  forall table, exists e', GithubService.latest_reviews rs table = Raise e'.
Proof.
  intros Hin Hr. induction rs as [|x rs IH]; [destruct Hin|].
  intros table. simpl.
  destruct (getitem x "state") as [state|] eqn:Es; cbn [rbind]; [|eauto].
  destruct (getitem x "user") as [user|] eqn:Eu; cbn [rbind]; [|eauto].
  destruct (getitem user "login") as [login|] eqn:El; cbn [rbind]; [|eauto].
  unfold setitem. destruct (hashable login) eqn:Eh; cbn [rbind]; [|eauto].
  destruct Hin as [->|Hin]; [|now apply IH].
  unfold SpecMore.review_entry in Hr.
  rewrite Es in Hr; cbn [rbind] in Hr. rewrite Eu in Hr; cbn [rbind] in Hr.
  rewrite El in Hr; cbn [rbind] in Hr. rewrite Eh in Hr. discriminate.
Qed.

(** X4. A review that cannot be read (no [state], no [user.login] as for
    a null user, or a login that is not hashable) degrades the pull
    request in both services although its three fetches succeeded. *)
Theorem enrichment_degrades_on_unreadable_review :
  SpecMore.degrades_when GithubService.enrich_pr
    GithubService.fetch_pr_details GithubService.fetch_pr_reviews
    GithubService.fetch_check_runs GithubService.degraded
    SpecMore.has_unreadable_review /\
  SpecMore.degrades_when GitHubClient.enrich_pr
    GitHubClient.fetch_pr_details GitHubClient.fetch_pr_reviews
    GitHubClient.fetch_check_runs GitHubClient.degraded
    SpecMore.has_unreadable_review.
Proof.
  split; intros repo pr w number head sha details w1 reviews w2 crs w3
    Hn Hh Hs Hd Hr Hc (rs & r & e & Hrs & Hin & He);
    destruct (latest_reviews_unreadable rs r e Hin He []) as (e' & Hl).
  - rewrite (@GithubService_enrich_pr_joined repo pr w number head sha details
               w1 reviews w2 crs w3 Hn Hh Hs Hd Hr Hc).
    unfold GithubService.enriched. cbv zeta. rewrite Hrs. cbn [rbind].
    rewrite Hl. reflexivity.
  - rewrite (@GitHubClient_enrich_pr_joined repo pr w number head sha details
               w1 reviews w2 crs w3 Hn Hh Hs Hd Hr Hc).
    unfold GitHubClient.enriched. cbv zeta. rewrite Hrs. cbn [rbind].
    change (GitHubClient.latest_reviews rs [])
      with (GithubService.latest_reviews rs []).
    rewrite Hl. reflexivity.
Qed.

Lemma enrichment_degrades_on_unreadable_review_witness :
  exists w3,
    GithubService.enrich_pr "o/r" Scenario.pull_request
      ScenarioMore.ghost_review_world
    = (GithubService.degraded Scenario.pull_request, w3).
Proof.
  pose proof (proj1 enrichment_degrades_on_unreadable_review) as H.
  unfold SpecMore.degrades_when in H.
  eexists. eapply H with (crs := Scenario.checks); try reflexivity.
  exists [Spec.review_json ("bob", "APPROVED"); ScenarioMore.ghost_review],
    ScenarioMore.ghost_review, TypeError.
  repeat split. right; now left.
Defined.

Lemma GithubService_request_run endpoint method is_text w :
  GithubService._request endpoint method is_text w
  = (match net w (calls w) (mkRequest method endpoint is_text) with
     | Reply response => GithubService.read_response method is_text response
     | Failed e => Raise e
     end,
     mkWorld (net w) (S (calls w))
       (trace w ++ [Sent (mkRequest method endpoint is_text)])).
Proof.
  unfold GithubService._request, bind, requests_request, lift.
  now destruct (net w (calls w) (mkRequest method endpoint is_text)).
Qed.

(** X5. A list entry without [number] is answered with the fallback
    record before anything is sent; one without [head.sha] is answered
    with the fallback record and no check-runs request is ever sent for
    it. *)
Theorem enrichment_of_incomplete_entry :
  (forall repo pr w e,
      getitem pr "number" = Raise e ->
      GithubService.enrich_pr repo pr w = (GithubService.degraded pr, w) /\
      GitHubClient.enrich_pr repo pr w = (GitHubClient.degraded pr, w)) /\
  (forall repo pr w e,
      SpecMore.head_sha pr = Raise e ->
      fst (GithubService.enrich_pr repo pr w) = GithubService.degraded pr /\
      fst (GitHubClient.enrich_pr repo pr w) = GitHubClient.degraded pr /\
      Spec.emits SpecMore.no_check_runs_request (GithubService.enrich_pr repo pr) /\
      Spec.emits SpecMore.no_check_runs_request (GitHubClient.enrich_pr repo pr)).
Proof.
  split.
  - intros repo pr w e Hn. split.
    + unfold GithubService.enrich_pr, try_except, bind, lift. now rewrite Hn.
    + unfold GitHubClient.enrich_pr, try_except, bind, lift. now rewrite Hn.
  - intros repo pr w e Hs.
    assert (Hno : forall head sha,
               getitem pr "head" = Ok head -> getitem head "sha" = Ok sha -> False).
    { intros head sha Hh Hsha. unfold SpecMore.head_sha in Hs.
      rewrite Hh in Hs. simpl in Hs. congruence. }
    split; [|split; [|split]].
    + unfold GithubService.enrich_pr, try_except, bind, lift.
      destruct (getitem pr "number") as [number|]; [|reflexivity].
      destruct (GithubService.fetch_pr_details repo number w) as [[details|] w1];
        [|reflexivity].
      destruct (GithubService.fetch_pr_reviews repo number w1) as [[reviews|] w2];
        [|reflexivity].
      destruct (getitem pr "head") as [head|] eqn:Eh; [|reflexivity].
      destruct (getitem head "sha") as [sha|] eqn:Es; [|reflexivity].
      destruct (Hno head sha eq_refl Es).
    + unfold GitHubClient.enrich_pr, try_except, bind, lift, GitHubClient.submit.
      destruct (getitem pr "number") as [number|]; [|reflexivity].
      destruct (GitHubClient.fetch_pr_details repo number w) as [r1 w1].
      destruct (GitHubClient.fetch_pr_reviews repo number w1) as [r2 w2].
      destruct (getitem pr "head") as [head|] eqn:Eh; [|reflexivity].
      destruct (getitem head "sha") as [sha|] eqn:Es; [|reflexivity].
      destruct (Hno head sha eq_refl Es).
    + unfold GithubService.enrich_pr.
      apply emits_try_except; [|intro; apply emits_lift].
      apply emits_bind_lift; intros number Hn.
      apply emits_bind; [now apply GithubService_request_emits|].
      intros details. apply emits_bind_lift; intros number' Hn'.
      apply emits_bind; [now apply GithubService_request_emits|].
      intros reviews. apply emits_bind_lift; intros head Hh.
      apply emits_bind_lift; intros sha Hsha.
      destruct (Hno head sha Hh Hsha).
    + unfold GitHubClient.enrich_pr.
      apply emits_try_except; [|intro; apply emits_lift].
      apply emits_bind_lift; intros number Hn.
      apply emits_bind;
        [apply emits_submit, GitHubClient_request_emits; simpl; auto|].
      intros details. apply emits_bind_lift; intros number' Hn'.
      apply emits_bind;
        [apply emits_submit, GitHubClient_request_emits; simpl; auto|].
      intros reviews. apply emits_bind_lift; intros head Hh.
      apply emits_bind_lift; intros sha Hsha.
      destruct (Hno head sha Hh Hsha).
Qed.

Lemma enrichment_of_incomplete_entry_witness :
  GithubService.enrich_pr "o/r" ScenarioMore.anonymous_pr Scenario.healthy_world
  = (GithubService.degraded ScenarioMore.anonymous_pr, Scenario.healthy_world) /\
  fst (GitHubClient.enrich_pr "o/r" ScenarioMore.headless_pr Scenario.healthy_world)
  = GitHubClient.degraded ScenarioMore.headless_pr.
Proof.
  split.
  - exact (proj1 (proj1 enrichment_of_incomplete_entry "o/r"
                    ScenarioMore.anonymous_pr Scenario.healthy_world
                    (KeyError "number") eq_refl)).
  - exact (proj1 (proj2 (proj2 enrichment_of_incomplete_entry "o/r"
                           ScenarioMore.headless_pr Scenario.healthy_world
                           (KeyError "head") eq_refl))).
Defined.

(** X6. In GithubService a failing detail fetch ends the work on the
    pull request after that one request: reviews and check-runs are not
    asked for.  In GitHubClient the three fetches are handed to the pool
    before any result is read, so the reviews and the check-runs are
    requested whatever the detail fetch does. *)
Theorem fetches_after_a_failed_detail :
  (forall repo pr w number e w1,
      getitem pr "number" = Ok number ->
      GithubService.fetch_pr_details repo number w = (Raise e, w1) ->
      GithubService.enrich_pr repo pr w = (GithubService.degraded pr, w1) /\
      w1 = mkWorld (net w) (S (calls w))
             (trace w ++ [Sent (SpecMore.json_request (PullDetail repo number))])) /\
  (forall repo pr w number sha,
      getitem pr "number" = Ok number ->
      SpecMore.head_sha pr = Ok sha ->
      let after_details := snd (GitHubClient.fetch_pr_details repo number w) in
      let after_reviews :=
        snd (GitHubClient.fetch_pr_reviews repo number after_details) in
      snd (GitHubClient.enrich_pr repo pr w)
      = snd (GitHubClient.fetch_check_runs repo sha after_reviews) /\
      (forall e,
          fst (GitHubClient.fetch_pr_details repo number w) = Raise e ->
          fst (GitHubClient.enrich_pr repo pr w) = GitHubClient.degraded pr)).
Proof.
  split.
  - intros repo pr w number e w1 Hn Hd. split.
    + unfold GithubService.enrich_pr, try_except, bind, lift. now rewrite Hn, Hd.
    + unfold GithubService.fetch_pr_details in Hd.
      rewrite GithubService_request_run in Hd. now injection Hd as _ <-.
  - intros repo pr w number sha Hn Hs. cbv zeta.
    unfold SpecMore.head_sha in Hs.
    destruct (getitem pr "head") as [head|] eqn:Hh; [|discriminate].
    simpl in Hs.
    unfold GitHubClient.enrich_pr, try_except, bind, lift,
      GitHubClient.submit, GitHubClient.future_result, lift.
    rewrite Hn, Hh, Hs.
    destruct (GitHubClient.fetch_pr_details repo number w) as [r1 w1].
    cbn [snd].
    destruct (GitHubClient.fetch_pr_reviews repo number w1) as [r2 w2].
    cbn [snd].
    destruct (GitHubClient.fetch_check_runs repo sha w2) as [r3 w3].
    cbn [fst snd]. split.
    + destruct r1 as [details|]; [|reflexivity].
      destruct r2 as [reviews|]; [|reflexivity].
      destruct r3 as [crs|]; [|reflexivity].
      now destruct (GitHubClient.enriched details reviews crs).
    + now intros e ->.
Qed.

Lemma fetches_after_a_failed_detail_witness :
  trace (snd (GithubService.enrich_pr "o/r" Scenario.pull_request
                Scenario.detail_down_world))
  = [Sent (SpecMore.json_request (PullDetail "o/r" (JNum 42)))] /\
  List.length (trace (snd (GitHubClient.enrich_pr "o/r" Scenario.pull_request
                             Scenario.detail_down_world))) = 7%nat.
Proof.
  split.
  - pose proof (proj1 fetches_after_a_failed_detail "o/r" Scenario.pull_request
                  Scenario.detail_down_world (JNum 42)
                  (ConnectionError "down") _ eq_refl eq_refl) as [H _].
    now rewrite H.
  - pose proof (proj2 fetches_after_a_failed_detail "o/r" Scenario.pull_request
                  Scenario.detail_down_world (JNum 42) (JStr "abc")
                  eq_refl eq_refl) as [H _].
    cbv zeta in H. now rewrite H.
Defined.

(* ===================================================================== *)
(** ** Further properties of the two [_request] methods                   *)
(* ===================================================================== *)

(** X7. When the first attempt succeeds, GitHubClient's [_request] makes
    one transport call and sleeps nothing; when the first fails and the
    second succeeds, it makes two calls with one sleep of 1 second in
    between. *)
Theorem retry_stops_at_first_success :
  forall method endpoint is_text w,
    let rq := mkRequest method endpoint is_text in
    let a i := GitHubClient.attempt_result rq (net w (calls w + i) rq) in
    let run := GitHubClient._request method endpoint is_text w in
    (forall v,
        a 0%nat = Ok v ->
        run = (Ok v, mkWorld (net w) (calls w + 1) (trace w ++ [Sent rq]))) /\
    (forall e v,
        a 0%nat = Raise e -> a 1%nat = Ok v ->
        run = (Ok v, mkWorld (net w) (calls w + 2)
                       (trace w ++ [Sent rq; Slept 1; Sent rq]))).
Proof.
  intros method endpoint is_text w rq a run.
  subst run a. unfold GitHubClient._request. fold rq.
  replace (calls w + 0)%nat with (calls w) by lia.
  replace (calls w + 1)%nat with (S (calls w)) by lia.
  replace (calls w + 2)%nat with (S (S (calls w))) by lia.
  split.
  - intros v H0. rewrite retry_loop_run. cbv zeta. now rewrite H0.
  - intros e v H0 H1.
    rewrite retry_loop_run; cbv zeta; rewrite H0.
    rewrite retry_loop_run; cbv zeta; simpl net; simpl calls; rewrite H1.
    simpl. now rewrite <- !app_assoc.
Qed.

Lemma retry_stops_at_first_success_witness :
  let rq := mkRequest GET (Pulls "o/r" "open") false in
  GitHubClient._request GET (Pulls "o/r" "open") false ScenarioRetry.hiccup_world
  = (Ok (JArr []),
     mkWorld ScenarioRetry.hiccup_net 2 [Sent rq; Slept 1; Sent rq]).
Proof.
  exact (proj2 (retry_stops_at_first_success GET (Pulls "o/r" "open") false
                  ScenarioRetry.hiccup_world)
           (ConnectionError "reset") (JArr []) eq_refl eq_refl).
Defined.

(** X8. GitHubClient retries a throttled request like any other failure:
    against a provider that answers three calls in a row with a
    rate-limited response, [_request] sends the request three times,
    sleeps 1 and 2 seconds in between and raises the rate-limit error. *)
Theorem rate_limit_is_retried :
  forall method endpoint is_text w r0 r1 r2,
    let rq := mkRequest method endpoint is_text in
    net w (calls w) rq = Reply r0 ->
    net w (calls w + 1) rq = Reply r1 ->
    net w (calls w + 2) rq = Reply r2 ->
    rate_limited r0 = true -> rate_limited r1 = true -> rate_limited r2 = true ->
    GitHubClient._request method endpoint is_text w
    = (Raise (Exception rate_limit_message),
       mkWorld (net w) (calls w + 3)
         (trace w ++ [Sent rq; Slept 1; Sent rq; Slept 2; Sent rq])).
Proof.
  intros method endpoint is_text w r0 r1 r2 rq N0 N1 N2 L0 L1 L2.
  unfold GitHubClient._request. fold rq.
  replace (calls w + 1)%nat with (S (calls w)) in N1 by lia.
  replace (calls w + 2)%nat with (S (S (calls w))) in N2 by lia.
  replace (calls w + 3)%nat with (S (S (S (calls w)))) by lia.
  assert (Hlim : forall r, rate_limited r = true ->
             GitHubClient.attempt_result rq (Reply r)
             = Raise (Exception rate_limit_message)).
  { intros r Hr. unfold GitHubClient.attempt_result, GitHubClient.read_response,
      GitHubClient.check_response. now rewrite Hr. }
  rewrite retry_loop_run; cbv zeta; rewrite N0, (Hlim r0 L0).
  rewrite retry_loop_run; cbv zeta; simpl net; simpl calls;
    rewrite N1, (Hlim r1 L1).
  rewrite retry_loop_run; cbv zeta; simpl net; simpl calls;
    rewrite N2, (Hlim r2 L2).
  simpl. now rewrite <- !app_assoc.
Qed.

Lemma rate_limit_is_retried_witness :
  let rq := mkRequest GET (Pulls "o/r" "open") false in
  GitHubClient._request GET (Pulls "o/r" "open") false
    ScenarioRetry.throttling_world
  = (Raise (Exception rate_limit_message),
     mkWorld (fun _ _ => Reply ScenarioRetry.throttled) 3
       [Sent rq; Slept 1; Sent rq; Slept 2; Sent rq]).
Proof.
  exact (rate_limit_is_retried GET (Pulls "o/r" "open") false
           ScenarioRetry.throttling_world
           ScenarioRetry.throttled ScenarioRetry.throttled ScenarioRetry.throttled
           eq_refl eq_refl eq_refl eq_refl eq_refl eq_refl).
Defined.

Lemma status_204_passes (r : Response) :
  status_code r = 204%Z -> rate_limited r = false /\ ok r = true.
Proof.
  intros H. unfold rate_limited, ok. rewrite H. now split.
Qed.

(** X9. On a 204 response GitHubClient returns an empty object whatever
    the method, without reading the body.  GithubService does so only for
    methods other than GET: a GET answered with 204 goes on to the text
    or to [response.json()], which raises on a body that is not JSON. *)
Theorem no_content_responses :
  forall r,
    status_code r = 204%Z ->
    (forall is_text, GitHubClient.read_response is_text r = Ok (JObj [])) /\
    (forall method is_text,
        method <> GET ->
        GithubService.read_response method is_text r = Ok (JObj [])) /\
    GithubService.read_response GET true r = Ok (JStr (text r)) /\
    GithubService.read_response GET false r = response_json r /\
    (body r = None -> GithubService.read_response GET false r = Raise ValueError).
Proof.
  intros r H. destruct (status_204_passes r H) as [Hl Hok].
  unfold GitHubClient.read_response, GitHubClient.check_response,
    GithubService.read_response, GithubService.check_response.
  rewrite Hl, Hok, H. simpl.
  repeat split.
  - intros method is_text Hm. now destruct method.
  - intros Hb. unfold response_json. now rewrite Hb.
Qed.

Lemma no_content_responses_witness :
  GitHubClient.read_response false ScenarioRetry.no_content = Ok (JObj []) /\
  GithubService.read_response GET false ScenarioRetry.no_content
  = Raise ValueError.
Proof.
  destruct (no_content_responses ScenarioRetry.no_content eq_refl)
    as (H1 & _ & _ & _ & H5).
  split; [exact (H1 false)|exact (H5 eq_refl)].
Defined.

(* ===================================================================== *)
(** ** Repository contents                                                *)
(* ===================================================================== *)

Lemma is_str_exact (lit : string) (v : json) :
  is_str lit v = true <-> v = JStr lit.
Proof.
  destruct v; simpl; split; try discriminate.
  - intros H. apply String.eqb_eq in H. now subst.
  - intros H. injection H as ->. apply String.eqb_refl.
Qed.

Lemma is_str_encoding (o : pydict) :
  dict_lookup "encoding" o <> Some (JStr "base64") ->
  is_str "base64" match dict_lookup "encoding" o with
                  | Some x => x
                  | None => JNull
                  end = false.
Proof.
  intros H. destruct (dict_lookup "encoding" o) as [enc|]; [|reflexivity].
  destruct (is_str "base64" enc) eqn:E; [|reflexivity].
  apply is_str_exact in E. congruence.
Qed.

Lemma GithubService_reads_content decode :
  SpecMore.reads_content decode (GithubService.fetch_repo_content decode)
    (fun repo path => GithubService._request (Contents repo path) GET false).
Proof.
  intros repo path w.
  unfold GithubService.fetch_repo_content, try_except, bind, lift, ret.
  destruct (GithubService._request (Contents repo path) GET false w)
    as [[data|e] w1]; cbn [fst snd].
  - match goal with
    | |- context [match ?r with Ok _ => _ | Raise _ => _ end] =>
        destruct r as [content|e'] eqn:E
    end.
    + exists content. split; [reflexivity|].
      split; [discriminate|]. split; [|split].
      * intros items H. injection H as ->. simpl in E. congruence.
      * intros o c H Hc Hne He. injection H as ->.
        simpl in E. rewrite Hc in E. simpl in E.
        destruct (String.eqb c "") eqn:Ec;
          [apply String.eqb_eq in Ec; contradiction|].
        simpl in E. rewrite He in E. simpl in E.
        try (unfold getitem in E; rewrite Hc in E; simpl in E).
        destruct (decode c); congruence.
      * intros o H He. injection H as ->. simpl in E.
        rewrite (is_str_encoding o He) in E.
        destruct (truthy _) in E; simpl in E; congruence.
    + exists JNull. split; [reflexivity|].
      split; [discriminate|]. split; [|split].
      * intros items H. injection H as ->. discriminate E.
      * intros o c H Hc Hne He. injection H as ->.
        simpl in E. rewrite Hc in E. simpl in E.
        destruct (String.eqb c "") eqn:Ec;
          [apply String.eqb_eq in Ec; contradiction|].
        simpl in E. rewrite He in E. simpl in E.
        try (unfold getitem in E; rewrite Hc in E; simpl in E).
        destruct (decode c); congruence.
      * intros o H He. injection H as ->. simpl in E.
        rewrite (is_str_encoding o He) in E.
        destruct (truthy _) in E; simpl in E; congruence.
  - exists JNull. split; [reflexivity|].
    split; [reflexivity|]. repeat split; discriminate.
Qed.

Lemma GitHubClient_reads_content decode :
  SpecMore.reads_content decode (GitHubClient.fetch_repo_content decode)
    (fun repo path => GitHubClient._request GET (Contents repo path) false).
Proof.
  intros repo path w.
  unfold GitHubClient.fetch_repo_content, try_except, bind, lift, ret.
  destruct (GitHubClient._request GET (Contents repo path) false w)
    as [[data|e] w1]; cbn [fst snd].
  - match goal with
    | |- context [match ?r with Ok _ => _ | Raise _ => _ end] =>
        destruct r as [content|e'] eqn:E
    end.
    + exists content. split; [reflexivity|].
      split; [discriminate|]. split; [|split].
      * intros items H. injection H as ->. simpl in E. congruence.
      * intros o c H Hc Hne He. injection H as ->.
        simpl in E. rewrite Hc in E. simpl in E. rewrite He in E. simpl in E.
        try (unfold getitem in E; rewrite Hc in E; simpl in E).
        destruct (decode c); congruence.
      * intros o H He. injection H as ->. simpl in E.
        rewrite (is_str_encoding o He) in E.
        destruct (dict_lookup "content" o) in E; simpl in E; congruence.
    + exists JNull. split; [reflexivity|].
      split; [discriminate|]. split; [|split].
      * intros items H. injection H as ->. discriminate E.
      * intros o c H Hc Hne He. injection H as ->.
        simpl in E. rewrite Hc in E. simpl in E. rewrite He in E. simpl in E.
        try (unfold getitem in E; rewrite Hc in E; simpl in E).
        destruct (decode c); congruence.
      * intros o H He. injection H as ->. simpl in E.
        rewrite (is_str_encoding o He) in E.
        destruct (dict_lookup "content" o) in E; simpl in E; congruence.
  - exists JNull. split; [reflexivity|].
    split; [reflexivity|]. repeat split; discriminate.
Qed.

(** X10. [fetch_repo_content] never raises in either service: it returns
    None when the request fails, a directory listing as it is, the
    decoded text of a file with non-empty base64 content (None when the
    decoding fails) and the provider's answer itself when the encoding is
    not base64.  On a file whose content is the empty string the services
    part: GithubService returns the answer object, GitHubClient decodes
    the empty content. *)
Theorem fetch_repo_content_outcomes :
  forall decode,
    SpecMore.reads_content decode (GithubService.fetch_repo_content decode)
      (fun repo path => GithubService._request (Contents repo path) GET false) /\
    SpecMore.reads_content decode (GitHubClient.fetch_repo_content decode)
      (fun repo path => GitHubClient._request GET (Contents repo path) false) /\
    (forall repo path w o,
        dict_lookup "content" o = Some (JStr "") ->
        dict_lookup "encoding" o = Some (JStr "base64") ->
        (fst (GithubService._request (Contents repo path) GET false w) = Ok (JObj o) ->
         fst (GithubService.fetch_repo_content decode repo path w) = Ok (JObj o)) /\
        (fst (GitHubClient._request GET (Contents repo path) false w) = Ok (JObj o) ->
         fst (GitHubClient.fetch_repo_content decode repo path w)
         = Ok match decode "" with
              | Some t => JStr t
              | None => JNull
              end)).
Proof.
  intros decode.
  split; [apply GithubService_reads_content|].
  split; [apply GitHubClient_reads_content|].
  intros repo path w o Hc He. split; intros H.
  - unfold GithubService.fetch_repo_content, try_except, bind, lift, ret.
    destruct (GithubService._request (Contents repo path) GET false w)
      as [[data|e] w1]; cbn [fst] in H; [|discriminate].
    injection H as ->. simpl. rewrite Hc. reflexivity.
  - unfold GitHubClient.fetch_repo_content, try_except, bind, lift, ret.
    destruct (GitHubClient._request GET (Contents repo path) false w)
      as [[data|e] w1]; cbn [fst] in H; [|discriminate].
    injection H as ->. simpl. rewrite Hc. simpl. rewrite He. simpl.
    try (unfold getitem; rewrite Hc; simpl). now destruct (decode "").
Qed.

Lemma fetch_repo_content_outcomes_witness :
  fst (GithubService.fetch_repo_content (fun s => Some s) "o/r" "README.md"
         Scenario.empty_readme_world) = Ok Scenario.empty_readme /\
  fst (GitHubClient.fetch_repo_content (fun s => Some s) "o/r" "README.md"
         Scenario.empty_readme_world) = Ok (JStr "").
Proof.
  destruct (proj2 (proj2 (fetch_repo_content_outcomes (fun s => Some s)))
              "o/r" "README.md" Scenario.empty_readme_world
              [("type", JStr "file"); ("name", JStr "README.md");
               ("path", JStr "README.md"); ("size", JNum 0);
               ("encoding", JStr "base64"); ("content", JStr "")]
              eq_refl eq_refl) as [H1 H2].
  split; [exact (H1 eq_refl)|exact (H2 eq_refl)].
Defined.

Lemma join_strings (sep : string) (parts : list string) :
  join sep (map JStr parts) = Ok (String.concat sep parts).
Proof.
  induction parts as [|p parts IH]; [reflexivity|].
  destruct parts as [|q parts]; [reflexivity|].
  change (join sep (map JStr (p :: q :: parts)))
    with (let! t := join sep (map JStr (q :: parts)) in Ok (p ++ sep ++ t)%string).
  rewrite IH. reflexivity.
Qed.

Lemma join_not_strings (sep : string) (items : list json) :
  (forall parts, items <> map JStr parts) -> exists e, join sep items = Raise e.
Proof.
  induction items as [|x items IH]; intros H.
  - now contradiction (H []).
  - destruct x as [| | |s| |]; simpl; eauto.
    destruct items as [|y items]; [now contradiction (H [s])|].
    destruct IH as (e & He).
    { intros parts Hp. apply (H (s :: parts)). simpl. now rewrite Hp. }
    rewrite He. simpl. eauto.
Qed.

(** The text both collectors join out of a listing. *)
Lemma listing_text (items : list json) :
  match SpecMore.joined_paths items with
  | Some text =>
      (let! paths := rmap (fun f => getitem f "path") items in join ", " paths)
      = Ok text
  | None =>
      exists e,
        (let! paths := rmap (fun f => getitem f "path") items in join ", " paths)
        = Raise e
  end.
Proof.
  unfold SpecMore.joined_paths.
  assert (H : match rmap (fun f => getitem f "path") items with
              | Ok vs =>
                  match SpecMore.paths_of items with
                  | Some ps => vs = map JStr ps
                  | None => forall ps, vs <> map JStr ps
                  end
              | Raise _ => SpecMore.paths_of items = None
              end).
  { induction items as [|f items IH]; simpl; [reflexivity|].
    destruct (getitem f "path") as [v|e]; simpl; [|reflexivity].
    destruct (rmap _ items) as [vs|e]; simpl.
    - destruct (SpecMore.paths_of items) as [ps|].
      + subst vs. destruct v; try (intros [|p ps']; discriminate).
        reflexivity.
      + destruct v; intros [|p ps'] Hp; try discriminate.
        injection Hp as _ Hp. now apply (IH ps').
    - rewrite IH. now destruct v. }
  destruct (rmap _ items) as [vs|e]; simpl.
  - destruct (SpecMore.paths_of items) as [ps|].
    + subst vs. apply join_strings.
    + now apply join_not_strings.
  - rewrite H. eauto.
Qed.

(** X11. GitHubClient's collector, field by field: [fileList] is the
    joined paths of the root listing, [''] when the listing request fails
    and ['unknown'] when the answer is not a list; each snippet is the
    first 1500 characters of the fetched text and [''] for anything else;
    [hasCI] tells whether the workflow listing is a non-empty list.  It
    returns normally whenever the entries of a served root listing all
    have a string [path]. *)
Theorem client_repo_context_fields :
  forall decode repo w,
    let root := GitHubClient._request GET (Contents repo "") false w in
    let readme :=
      GitHubClient.fetch_repo_content decode repo "README.md" (snd root) in
    let pkg :=
      GitHubClient.fetch_repo_content decode repo "package.json" (snd readme) in
    let ci :=
      GitHubClient._request GET (Contents repo ".github/workflows") false
        (snd pkg) in
    (forall items,
        fst root = Ok (JArr items) -> SpecMore.joined_paths items <> None) ->
    GitHubClient.fetch_core_repo_context decode repo w
    = (Ok (mkRepoContext
             match fst root with
             | Raise _ => ""
             | Ok (JArr items) =>
                 match SpecMore.joined_paths items with
                 | Some text => text
                 | None => ""
                 end
             | Ok _ => "unknown"
             end
             (SpecMore.snippet_of (fst readme))
             (SpecMore.snippet_of (fst pkg))
             (SpecMore.has_entries (fst ci))),
       snd ci).
Proof.
  intros decode repo w. cbv zeta.
  unfold GitHubClient.fetch_core_repo_context, bind, GitHubClient.submit.
  destruct (GitHubClient._request GET (Contents repo "") false w)
    as [root w1]; cbn [fst snd].
  destruct (GitHubClient.fetch_repo_content decode repo "README.md" w1)
    as [readme w2]; cbn [fst snd].
  destruct (GitHubClient.fetch_repo_content decode repo "package.json" w2)
    as [pkg w3]; cbn [fst snd].
  destruct (GitHubClient._request GET (Contents repo ".github/workflows") false w3)
    as [ci w4]; cbn [fst snd].
  intros Hroot.
  assert (Hsnip : forall fetched,
             GitHubClient.snippet (GitHubClient.text_or_empty fetched)
             = Ok (SpecMore.snippet_of fetched)).
  { intros [[| | |s| |]|e]; reflexivity. }
  assert (Hci : isinstance_list (GitHubClient.listing_or_empty ci) &&
                nonempty_list (GitHubClient.listing_or_empty ci)
                = SpecMore.has_entries ci).
  { destruct ci as [[| | | |[|x l]|]|e]; reflexivity. }
  rewrite Hci. unfold lift, ret. rewrite !Hsnip.
  destruct root as [root|e]; simpl.
  - destruct root as [| | | |items|]; simpl; try reflexivity.
    specialize (Hroot items eq_refl).
    pose proof (listing_text items) as Ht.
    destruct (SpecMore.joined_paths items) as [text|]; [|congruence].
    unfold rbind in Ht |- *. now rewrite Ht.
  - reflexivity.
Qed.

Lemma client_repo_context_fields_witness :
  fst (GitHubClient.fetch_core_repo_context (fun s => Some s) "o/r"
         Scenario.root_down_world)
  = Ok (mkRepoContext "" (JStr "") (JStr "") false).
Proof.
  assert (H : forall items,
             fst (GitHubClient._request GET (Contents "o/r" "") false
                    Scenario.root_down_world) = Ok (JArr items) ->
             SpecMore.joined_paths items <> None).
  { intros items Hi. discriminate Hi. }
  pose proof (client_repo_context_fields (fun s => Some s) "o/r"
                Scenario.root_down_world H) as E.
  cbv zeta in E. rewrite E. reflexivity.
Defined.

(** X12. GithubService's collector, when README.md and package.json each
    come back as a text or as None: [fileList] is the joined paths of the
    root listing and ['unknown'] when the request fails, the answer is not
    a list or an entry has no string [path]; each snippet is the first
    1500 characters of the text, [''] for None; [hasCI] tells whether the
    workflow listing is a non-empty list. *)
Theorem service_repo_context_fields :
  forall decode repo w,
    let root := GithubService._request (Contents repo "") GET false w in
    let readme :=
      GithubService.fetch_repo_content decode repo "README.md" (snd root) in
    let pkg :=
      GithubService.fetch_repo_content decode repo "package.json" (snd readme) in
    let ci :=
      GithubService._request (Contents repo ".github/workflows") GET false
        (snd pkg) in
    SpecMore.text_or_none (fst readme) ->
    SpecMore.text_or_none (fst pkg) ->
    GithubService.fetch_core_repo_context decode repo w
    = (Ok (mkRepoContext
             match fst root with
             | Ok (JArr items) =>
                 match SpecMore.joined_paths items with
                 | Some text => text
                 | None => "unknown"
                 end
             | _ => "unknown"
             end
             (SpecMore.snippet_of (fst readme))
             (SpecMore.snippet_of (fst pkg))
             (SpecMore.has_entries (fst ci))),
       snd ci).
Proof.
  intros decode repo w. cbv zeta.
  unfold GithubService.fetch_core_repo_context.
  unfold bind at 1. unfold try_except at 1. unfold bind at 1.
  destruct (GithubService._request (Contents repo "") GET false w)
    as [root w1]; cbn [fst snd].
  set (file_list := match root with
                    | Ok (JArr items) =>
                        match SpecMore.joined_paths items with
                        | Some text => text
                        | None => "unknown"
                        end
                    | _ => "unknown"
                    end).
  assert (Hfile : (match root with
                   | Ok a =>
                       (if isinstance_list a
                        then lift (let! items := iter a in
                                   let! paths := rmap (fun f => getitem f "path") items in
                                   join ", " paths)
                        else ret "unknown") w1
                   | Raise e => (Raise e, w1)
                   end)
                  = (Ok file_list, w1) \/
                  exists e, (match root with
                   | Ok a =>
                       (if isinstance_list a
                        then lift (let! items := iter a in
                                   let! paths := rmap (fun f => getitem f "path") items in
                                   join ", " paths)
                        else ret "unknown") w1
                   | Raise e => (Raise e, w1)
                   end) = (Raise e, w1) /\ file_list = "unknown").
  { subst file_list. destruct root as [[| | | |items|]|e]; simpl;
      try (now left); try (right; eexists; split; reflexivity).
    pose proof (listing_text items) as Ht.
    destruct (SpecMore.joined_paths items) as [text|].
    - left. unfold lift. unfold rbind in Ht |- *. now rewrite Ht.
    - right. destruct Ht as (e & He). exists e.
      unfold lift. unfold rbind in He |- *. now rewrite He. }
  assert (Hrest : forall fl,
     (readme0 <- GithubService.fetch_repo_content decode repo "README.md";;
      (let readme := por readme0 (JStr "") in
       package0 <- GithubService.fetch_repo_content decode repo "package.json";;
       (let package_json := por package0 (JStr "") in
        has_ci <-
        try_except
          (ci <- GithubService._request (Contents repo ".github/workflows") GET false;;
           ret (isinstance_list ci && nonempty_list ci))
          (fun _ : exn => ret false);;
        readme_snippet <- lift (GithubService.snippet readme);;
        package_snippet <- lift (GithubService.snippet package_json);;
        ret (mkRepoContext fl readme_snippet package_snippet has_ci)))) w1
     = (let readme :=
          GithubService.fetch_repo_content decode repo "README.md" w1 in
        let pkg :=
          GithubService.fetch_repo_content decode repo "package.json" (snd readme) in
        let ci :=
          GithubService._request (Contents repo ".github/workflows") GET false
            (snd pkg) in
        match fst readme, fst pkg with
        | Ok r, Ok p =>
            (let! a := GithubService.snippet (por r (JStr "")) in
             let! b := GithubService.snippet (por p (JStr "")) in
             Ok (mkRepoContext fl a b (SpecMore.has_entries (fst ci))), snd ci)
        | Raise e, _ => (Raise e, snd readme)
        | Ok _, Raise e => (Raise e, snd pkg)
        end)).
  { intros fl. cbv zeta. unfold bind, try_except, lift, ret.
    destruct (GithubService.fetch_repo_content decode repo "README.md" w1)
      as [[r|e] w2]; cbn [fst snd]; [|reflexivity].
    destruct (GithubService.fetch_repo_content decode repo "package.json" w2)
      as [[p|e] w3]; cbn [fst snd]; [|reflexivity].
    destruct (GithubService._request (Contents repo ".github/workflows") GET false w3)
      as [[ci|e] w4]; cbn [fst snd].
    - replace (isinstance_list ci && nonempty_list ci)
        with (SpecMore.has_entries (Ok ci))
        by (now destruct ci as [| | | |[|x l]|]).
      destruct (GithubService.snippet (por r (JStr ""))); simpl; [|reflexivity].
      now destruct (GithubService.snippet (por p (JStr ""))).
    - destruct (GithubService.snippet (por r (JStr ""))); simpl; [|reflexivity].
      now destruct (GithubService.snippet (por p (JStr ""))). }
  intros Hreadme Hpkg.
  assert (Hgoal : forall fl,
     (let readme :=
          GithubService.fetch_repo_content decode repo "README.md" w1 in
        let pkg :=
          GithubService.fetch_repo_content decode repo "package.json" (snd readme) in
        let ci :=
          GithubService._request (Contents repo ".github/workflows") GET false
            (snd pkg) in
        match fst readme, fst pkg with
        | Ok r, Ok p =>
            (let! a := GithubService.snippet (por r (JStr "")) in
             let! b := GithubService.snippet (por p (JStr "")) in
             Ok (mkRepoContext fl a b (SpecMore.has_entries (fst ci))), snd ci)
        | Raise e, _ => (Raise e, snd readme)
        | Ok _, Raise e => (Raise e, snd pkg)
        end)
     = (Ok (mkRepoContext fl
              (SpecMore.snippet_of
                 (fst (GithubService.fetch_repo_content decode repo "README.md" w1)))
              (SpecMore.snippet_of
                 (fst (GithubService.fetch_repo_content decode repo "package.json"
                         (snd (GithubService.fetch_repo_content decode repo
                                 "README.md" w1)))))
              (SpecMore.has_entries
                 (fst (GithubService._request (Contents repo ".github/workflows")
                         GET false
                         (snd (GithubService.fetch_repo_content decode repo
                                 "package.json"
                                 (snd (GithubService.fetch_repo_content decode repo
                                         "README.md" w1)))))))),
        snd (GithubService._request (Contents repo ".github/workflows") GET false
               (snd (GithubService.fetch_repo_content decode repo "package.json"
                       (snd (GithubService.fetch_repo_content decode repo
                               "README.md" w1))))))).
  { intros fl. cbv zeta.
    destruct (GithubService.fetch_repo_content decode repo "README.md" w1)
      as [r w2]; cbn [fst snd] in *.
    destruct (GithubService.fetch_repo_content decode repo "package.json" w2)
      as [p w3]; cbn [fst snd] in *.
    assert (Hs : forall v, SpecMore.text_or_none (Ok v) ->
               GithubService.snippet (por v (JStr ""))
               = Ok (SpecMore.snippet_of (Ok v))).
    { intros [| | |s| |] Hv; try destruct Hv; [reflexivity|].
      destruct s as [|c s]; reflexivity. }
    destruct r as [r|e]; [|destruct Hreadme].
    destruct p as [p|e]; [|destruct Hpkg].
    now rewrite (Hs r Hreadme), (Hs p Hpkg). }
  destruct Hfile as [Hf|(e & Hf & Hunknown)]; rewrite Hf.
  - rewrite Hrest. apply Hgoal.
  - unfold ret at 1. rewrite Hrest, Hunknown. apply Hgoal.
Qed.

Lemma service_repo_context_fields_witness :
  fst (GithubService.fetch_core_repo_context (fun s => Some s) "o/r"
         Scenario.root_down_world)
  = Ok (mkRepoContext "unknown" (JStr "") (JStr "") false).
Proof.
  pose proof (service_repo_context_fields (fun s => Some s) "o/r"
                Scenario.root_down_world I I) as E.
  cbv zeta in E. rewrite E. reflexivity.
Defined.

Lemma dict_set_keys (k : string) (v : json) (d : pydict) :
  map fst (dict_set k v d)
  = if existsb (String.eqb k) (map fst d) then map fst d else map fst d ++ [k].
Proof.
  induction d as [|[k' v'] d IH]; simpl; [reflexivity|].
  destruct (String.eqb k k') eqn:E; simpl.
  - apply String.eqb_eq in E. now subst.
  - rewrite IH. now destruct (existsb _ _).
Qed.

Lemma dict_set_NoDup (k : string) (v : json) (d : pydict) :
  NoDup (map fst d) -> NoDup (map fst (dict_set k v d)).
Proof.
  intros ND. rewrite dict_set_keys.
  destruct (existsb _ _) eqn:E; [assumption|].
  apply NoDup_app; [assumption|repeat constructor; intros []|].
  intros k' Hin [Heq|[]]. subst k'.
  assert (existsb (String.eqb k) (map fst d) = true).
  { apply existsb_exists. exists k. split; [assumption|apply String.eqb_refl]. }
  congruence.
Qed.

Lemma dict_set_Forall (P : string * json -> Prop) k v (d : pydict) :
  P (k, v) -> Forall P d -> Forall P (dict_set k v d).
Proof.
  intros Hkv Hd. induction Hd as [|[k' v'] d Hx Hd IH]; simpl.
  - now constructor.
  - destruct (String.eqb k k'); constructor; assumption.
Qed.

Lemma slice_truthy (path : string) (content : json) :
  In path GithubServiceMore.template_paths ->
  truthy content = true ->
  match slice_to 1000 content with
  | Ok sliced => SpecMore.bounded_template (path, sliced)
  | Raise _ => True
  end.
Proof.
  intros Hp Ht. destruct content as [| | |s|l|]; cbn [slice_to];
    try exact I.
  - split; [assumption|]. cbn [snd].
    split; [|apply take_chars_length].
    destruct s as [|c s]; [discriminate|].
    change 1000%nat with (S 999). cbn [take_chars].
    destruct (is_continuation c); discriminate.
  - split; [assumption|]. cbn [snd]. rewrite length_firstn.
    destruct l as [|x l]; [discriminate|]. cbn [List.length]. lia.
Qed.

Lemma GithubService_collect_templates decode repo paths :
  forall templates w,
    (forall p, In p paths -> In p GithubServiceMore.template_paths) ->
    NoDup (map fst templates) ->
    Forall SpecMore.bounded_template templates ->
    SpecMore.templates_outcome
      (fst (GithubServiceMore.collect_templates decode repo paths templates w)).
Proof.
  induction paths as [|path paths IH]; intros templates w Hp ND Hb; simpl.
  - now split.
  - unfold bind at 1.
    destruct (GithubService_reads_content decode repo path w) as (content & Hc & _).
    rewrite Hc.
    unfold bind at 1.
    destruct (truthy content) eqn:Et.
    + pose proof (slice_truthy path content (Hp path (or_introl eq_refl)) Et) as Hs.
      unfold bind, lift, ret.
      destruct (slice_to 1000 content) as [sliced|e]; [|exact Hs].
      apply IH.
      * intros p Hin. apply Hp. now right.
      * now apply dict_set_NoDup.
      * now apply dict_set_Forall.
    + unfold ret at 1. apply IH; try assumption.
      intros p Hin. apply Hp. now right.
Qed.

Lemma GitHubClient_collect_templates decode repo paths :
  forall templates w,
    (forall p, In p paths -> In p GithubServiceMore.template_paths) ->
    NoDup (map fst templates) ->
    Forall SpecMore.bounded_template templates ->
    SpecMore.templates_outcome
      (fst (GitHubClientMore.collect_templates decode repo paths templates w)).
Proof.
  induction paths as [|path paths IH]; intros templates w Hp ND Hb; simpl.
  - now split.
  - unfold bind at 1.
    destruct (GitHubClient_reads_content decode repo path w) as (content & Hc & _).
    rewrite Hc.
    unfold bind at 1.
    destruct (truthy content) eqn:Et.
    + pose proof (slice_truthy path content (Hp path (or_introl eq_refl)) Et) as Hs.
      unfold bind, lift, ret.
      destruct (slice_to 1000 content) as [sliced|e]; [|exact Hs].
      apply IH.
      * intros p Hin. apply Hp. now right.
      * now apply dict_set_NoDup.
      * now apply dict_set_Forall.
    + unfold ret at 1. apply IH; try assumption.
      intros p Hin. apply Hp. now right.
Qed.

(** X13. When [fetch_repo_templates] returns, its dict has keys among the
    seven template paths, each at most once, and values that are
    non-empty texts of at most 1000 characters or non-empty lists of at
    most 1000 items.  It raises as
    soon as the first template's content comes back as a non-empty
    object, which GithubService's [fetch_repo_content] hands over for a
    file it did not decode. *)
Theorem repo_templates_bounded :
  forall decode repo w,
    SpecMore.templates_outcome
      (fst (GithubServiceMore.fetch_repo_templates decode repo w)) /\
    SpecMore.templates_outcome
      (fst (GitHubClientMore.fetch_repo_templates decode repo w)) /\
    (forall kv o,
        fst (GithubService.fetch_repo_content decode repo
               ".github/ISSUE_TEMPLATE/bug_report.md" w) = Ok (JObj (kv :: o)) ->
        exists e,
          fst (GithubServiceMore.fetch_repo_templates decode repo w) = Raise e).
Proof.
  intros decode repo w. split; [|split].
  - apply GithubService_collect_templates; auto; constructor.
  - apply GitHubClient_collect_templates; auto; constructor.
  - intros kv o H.
    unfold GithubServiceMore.fetch_repo_templates, GithubServiceMore.template_paths.
    cbn [GithubServiceMore.collect_templates]. unfold bind at 1.
    destruct (GithubService.fetch_repo_content decode repo
                ".github/ISSUE_TEMPLATE/bug_report.md" w) as [r w1].
    cbn [fst] in H. subst r. eexists. reflexivity.
Qed.

Lemma repo_templates_bounded_witness :
  exists e,
    fst (GithubServiceMore.fetch_repo_templates (fun s => Some s) "o/r"
           ScenarioMore.empty_files_world) = Raise e.
Proof.
  apply (proj2 (proj2 (repo_templates_bounded (fun s => Some s) "o/r"
                         ScenarioMore.empty_files_world))
           ("type", JStr "file")
           [("name", JStr "README.md"); ("path", JStr "README.md");
            ("size", JNum 0); ("encoding", JStr "base64");
            ("content", JStr "")]).
  reflexivity.
Defined.

Lemma for_each_concat_Forall {A B} (P : B -> Prop) (f : A -> M (list B))
    (l : list A) :
  (forall x w ys w', f x w = (Ok ys, w') -> Forall P ys) ->
  forall w yss w',
    for_each f l w = (Ok yss, w') -> Forall P (List.concat yss).
Proof.
  intros Hf. induction l as [|x l IH]; intros w yss w' H; simpl in H.
  - injection H as <- _. constructor.
  - unfold bind at 1 in H.
    destruct (f x w) as [[ys|e] w1] eqn:Ex; [|discriminate].
    unfold bind at 1 in H.
    destruct (for_each f l w1) as [[yss'|e] w2] eqn:El; [|discriminate].
    injection H as <- _. simpl. apply Forall_app. split.
    + eapply Hf; eassumption.
    + eapply IH; eassumption.
Qed.

Lemma GithubService_workflow_entries decode repr repo file w ys w' :
  GithubServiceMore.workflow_entries decode repr repo file w = (Ok ys, w') ->
  Forall SpecMore.workflow_entry ys.
Proof.
  unfold GithubServiceMore.workflow_entries, bind, lift, ret.
  destruct (GithubServiceMore.is_workflow_file file) as [[|]|] eqn:Es;
    try discriminate.
  2:{ intros H. injection H as <- _. constructor. }
  destruct (getitem file "path") as [path|] eqn:Ep; [|discriminate].
  destruct (GithubService.fetch_repo_content decode repo (format repr path) w)
    as [[content|] w1]; [|discriminate].
  destruct (truthy content) eqn:Et.
  2:{ intros H. injection H as <- _. constructor. }
  unfold GithubServiceMore.is_workflow_file in Es.
  destruct (getitem file "type") as [type|]; [|discriminate]. simpl in Es.
  destruct (is_str "file" type); [|discriminate].
  destruct (getitem file "name") as [name|] eqn:En; [|discriminate].
  simpl in Es |- *.
  destruct name as [| | |s| |]; try discriminate. simpl in Es.
  intros H. injection H as <- _. constructor; [|constructor].
  exists s, path, content. repeat split; [|assumption].
  destruct (ends_with s ".yml"); [reflexivity|].
  simpl in Es |- *. congruence.
Qed.

Lemma GitHubClient_workflow_entries decode repr repo file w ys w' :
  GitHubClientMore.workflow_entries decode repr repo file w = (Ok ys, w') ->
  Forall SpecMore.workflow_entry ys.
Proof.
  unfold GitHubClientMore.workflow_entries, bind, lift, ret.
  destruct (GitHubClientMore.is_workflow_file file) as [[|]|] eqn:Es;
    try discriminate.
  2:{ intros H. injection H as <- _. constructor. }
  destruct (get file "path" JNull) as [path|] eqn:Ep; [|discriminate].
  destruct (GitHubClient.fetch_repo_content decode repo (format repr path) w)
    as [[content|] w1]; [|discriminate].
  destruct (truthy content) eqn:Et.
  2:{ intros H. injection H as <- _. constructor. }
  unfold GitHubClientMore.is_workflow_file in Es.
  destruct file as [| | | | |o]; try discriminate.
  simpl in Es, Ep |- *.
  destruct (is_str "file" _); [|discriminate].
  destruct (dict_lookup "name" o) as [name|] eqn:En.
  - destruct name as [| | |s| |]; try discriminate. simpl in Es.
    intros H. injection H as <- _. constructor; [|constructor].
    injection Ep as <-.
    exists s, (match dict_lookup "path" o with Some x => x | None => JNull end),
      content.
    repeat split; [|assumption].
    destruct (ends_with s ".yml"); [reflexivity|].
    simpl in Es |- *. congruence.
  - simpl in Es. discriminate.
Qed.

Lemma GithubService_lists_workflows decode repr :
  SpecMore.lists_workflows
    (GithubServiceMore.fetch_workflows_content decode repr)
    (fun repo => GithubService._request (Contents repo ".github/workflows") GET false).
Proof.
  intros repo w.
  unfold GithubServiceMore.fetch_workflows_content, try_except.
  unfold bind at 1.
  destruct (GithubService._request (Contents repo ".github/workflows") GET false w)
    as [[dir|e] w1]; cbn [fst].
  - unfold bind at 1. unfold lift at 1.
    destruct (iter dir) as [files|e].
    + unfold bind at 1.
      destruct (for_each (GithubServiceMore.workflow_entries decode repr repo) files w1)
        as [[added|e] w2] eqn:Ef.
      * exists (List.concat added), w2. split; [reflexivity|].
        split; [|discriminate].
        eapply for_each_concat_Forall; [|exact Ef].
        intros x w0 ys w0'. apply GithubService_workflow_entries.
      * exists [], w2. split; [reflexivity|split; [constructor|discriminate]].
    + exists [], w1. split; [reflexivity|split; [constructor|discriminate]].
  - exists [], w1. split; [reflexivity|split; [constructor|reflexivity]].
Qed.

Lemma GitHubClient_lists_workflows decode repr :
  SpecMore.lists_workflows
    (GitHubClientMore.fetch_workflows_content decode repr)
    (fun repo => GitHubClient._request GET (Contents repo ".github/workflows") false).
Proof.
  intros repo w.
  unfold GitHubClientMore.fetch_workflows_content, try_except.
  unfold bind at 1.
  destruct (GitHubClient._request GET (Contents repo ".github/workflows") false w)
    as [[dir|e] w1]; cbn [fst].
  - unfold bind at 1. unfold lift at 1.
    destruct (iter dir) as [files|e].
    + unfold bind at 1.
      destruct (for_each (GitHubClientMore.workflow_entries decode repr repo) files w1)
        as [[added|e] w2] eqn:Ef.
      * exists (List.concat added), w2. split; [reflexivity|].
        split; [|discriminate].
        eapply for_each_concat_Forall; [|exact Ef].
        intros x w0 ys w0'. apply GitHubClient_workflow_entries.
      * exists [], w2. split; [reflexivity|split; [constructor|discriminate]].
    + exists [], w1. split; [reflexivity|split; [constructor|discriminate]].
  - exists [], w1. split; [reflexivity|split; [constructor|reflexivity]].
Qed.

(** X14. [fetch_workflows_content] never raises in either service: it
    yields the empty list when the directory request fails, and the
    entries it yields are all for files named [*.yml] or [*.yaml] whose
    content came back truthy. *)
Theorem workflows_content_entries :
  forall decode repr,
    SpecMore.lists_workflows
      (GithubServiceMore.fetch_workflows_content decode repr)
      (fun repo =>
         GithubService._request (Contents repo ".github/workflows") GET false) /\
    SpecMore.lists_workflows
      (GitHubClientMore.fetch_workflows_content decode repr)
      (fun repo =>
         GitHubClient._request GET (Contents repo ".github/workflows") false).
Proof.
  intros decode repr. split.
  - apply GithubService_lists_workflows.
  - apply GitHubClient_lists_workflows.
Qed.

Lemma without_pull_requests_objects (items : list pydict) :
  GithubServiceMore.without_pull_requests (JArr (map JObj items))
  = Ok (SpecMore.issues_of items).
Proof.
  unfold GithubServiceMore.without_pull_requests, SpecMore.issues_of.
  cbn [iter rbind].
  induction items as [|o items IH]; [reflexivity|].
  cbn [map rfilter contains rbind filter].
  unfold pydict in *. rewrite IH.
  unfold SpecMore.is_pull_request.
  destruct (dict_lookup "pull_request" o); reflexivity.
Qed.

Lemma workflows_content_entries_witness :
  fst (GithubServiceMore.fetch_workflows_content (fun s => Some s)
         (fun _ => "") "o/r" Scenario.root_down_world) = Ok [].
Proof.
  destruct (proj1 (workflows_content_entries (fun s => Some s) (fun _ => ""))
              "o/r" Scenario.root_down_world) as (entries & w' & E & _ & Hfail).
  rewrite E. cbn [fst]. f_equal. eapply Hfail. reflexivity.
Defined.

(** X15. [fetch_issues] of both services sends one request, passes its
    failure on, and of a listing of objects returns exactly those without
    a [pull_request] key, in the order they came. *)
Theorem issues_exclude_pull_requests :
  forall issues_path repo state,
    SpecMore.filters_issues
      (GithubServiceMore.fetch_issues issues_path repo state)
      (GithubService._request (issues_path repo state) GET false) /\
    SpecMore.filters_issues
      (GitHubClientMore.fetch_issues issues_path repo state)
      (GitHubClient._request GET (issues_path repo state) false).
Proof.
  intros issues_path repo state. split; intros w; split.
  - intros items H. unfold GithubServiceMore.fetch_issues, bind.
    destruct (GithubService._request (issues_path repo state) GET false w)
      as [r w1]. cbn [fst snd] in *. subst r.
    unfold lift. now rewrite without_pull_requests_objects.
  - intros e H. unfold GithubServiceMore.fetch_issues, bind.
    destruct (GithubService._request (issues_path repo state) GET false w)
      as [r w1]. cbn [fst snd] in *. now subst r.
  - intros items H. unfold GitHubClientMore.fetch_issues, bind.
    destruct (GitHubClient._request GET (issues_path repo state) false w)
      as [r w1]. cbn [fst snd] in *. subst r.
    unfold lift. now rewrite without_pull_requests_objects.
  - intros e H. unfold GitHubClientMore.fetch_issues, bind.
    destruct (GitHubClient._request GET (issues_path repo state) false w)
      as [r w1]. cbn [fst snd] in *. now subst r.
Qed.

Lemma issues_exclude_pull_requests_witness :
  fst (GithubServiceMore.fetch_issues ScenarioMore.query_url "o/r" "open"
         ScenarioMore.issue_listing_world)
  = Ok [JObj ScenarioMore.an_issue].
Proof.
  pose proof (proj1 (proj1 (issues_exclude_pull_requests
                              ScenarioMore.query_url "o/r" "open")
                       ScenarioMore.issue_listing_world)
                [ScenarioMore.an_issue; ScenarioMore.a_pull_request]
                eq_refl) as E.
  rewrite E. reflexivity.
Defined.

Lemma GithubService_open_prs_count search_path repo w :
  GithubServiceMore.open_prs_count search_path repo w
  = (Ok (SpecMore.total_count_or_zero
           (fst (GithubService._request (search_path repo) GET false w))),
     snd (GithubService._request (search_path repo) GET false w)).
Proof.
  unfold GithubServiceMore.open_prs_count, try_except, bind, lift, ret.
  destruct (GithubService._request (search_path repo) GET false w)
    as [[search|e] w1]; [|reflexivity].
  destruct search as [| | | | |o]; reflexivity.
Qed.

Lemma GitHubClient_open_prs_count search_path repo w :
  GitHubClientMore.open_prs_count search_path repo w
  = (Ok (SpecMore.total_count_or_zero
           (fst (GitHubClient._request GET (search_path repo) false w))),
     snd (GitHubClient._request GET (search_path repo) false w)).
Proof.
  unfold GitHubClientMore.open_prs_count, try_except, bind, lift, ret.
  destruct (GitHubClient._request GET (search_path repo) false w)
    as [[search|e] w1]; [|reflexivity].
  destruct search as [| | | | |o]; reflexivity.
Qed.

Lemma GithubService_fetch_repo_stats_run repo_path search_path repo w :
  GithubServiceMore.fetch_repo_stats repo_path search_path repo w
  = let r := GithubService._request (repo_path repo) GET false w in
    match fst r with
    | Raise e => (Raise e, snd r)
    | Ok data =>
        let s := GithubService._request (search_path repo) GET false (snd r) in
        (GithubServiceMore.repo_stats data
           (SpecMore.total_count_or_zero (fst s)), snd s)
    end.
Proof.
  unfold GithubServiceMore.fetch_repo_stats. unfold bind at 1. cbv zeta.
  destruct (GithubService._request (repo_path repo) GET false w) as [[data|e] w1];
    [|reflexivity].
  cbn [fst snd]. unfold bind. rewrite GithubService_open_prs_count.
  reflexivity.
Qed.

Lemma GitHubClient_fetch_repo_stats_run repo_path search_path repo w :
  GitHubClientMore.fetch_repo_stats repo_path search_path repo w
  = let r := GitHubClient._request GET (repo_path repo) false w in
    match fst r with
    | Raise e => (Raise e, snd r)
    | Ok data =>
        let s := GitHubClient._request GET (search_path repo) false (snd r) in
        (GitHubClientMore.repo_stats data
           (SpecMore.total_count_or_zero (fst s)), snd s)
    end.
Proof.
  unfold GitHubClientMore.fetch_repo_stats. unfold bind at 1. cbv zeta.
  destruct (GitHubClient._request GET (repo_path repo) false w) as [[data|e] w1];
    [|reflexivity].
  cbn [fst snd]. unfold bind. rewrite GitHubClient_open_prs_count.
  reflexivity.
Qed.

(** X16. GithubService's [fetch_repo_stats] passes on a failure of the
    repository request without sending the search.  A failing search
    never fails the call: [openPRsCount] is the search's [total_count]
    and 0 when the search raises, is no object or has no such key.
    [openIssuesCount] is the record's [open_issues_count] as it came, and
    a record lacking it raises KeyError. *)
Theorem service_repo_stats :
  forall repo_path search_path repo w,
    let r := GithubService._request (repo_path repo) GET false w in
    let s := GithubService._request (search_path repo) GET false (snd r) in
    let run := GithubServiceMore.fetch_repo_stats repo_path search_path repo w in
    (forall e, fst r = Raise e -> run = (Raise e, snd r)) /\
    (forall data, fst r = Ok data -> snd run = snd s) /\
    (forall data stats,
        fst r = Ok data -> fst run = Ok stats ->
        getitem stats "openPRsCount"
        = Ok (SpecMore.total_count_or_zero (fst s)) /\
        getitem stats "openIssuesCount" = getitem data "open_issues_count") /\
    (forall o,
        fst r = Ok (JObj o) -> dict_lookup "open_issues_count" o = None ->
        fst run = Raise (KeyError "open_issues_count")).
Proof.
  intros repo_path search_path repo w. cbv zeta.
  rewrite GithubService_fetch_repo_stats_run.
  destruct (GithubService._request (repo_path repo) GET false w) as [r w1].
  cbn [fst snd]. repeat split.
  - intros e ->. reflexivity.
  - intros data ->. reflexivity.
  - revert H0. subst r. cbn [fst].
    unfold GithubServiceMore.repo_stats.
    destruct (getitem data "open_issues_count"); [|discriminate].
    destruct (getitem data "updated_at"); [|discriminate].
    destruct (getitem data "stargazers_count"); [|discriminate].
    destruct (getitem data "forks_count"); [|discriminate].
    cbn [rbind]. intros [= <-]. reflexivity.
  - revert H0. subst r. cbn [fst].
    unfold GithubServiceMore.repo_stats.
    destruct (getitem data "open_issues_count"); [|discriminate].
    destruct (getitem data "updated_at"); [|discriminate].
    destruct (getitem data "stargazers_count"); [|discriminate].
    destruct (getitem data "forks_count"); [|discriminate].
    cbn [rbind]. intros [= <-]. reflexivity.
  - intros o -> Ho. cbn [fst].
    unfold GithubServiceMore.repo_stats. cbn [getitem]. rewrite Ho.
    reflexivity.
Qed.

Lemma service_repo_stats_witness :
  getitem ScenarioMore.repo_record "open_issues_count" = Ok (JNum 12) /\
  exists stats,
    fst (GithubServiceMore.fetch_repo_stats ScenarioMore.repo_url
           ScenarioMore.repo_url "o/r" ScenarioMore.search_down_world)
    = Ok stats /\
    getitem stats "openPRsCount" = Ok (JNum 0) /\
    getitem stats "openIssuesCount" = Ok (JNum 12).
Proof.
  split; [reflexivity|].
  eexists. split; [reflexivity|].
  exact (proj1 (proj2 (proj2 (service_repo_stats ScenarioMore.repo_url
                                ScenarioMore.repo_url "o/r"
                                ScenarioMore.search_down_world)))
           ScenarioMore.repo_record _ eq_refl eq_refl).
Defined.

(** X17. When GitHubClient's [fetch_repo_stats] returns, [openPRsCount]
    is the search's [total_count] (0 when the search fails) and
    [openIssuesCount] is the record's [open_issues_count], 0 when absent,
    less that count: the two add up to the record's figure. *)
Theorem client_repo_stats_add_up :
  forall repo_path search_path repo w data stats,
    let r := GitHubClient._request GET (repo_path repo) false w in
    let s := GitHubClient._request GET (search_path repo) false (snd r) in
    fst r = Ok data ->
    fst (GitHubClientMore.fetch_repo_stats repo_path search_path repo w)
    = Ok stats ->
    exists total_v total prs,
      get data "open_issues_count" (JNum 0) = Ok total_v /\
      as_int total_v = Some total /\
      as_int (SpecMore.total_count_or_zero (fst s)) = Some prs /\
      getitem stats "openPRsCount"
      = Ok (SpecMore.total_count_or_zero (fst s)) /\
      getitem stats "openIssuesCount" = Ok (JNum (total - prs)).
Proof.
  intros repo_path search_path repo w data stats. cbv zeta.
  rewrite GitHubClient_fetch_repo_stats_run. cbv zeta.
  destruct (GitHubClient._request GET (repo_path repo) false w) as [r w1].
  cbn [fst snd]. intros ->. cbn [fst].
  set (prs_v := SpecMore.total_count_or_zero _).
  unfold GitHubClientMore.repo_stats.
  destruct (get data "open_issues_count" (JNum 0)) as [total_v|] eqn:Et;
    [|discriminate].
  cbn [rbind]. unfold sub.
  destruct (as_int total_v) as [total|] eqn:Ea; [|discriminate].
  destruct (as_int prs_v) as [prs|] eqn:Ep; [|discriminate].
  cbn [rbind].
  destruct (get data "updated_at" JNull); [|discriminate].
  destruct (get data "stargazers_count" JNull); [|discriminate].
  destruct (get data "forks_count" JNull); [|discriminate].
  cbn [rbind]. intros [= <-].
  exists total_v, total, prs. repeat split; assumption || reflexivity.
Qed.

Lemma client_repo_stats_add_up_witness :
  exists stats,
    fst (GitHubClientMore.fetch_repo_stats ScenarioMore.repo_url
           ScenarioMore.repo_url "o/r" ScenarioMore.stats_world)
    = Ok stats /\
    getitem stats "openPRsCount" = Ok (JNum 5) /\
    getitem stats "openIssuesCount" = Ok (JNum 7).
Proof.
  eexists. split; [reflexivity|].
  destruct (client_repo_stats_add_up ScenarioMore.repo_url
              ScenarioMore.repo_url "o/r" ScenarioMore.stats_world
              ScenarioMore.repo_record _ eq_refl eq_refl)
    as (total_v & total & prs & Ht & Ea & Ep & Hp & Hi).
  injection Ht as <-. injection Ea as <-. injection Ep as <-.
  split; [exact Hp|exact Hi].
Defined.

(** The message of the exception: the provider's own when the body is
    an object whose [error] is an object with a [message], the generic one
    with the status in every other case. *)
Lemma JulesService_error_message_spec (r : Response) :
  JulesService.error_message r
  = match SpecMore.error_message_of r with
    | Some m => m
    | None => SpecMore.generic_message r
    end.
Proof.
  unfold JulesService.error_message, SpecMore.error_message_of,
    SpecMore.generic_message, response_json.
  destruct (body r) as [[| | |s|l|o]|]; cbn [rbind contains];
    try reflexivity.
  - now destruct (is_infix "error" s).
  - now destruct (existsb (is_str "error") l).
  - destruct (dict_lookup "error" o) as [ev|] eqn:Ee; [|reflexivity].
    cbn [getitem]. rewrite Ee. cbn [rbind].
    destruct ev as [| | |s|l|eo]; cbn [contains rbind]; try reflexivity.
    + now destruct (is_infix "message" s).
    + now destruct (existsb (is_str "message") l).
    + destruct (dict_lookup "message" eo) as [m|] eqn:Em; [|reflexivity].
      cbn [getitem]. now rewrite Em.
Qed.

(** X18. JulesService's [_request] makes exactly one transport call
    whatever the answer, throttling and server errors included, and never
    sleeps.  A 4xx or 5xx answer raises an Exception: its message is the
    [message] of the [error] object of the body whenever the body is an
    object that has one, and the generic one with the status in every
    other case.  A 204 answer gives the empty dict to a method other than
    GET, and the parsed body otherwise. *)
Theorem jules_request_outcomes :
  forall endpoint method w,
    let rq := mkRequest method endpoint false in
    let run := JulesService._request endpoint method w in
    snd run = snd (requests_request rq w) /\
    (forall e, net w (calls w) rq = Failed e -> fst run = Raise e) /\
    (forall r,
        net w (calls w) rq = Reply r -> ok r = false ->
        fst run = Raise (SpecMore.jules_error r) /\
        (forall o error m,
            body r = Some (JObj o) ->
            dict_lookup "error" o = Some (JObj error) ->
            dict_lookup "message" error = Some m ->
            fst run = Raise (Exception m)) /\
        (SpecMore.error_message_of r = None ->
         fst run = Raise (Exception (SpecMore.generic_message r)))) /\
    (forall r,
        net w (calls w) rq = Reply r -> ok r = true ->
        fst run = if negb (method_eqb method GET) && (status_code r =? 204)%Z
                  then Ok (JObj [])
                  else response_json r).
Proof.
  intros endpoint method w. cbv zeta.
  unfold JulesService._request, bind, requests_request.
  destruct (net w (calls w) (mkRequest method endpoint false)) as [r|e] eqn:En.
  - split; [|split; [|split]].
    + unfold raise, ret, lift.
      destruct (negb (ok r)); [reflexivity|].
      destruct (negb (method_eqb method GET) && (status_code r =? 204)%Z);
        reflexivity.
    + discriminate.
    + intros r0 [= <-] Hok. rewrite Hok. cbn [negb raise fst].
      rewrite JulesService_error_message_spec.
      split; [reflexivity|]. split.
      * intros o error m Hb He Hm.
        unfold SpecMore.error_message_of. now rewrite Hb, He, Hm.
      * intros Hnone. now rewrite Hnone.
    + intros r0 [= <-] Hok. rewrite Hok. cbn [negb].
      unfold ret, lift.
      destruct (negb (method_eqb method GET) && (status_code r =? 204)%Z);
        reflexivity.
  - split; [reflexivity|]. split; [|split]; try discriminate.
    intros e0 [= <-]. reflexivity.
Qed.

Lemma jules_request_outcomes_witness :
  fst (JulesService._request (Sessions None) GET ScenarioMore.denying_world)
  = Raise (Exception (JStr "API key not valid")) /\
  calls (snd (JulesService._request (Sessions None) GET
                ScenarioMore.denying_world)) = 1%nat /\
  fst (JulesService._request (Sessions None) GET ScenarioRetry.throttling_world)
  = Raise (Exception (JStr "Jules API Error: 429")).
Proof.
  destruct (jules_request_outcomes (Sessions None) GET
              ScenarioMore.denying_world) as (Hw & _ & Herr & _).
  destruct (jules_request_outcomes (Sessions None) GET
              ScenarioRetry.throttling_world) as (_ & _ & Hgen & _).
  cbv zeta in *. split; [|split].
  - exact (proj1 (proj2 (Herr ScenarioMore.denied eq_refl eq_refl)) _ _ _
             eq_refl eq_refl eq_refl).
  - rewrite Hw. reflexivity.
  - exact (proj2 (proj2 (Hgen ScenarioRetry.throttled eq_refl eq_refl))
             eq_refl).
Defined.

Lemma prefix_refl (s : string) : String.prefix s s = true.
Proof.
  induction s as [|c s IH]; [reflexivity|].
  simpl. destruct (ascii_dec c c); [assumption|contradiction].
Qed.

(** A suffix of a string occurs in it. *)
Lemma ends_with_is_infix (t : string) :
  forall s, ends_with s t = true -> is_infix t s = true.
Proof.
  induction s as [|c s IH]; cbn [ends_with is_infix]; intros H.
  - rewrite orb_false_r in *. apply String.eqb_eq in H. subst t. reflexivity.
  - apply orb_true_iff in H. destruct H as [H|H].
    + apply String.eqb_eq in H. subst t.
      rewrite (prefix_refl (String c s)). reflexivity.
    + rewrite (IH H). apply orb_true_r.
Qed.

Lemma first_source_named (repo_name : string) (names : list string) :
  forall items,
    SpecMore.source_names items = Ok (map JStr names) ->
    JulesServiceMore.first_source repo_name items
    = Ok (SpecMore.first_naming repo_name names).
Proof.
  unfold SpecMore.source_names, SpecMore.first_naming.
  induction names as [|n names IH]; intros [|source items] H;
    cbn [rmap rbind map] in H.
  - reflexivity.
  - destruct (getitem source "name"); [|discriminate]. cbn [rbind] in H.
    destruct (rmap _ items); discriminate.
  - discriminate.
  - destruct (getitem source "name") as [name|] eqn:En; [|discriminate].
    cbn [rbind] in H.
    destruct (rmap _ items) as [rest|] eqn:Er; [|discriminate].
    cbn [rbind] in H. injection H as -> ->.
    cbn [JulesServiceMore.first_source find].
    unfold JulesServiceMore.names_repo. rewrite En.
    cbn [rbind endswith contains].
    destruct (ends_with n repo_name) eqn:Ee.
    + rewrite (ends_with_is_infix _ _ Ee). reflexivity.
    + destruct (is_infix repo_name n); cbn [rbind]; [reflexivity|].
      now apply IH.
Qed.

(** X19. [find_source_for_repo] never raises.  It answers None when
    listing the sources fails, and over a listing whose sources all
    carry a string [name] it answers the first name in which [repo_name]
    occurs, None when there is none: the [endswith] test selects nothing
    the containment test would not. *)
Theorem find_source_first_containing :
  forall sources_path repo_name w,
    let listing := JulesServiceMore.list_sources sources_path None w in
    exists found,
      JulesServiceMore.find_source_for_repo sources_path repo_name w
      = (Ok found, snd listing) /\
      (forall e, fst listing = Raise e -> found = JNull) /\
      (forall items names,
          fst listing = Ok (JArr items) ->
          SpecMore.source_names items = Ok (map JStr names) ->
          found = SpecMore.first_naming repo_name names).
Proof.
  intros sources_path repo_name w. cbv zeta.
  unfold JulesServiceMore.find_source_for_repo, try_except, bind.
  destruct (JulesServiceMore.list_sources sources_path None w)
    as [[sources|e] w1]; cbn [fst snd].
  - unfold lift, ret.
    destruct (iter sources) as [items|e] eqn:Ei; cbn [rbind].
    + destruct (JulesServiceMore.first_source repo_name items)
        as [found|e] eqn:Ef.
      * exists found. split; [reflexivity|]. split; [discriminate|].
        intros items' names [= ->] Hn. cbn [iter] in Ei.
        injection Ei as <-.
        rewrite (first_source_named repo_name names items' Hn) in Ef.
        now injection Ef.
      * exists JNull. split; [reflexivity|]. split; [discriminate|].
        intros items' names [= ->] Hn. cbn [iter] in Ei.
        injection Ei as <-.
        rewrite (first_source_named repo_name names items' Hn) in Ef.
        discriminate.
    + exists JNull. split; [reflexivity|]. split; [discriminate|].
      intros items' names [= ->]. discriminate.
  - exists JNull. split; [reflexivity|]. split; [reflexivity|discriminate].
Qed.

Lemma find_source_first_containing_witness :
  fst (JulesServiceMore.find_source_for_repo ScenarioMore.sources_url "o/r"
         ScenarioMore.sources_world)
  = Ok (JStr "sources/github/o/r").
Proof.
  destruct (find_source_first_containing ScenarioMore.sources_url "o/r"
              ScenarioMore.sources_world) as (found & E & _ & Hfound).
  rewrite E. cbn [fst]. f_equal.
  exact (Hfound _ ["sources/github/o/other"; "sources/github/o/r"]
           eq_refl eq_refl).
Defined.

Lemma fetch_page_failed acc tok w o e :
  net w (calls w) (mkRequest GET (Sessions (JulesService.page_query tok)) false)
    = o ->
  SpecMore.failure_of o = Some e ->
  JulesService.fetch_page acc tok w
  = (Raise e,
     mkWorld (net w) (S (calls w))
       (trace w ++ [Sent (mkRequest GET (Sessions (JulesService.page_query tok))
                            false)])).
Proof.
  intros Ho Hf.
  unfold JulesService.fetch_page, JulesService._request, bind, requests_request.
  rewrite Ho. destruct o as [r|e']; cbn [SpecMore.failure_of] in Hf.
  - destruct (ok r); [discriminate|]. injection Hf as <-. reflexivity.
  - injection Hf as <-. reflexivity.
Qed.

Lemma list_sessions_loop_fails pages o e :
  SpecMore.failure_of o = Some e ->
  forall j fuel acc tok n w from,
    (j < fuel)%nat -> (n + j < 5)%nat ->
    (forall i rq, (i < j)%nat ->
                  net w (calls w + i) rq
                  = Reply (Spec.page_response (pages (from + i)%nat))) ->
    (forall i, (i < j)%nat -> Spec.has_next (pages (from + i)%nat) = true) ->
    (forall rq, net w (calls w + j) rq = o) ->
    exists w',
      JulesService.list_sessions_loop fuel acc tok n w = (Raise e, w') /\
      calls w' = S (calls w + j) /\
      trace w' = (trace w ++ SpecMore.session_requests pages from (S j) tok)%list.
Proof.
  intros Hfail.
  induction j as [|j IH]; intros fuel acc tok n w from Hf Hn Hs Hnext Ho;
    (destruct fuel as [|f]; [lia|]); cbn [JulesService.list_sessions_loop];
    unfold bind at 1.
  - rewrite (fetch_page_failed acc tok w o e); [|
      specialize (Ho (mkRequest GET (Sessions (JulesService.page_query tok)) false));
      now rewrite Nat.add_0_r in Ho | assumption].
    eexists. split; [reflexivity|]. cbn [calls trace SpecMore.session_requests].
    split; [lia|reflexivity].
  - rewrite (fetch_page_served acc tok w (p := pages from)).
    2:{ specialize (Hs 0%nat (mkRequest GET (Sessions (JulesService.page_query tok)) false)).
        rewrite !Nat.add_0_r in Hs. apply Hs. lia. }
    cbn [fst snd]. rewrite truthy_token.
    specialize (Hnext 0%nat) as H0. rewrite Nat.add_0_r in H0.
    rewrite H0 by lia. cbn [negb orb].
    destruct (5 <=? S n)%nat eqn:Hcap; [apply Nat.leb_le in Hcap; lia|].
    set (w1 := mkWorld _ _ _).
    destruct (IH f (acc ++ Spec.sessions_of (pages from))%list
                (Spec.token_json (pages from)) (S n) w1 (S from))
      as (w' & Hr & Hc & Ht); try lia.
    + intros i rq Hi. subst w1. cbn [net calls].
      replace (S (calls w) + i)%nat with (calls w + S i)%nat by lia.
      replace (S from + i)%nat with (from + S i)%nat by lia.
      apply Hs. lia.
    + intros i Hi. replace (S from + i)%nat with (from + S i)%nat by lia.
      apply Hnext. lia.
    + intros rq. subst w1. cbn [net calls].
      replace (S (calls w) + j)%nat with (calls w + S j)%nat by lia.
      apply Ho.
    + exists w'. split; [exact Hr|]. split.
      * rewrite Hc. subst w1. cbn [calls]. lia.
      * rewrite Ht. subst w1. cbn [trace].
        rewrite <- app_assoc. reflexivity.
Qed.

(** X20. [list_sessions] has no handler: when the provider serves
    [j] < 5 pages that each name a next page and then fails the following
    call, by a transport error or an error status, the listing raises that
    error after [j] + 1 calls and the sessions of the pages read are
    lost. *)
Theorem list_sessions_fails_with_its_page :
  forall pages o e j fuel w,
    SpecMore.failure_of o = Some e ->
    (5 <= fuel)%nat -> (j < 5)%nat ->
    (forall i rq, (i < j)%nat ->
                  net w (calls w + i) rq = Reply (Spec.page_response (pages i))) ->
    (forall i, (i < j)%nat -> Spec.has_next (pages i) = true) ->
    (forall rq, net w (calls w + j) rq = o) ->
    fst (JulesService.list_sessions fuel w) = Raise e /\
    calls (snd (JulesService.list_sessions fuel w)) = S (calls w + j).
Proof.
  intros pages o e j fuel w Hfail Hf Hj Hs Hnext Ho.
  unfold JulesService.list_sessions.
  destruct (list_sessions_loop_fails pages o e Hfail j fuel [] JNull 0%nat w 0%nat)
    as (w' & Hr & Hc & _); try lia; try assumption.
  rewrite Hr. split; [reflexivity|exact Hc].
Qed.

Lemma list_sessions_fails_with_its_page_witness :
  fst (JulesService.list_sessions 5 ScenarioMore.two_pages_world)
  = Raise (ConnectionError "down") /\
  calls (snd (JulesService.list_sessions 5 ScenarioMore.two_pages_world))
  = 3%nat.
Proof.
  apply (list_sessions_fails_with_its_page Scenario.endless_pages
           (Failed (ConnectionError "down")) (ConnectionError "down")
           2%nat 5%nat ScenarioMore.two_pages_world).
  - reflexivity.
  - lia.
  - lia.
  - intros [|[|i]] rq Hi; [reflexivity|reflexivity|lia].
  - intros [|[|i]] Hi; [reflexivity|reflexivity|lia].
  - intros rq. reflexivity.
Defined.

Lemma list_sessions_loop_trace pages :
  forall budget fuel acc tok n w from,
    (budget <= fuel)%nat -> (1 <= budget)%nat -> (n + budget = 5)%nat ->
    Spec.serves w pages from ->
    trace (snd (JulesService.list_sessions_loop fuel acc tok n w))
    = (trace w
       ++ SpecMore.session_requests pages from
            (Spec.pages_read pages from budget) tok)%list.
Proof.
  induction budget as [|b IH]; intros fuel acc tok n w from Hf Hb Hn Hs; [lia|].
  destruct fuel as [|f]; [lia|].
  cbn [JulesService.list_sessions_loop Spec.pages_read].
  unfold bind at 1.
  rewrite (fetch_page_served acc tok w (p := pages from)).
  2:{ specialize (Hs 0%nat). rewrite !Nat.add_0_r in Hs. apply Hs. }
  cbn [fst snd]. rewrite truthy_token.
  set (w1 := mkWorld _ _ _).
  destruct (Spec.has_next (pages from)) eqn:Hnext; cbn [negb orb].
  - destruct (5 <=? S n)%nat eqn:Hcap.
    + apply Nat.leb_le in Hcap. assert (b = 0)%nat by lia. subst b.
      reflexivity.
    + apply Nat.leb_gt in Hcap.
      rewrite (IH f _ _ (S n) w1 (S from)); try lia.
      * subst w1. cbn [trace SpecMore.session_requests].
        rewrite <- app_assoc. reflexivity.
      * intros i rq. subst w1. cbn [net calls].
        replace (S (calls w) + i)%nat with (calls w + S i)%nat by lia.
        replace (S from + i)%nat with (from + S i)%nat by lia. apply Hs.
  - reflexivity.
Qed.

(** X21. Against a provider that serves pages, [list_sessions] sends one
    request per page read and nothing else, the first without a page
    token and each later one with the token of the page before it; it
    never sleeps between pages. *)
Theorem list_sessions_follows_tokens :
  forall fuel w pages,
    (5 <= fuel)%nat ->
    Spec.serves w pages 0 ->
    trace (snd (JulesService.list_sessions fuel w))
    = (trace w
       ++ SpecMore.session_requests pages 0 (Spec.pages_read pages 0 5) JNull)%list /\
    JulesService.page_query JNull = None /\
    (forall p,
        Spec.has_next p = true ->
        exists t,
          Spec.nextPageToken p = Some t /\
          JulesService.page_query (Spec.token_json p) = Some (JStr t)).
Proof.
  intros fuel w pages Hf Hs. split; [|split].
  - unfold JulesService.list_sessions.
    apply list_sessions_loop_trace; try lia. assumption.
  - reflexivity.
  - intros p Hp. unfold Spec.has_next, Spec.token_json in *.
    destruct (Spec.nextPageToken p) as [t|]; [|discriminate].
    exists t. split; [reflexivity|].
    unfold JulesService.page_query. cbn [truthy].
    destruct t; [discriminate|reflexivity].
Qed.

Lemma list_sessions_follows_tokens_witness :
  trace (snd (JulesService.list_sessions 5 Scenario.endless_world))
  = [Sent (mkRequest GET (Sessions None) false);
     Sent (mkRequest GET (Sessions (Some (JStr "more"))) false);
     Sent (mkRequest GET (Sessions (Some (JStr "more"))) false);
     Sent (mkRequest GET (Sessions (Some (JStr "more"))) false);
     Sent (mkRequest GET (Sessions (Some (JStr "more"))) false)].
Proof.
  assert (Hf : (5 <= 5)%nat) by lia.
  assert (Hs : Spec.serves Scenario.endless_world Scenario.endless_pages 0).
  { intros i rq. reflexivity. }
  exact (proj1 (list_sessions_follows_tokens 5%nat Scenario.endless_world
                  Scenario.endless_pages Hf Hs)).
Defined.

(** X22. [fetch_pr_diff] asks for the diff media type and returns the
    text of the answer without parsing it, so a body that is no JSON
    raises nothing; GitHubClient answers a 204 with an empty object
    instead.  One request is sent when the answer is no error. *)
Theorem pr_diff_is_the_response_text :
  forall repo number w r,
    let rq := mkRequest GET (PullDetail repo number) true in
    let w' := mkWorld (net w) (S (calls w)) (trace w ++ [Sent rq]) in
    net w (calls w) rq = Reply r ->
    rate_limited r = false ->
    ok r = true ->
    GithubServiceMore.fetch_pr_diff repo number w = (Ok (JStr (text r)), w') /\
    GitHubClientMore.fetch_pr_diff repo number w
    = (Ok (if (status_code r =? 204)%Z then JObj [] else JStr (text r)), w').
Proof.
  intros repo number w r rq w' Hr Hrl Hok. split.
  - unfold GithubServiceMore.fetch_pr_diff.
    rewrite GithubService_request_run. fold rq. rewrite Hr.
    unfold GithubService.read_response, GithubService.check_response.
    rewrite Hrl, Hok. reflexivity.
  - unfold GitHubClientMore.fetch_pr_diff, GitHubClient._request.
    rewrite retry_loop_run. fold rq. rewrite Hr. cbv zeta.
    unfold GitHubClient.attempt_result, GitHubClient.read_response,
      GitHubClient.check_response.
    rewrite Hrl, Hok. cbn [negb rbind accept_diff rq].
    destruct (status_code r =? 204)%Z; reflexivity.
Qed.

Lemma pr_diff_is_the_response_text_witness :
  fst (GithubServiceMore.fetch_pr_diff "o/r" (JNum 42) ScenarioMore.diff_world)
  = Ok (JStr "diff --git a/x b/x") /\
  fst (GitHubClientMore.fetch_pr_diff "o/r" (JNum 42) ScenarioMore.diff_world)
  = Ok (JStr "diff --git a/x b/x").
Proof.
  destruct (pr_diff_is_the_response_text "o/r" (JNum 42) ScenarioMore.diff_world
              ScenarioMore.diff_response eq_refl eq_refl eq_refl) as [Hs Hc].
  rewrite Hs, Hc. split; reflexivity.
Defined.

Lemma rmap_app_ok {A B} (f : A -> result B) (l1 l2 : list A) r1 r2 :
  rmap f l1 = Ok r1 -> rmap f l2 = Ok r2 -> rmap f (l1 ++ l2) = Ok (r1 ++ r2).
Proof.
  revert r1. induction l1 as [|x l1 IH]; intros r1 H1 H2; cbn [rmap app] in *.
  - now injection H1 as <-.
  - destruct (f x) as [y|e]; [|discriminate]. cbn [rbind] in *.
    destruct (rmap f l1) as [ys|e]; [|discriminate]. cbn [rbind] in *.
    injection H1 as <-. rewrite (IH ys eq_refl H2). reflexivity.
Qed.

Lemma rmap_total {A B} (f : A -> result B) (l : list A) :
  (forall x, In x l -> exists y, f x = Ok y) ->
  exists ys, rmap f l = Ok ys /\ List.length ys = List.length l.
Proof.
  induction l as [|x l IH]; intros H; cbn [rmap].
  - now exists [].
  - destruct (H x (or_introl eq_refl)) as (y & ->).
    destruct (IH (fun x' Hin => H x' (or_intror Hin))) as (ys & -> & Hlen).
    exists (y :: ys). cbn [rbind List.length]. now rewrite Hlen.
Qed.

Lemma for_each_isolates {A B} (body : A -> M B) (before after : list A)
    (x : A) w :
  (forall a, Spec.oblivious (body a)) ->
  Spec.stateless (net w) ->
  (forall a, In a (before ++ x :: after) -> exists y, fst (body a w) = Ok y) ->
  SpecMore.isolates body before after x w.
Proof.
  intros Hob Hs Htotal.
  destruct (rmap_total (fun a => fst (body a w)) before) as (rb & Hb & Hlb).
  { intros a Hin. apply Htotal. apply in_or_app. now left. }
  destruct (rmap_total (fun a => fst (body a w)) after) as (ra & Ha & _).
  { intros a Hin. apply Htotal. apply in_or_app. right. now right. }
  destruct (Htotal x) as (r & Hr).
  { apply in_or_app. right. now left. }
  exists rb, r, ra.
  rewrite !for_each_alone by assumption.
  repeat split; try assumption.
  - apply rmap_app_ok; [assumption|]. cbn [rmap]. rewrite Hr, Ha. reflexivity.
  - now apply rmap_app_ok.
Qed.

(** X23. Against a provider that answers a request the same way whenever
    it is asked, the record of a pull request does not depend on the rest
    of the batch, in either service: taking one pull request out of the
    batch takes out its record and leaves the others as they were, and
    its record is the one it gets when enriched alone. *)
Theorem enrichment_isolated :
  forall repo (before after : list pydict) (pr : pydict) w,
    Spec.stateless (net w) ->
    SpecMore.isolates (GithubService.enrich_pr repo)
      (map JObj before) (map JObj after) (JObj pr) w /\
    SpecMore.isolates
      (fun item => GitHubClient.submit (GitHubClient.enrich_pr repo item))
      (map JObj before) (map JObj after) (JObj pr) w.
Proof.
  intros repo before after pr w Hs.
  assert (Hobj : forall a, In a (map JObj before ++ JObj pr :: map JObj after) ->
                           exists o, a = JObj o).
  { intros a Hin. apply in_app_or in Hin. destruct Hin as [Hin|[<-|Hin]].
    - apply in_map_iff in Hin. destruct Hin as (o & <- & _). now exists o.
    - now exists pr.
    - apply in_map_iff in Hin. destruct Hin as (o & <- & _). now exists o. }
  split; apply for_each_isolates; try assumption.
  - intros a. apply GithubService_enrich_pr_oblivious.
  - intros a Hin. destruct (Hobj a Hin) as (o & ->).
    apply GithubService_enrich_pr_total.
  - intros a. apply oblivious_submit. apply GitHubClient_enrich_pr_oblivious.
  - intros a Hin. destruct (Hobj a Hin) as (o & ->).
    destruct (GitHubClient_enrich_pr_total repo o w) as (record & Hrec).
    exists (Ok record). unfold GitHubClient.submit.
    destruct (GitHubClient.enrich_pr repo (JObj o) w) as [r' w1].
    cbn [fst] in *. now subst r'.
Qed.

Lemma enrichment_isolated_witness :
  SpecMore.isolates (GithubService.enrich_pr "o/r")
    [JObj ScenarioMore.an_issue] [] Scenario.pull_request
    Scenario.healthy_world.
Proof.
  assert (Hs : Spec.stateless (net Scenario.healthy_world)).
  { intros n m rq. reflexivity. }
  exact (proj1 (enrichment_isolated "o/r" [ScenarioMore.an_issue] []
                  [("number", JNum 42); ("title", JStr "Add retries");
                   ("head", JObj [("sha", JStr "abc")]);
                   ("base", JObj [("ref", JStr "main")])]
                  Scenario.healthy_world Hs)).
Defined.

(** X24. The listing of pull requests is outside the handler of the
    enrichment: when it fails, GithubService's
    [fetch_enriched_pull_requests] raises its error with nothing else
    sent, and so does every outcome of GitHubClient's.  A listing of
    [n] objects yields [min n 50] records. *)
Theorem enriched_listing_outcomes :
  forall repo w,
    let listing := GithubService.fetch_pull_requests repo "open" w in
    (forall e,
        fst listing = Raise e ->
        GithubService.fetch_enriched_pull_requests repo w
        = (Raise e, snd listing)) /\
    (forall e outcome w',
        fst (GitHubClient.fetch_pull_requests repo "open" w) = Raise e ->
        GitHubClient.fetch_enriched_pull_requests repo w outcome w' ->
        outcome = Raise e /\
        w' = snd (GitHubClient.fetch_pull_requests repo "open" w)) /\
    (forall prs : list pydict,
        fst listing = Ok (JArr (map JObj prs)) ->
        exists records,
          fst (GithubService.fetch_enriched_pull_requests repo w) = Ok records /\
          List.length records = Nat.min (List.length prs) 50).
Proof.
  intros repo w. cbv zeta. split; [|split].
  - intros e H. unfold GithubService.fetch_enriched_pull_requests, bind.
    destruct (GithubService.fetch_pull_requests repo "open" w) as [r w1].
    cbn [fst snd] in *. now subst r.
  - intros e outcome w' H. unfold GitHubClient.fetch_enriched_pull_requests.
    destruct (GitHubClient.fetch_pull_requests repo "open" w) as [r w1].
    cbn [fst snd] in *. subst r. now intros [-> ->].
  - intros prs H. unfold GithubService.fetch_enriched_pull_requests, bind.
    destruct (GithubService.fetch_pull_requests repo "open" w) as [r w1].
    cbn [fst snd] in *. subst r.
    assert (Hrun : GithubService.enrich repo (JArr (map JObj prs)) w1
                   = for_each (GithubService.enrich_pr repo)
                       (map JObj (firstn 50 prs)) w1).
    { unfold GithubService.enrich, bind, lift, slice_to, iter.
      cbv beta iota. now rewrite firstn_map. }
    rewrite Hrun.
    destruct (for_each_total (GithubService.enrich_pr repo)
                (map JObj (firstn 50 prs))) with (w := w1) as (records & Hr & Hl).
    { intros x w0 Hin. apply in_map_iff in Hin. destruct Hin as (pr & <- & _).
      apply GithubService_enrich_pr_total. }
    exists records. split; [assumption|].
    rewrite Hl, length_map, length_firstn. apply Nat.min_comm.
Qed.

Lemma enriched_listing_outcomes_witness :
  fst (GithubService.fetch_enriched_pull_requests "o/r"
         ScenarioMore.listing_down_world)
  = Raise (ConnectionError "down").
Proof.
  pose proof (proj1 (enriched_listing_outcomes "o/r"
                       ScenarioMore.listing_down_world)
                (ConnectionError "down") eq_refl) as E.
  rewrite E. reflexivity.
Defined.

(* ===================================================================== *)
(** ** The cleaners of model answers                                      *)
(* ===================================================================== *)

Section Cleaners.

Import GeminiService.

Lemma startswith_iff (p s : text) :
  startswith p s = true <-> exists r, s = p ++ r.
Proof.
  revert s. induction p as [|a p IH]; intros s; cbn [startswith].
  - split; [intros _; now exists s|reflexivity].
  - destruct s as [|b s].
    + split; [discriminate|intros (r & H); discriminate].
    + rewrite andb_true_iff, N.eqb_eq, IH. split.
      * intros (-> & r & ->). now exists r.
      * intros (r & H). injection H as -> ->. split; [reflexivity|now exists r].
Qed.

Lemma endswith_iff (p s : text) :
  endswith p s = true <-> exists front, s = front ++ p.
Proof.
  unfold endswith. rewrite startswith_iff. split.
  - intros (r & H). exists (rev r).
    rewrite <- (rev_involutive s), H, rev_app_distr, rev_involutive.
    reflexivity.
  - intros (front & ->). exists (rev front). apply rev_app_distr.
Qed.

Lemma skipn_prefix (p r : text) : skipn (List.length p) (p ++ r) = r.
Proof. induction p as [|a p IH]; [reflexivity|exact IH]. Qed.

Lemma drop_last_suffix (n : nat) (front p : text) :
  List.length p = n -> drop_last n (front ++ p) = front.
Proof.
  intros <-. unfold drop_last. rewrite length_app, Nat.add_sub.
  rewrite firstn_app, Nat.sub_diag, firstn_all. cbn [firstn]. apply app_nil_r.
Qed.

Lemma rstrip_snoc (s : text) (c : N) :
  rstrip (s ++ [c]) = if isspace c then rstrip s else s ++ [c].
Proof.
  induction s as [|a s IH]; cbn [app rstrip].
  - now destruct (isspace c).
  - rewrite IH. destruct (isspace c).
    + reflexivity.
    + destruct (s ++ [c]) eqn:E; [|reflexivity].
      now destruct s.
Qed.

Lemma rstrip_trailing (s front : text) (c : N) :
  rstrip s = front ++ [c] -> isspace c = false.
Proof.
  revert front. induction s as [|a s IH]; intros front H; cbn [rstrip] in H.
  - now destruct front.
  - destruct (rstrip s) as [|b kept] eqn:E.
    + destruct (isspace a) eqn:Ea; [now destruct front|].
      destruct front as [|x front]; [now injection H as <-|].
      injection H as _ H. now destruct front.
    + destruct front as [|x front].
      * injection H as _ H. discriminate.
      * injection H as _ H. now apply (IH front).
Qed.

Lemma lstrip_leading (s rest : text) (c : N) :
  lstrip s = c :: rest -> isspace c = false.
Proof.
  induction s as [|a s IH]; cbn [lstrip]; [discriminate|].
  destruct (isspace a) eqn:Ea; [assumption|].
  intros [= <- _]. assumption.
Qed.

Lemma lstrip_suffix (s : text) : exists ws, s = ws ++ lstrip s.
Proof.
  induction s as [|a s (ws & IH)]; cbn [lstrip]; [now exists []|].
  destruct (isspace a); [|now exists []].
  exists (a :: ws). cbn [app]. now rewrite <- IH.
Qed.

Lemma strip_trimmed (s : text) : SpecMore.trimmed (strip s).
Proof.
  unfold strip. split.
  - intros c rest. apply lstrip_leading.
  - intros front c H.
    destruct (lstrip_suffix (rstrip s)) as (ws & Hs).
    apply (rstrip_trailing s (ws ++ front) c).
    rewrite Hs, H. apply app_assoc.
Qed.

Lemma strip_cons_space (c : N) (s : text) :
  isspace c = true -> strip (c :: s) = strip s.
Proof.
  intros Hc. unfold strip. cbn [rstrip]. rewrite Hc.
  destruct (rstrip s); cbn [lstrip]; [reflexivity|now rewrite Hc].
Qed.

Lemma strip_snoc_space (c : N) (s : text) :
  isspace c = true -> strip (s ++ [c]) = strip s.
Proof. intros Hc. unfold strip. now rewrite rstrip_snoc, Hc. Qed.

Lemma strip_chomp (s : text) : strip (chomp s) = strip s.
Proof.
  unfold chomp. destruct (endswith [newline] s) eqn:E; [|reflexivity].
  apply endswith_iff in E. destruct E as (front & ->).
  rewrite (drop_last_suffix 1 front [newline]) by reflexivity.
  symmetry. now apply strip_snoc_space.
Qed.

Lemma strip_skip_newline (s : text) : strip (skip_newline s) = strip s.
Proof.
  unfold skip_newline. destruct (startswith [newline] s) eqn:E; [|reflexivity].
  apply startswith_iff in E. destruct E as (r & ->).
  cbn [app skipn]. symmetry. now apply strip_cons_space.
Qed.

(** On a text that does not end in white space the closing pattern can
    only match at the very end. *)
Lemma sub_close_no_trailing (s : text) :
  (forall front c, s = front ++ [c] -> isspace c = false) ->
  strip (sub_close s)
  = strip (if endswith fence s then drop_last 3 s else s).
Proof.
  intros Hs. unfold sub_close.
  destruct (endswith fence s); [apply strip_chomp|].
  destruct (endswith (fence ++ [newline]) s) eqn:E; [|reflexivity].
  apply endswith_iff in E. destruct E as (front & ->).
  specialize (Hs (front ++ fence) newline).
  rewrite <- app_assoc in Hs. specialize (Hs eq_refl). discriminate.
Qed.

Lemma endswith_fence_cons_newline (s : text) :
  endswith fence (newline :: s) = endswith fence s.
Proof.
  apply eq_true_iff_eq. rewrite !endswith_iff. split.
  - intros ([|a front] & H).
    + discriminate.
    + injection H as _ ->. now exists front.
  - intros (front & ->). now exists (newline :: front).
Qed.

Lemma cleaners_agree_trimmed (t : text) :
  (forall front c, t = front ++ [c] -> isspace c = false) ->
  strip (sub_close (sub_open t))
  = strip (let t1 := if startswith fence_json t then skipn 7 t else t in
           if endswith fence t1 then drop_last 3 t1 else t1).
Proof.
  intros Ht. cbv zeta. unfold sub_open.
  destruct (startswith fence_json t) eqn:Eo.
  2:{ now apply sub_close_no_trailing. }
  apply startswith_iff in Eo. destruct Eo as (r & ->).
  change (skipn 7 (fence_json ++ r))
    with (skipn (List.length fence_json) (fence_json ++ r)).
  rewrite skipn_prefix.
  assert (Hr : forall front c, r = front ++ [c] -> isspace c = false).
  { intros front c ->. apply (Ht (fence_json ++ front) c).
    now rewrite app_assoc. }
  unfold skip_newline.
  destruct (startswith [newline] r) eqn:En.
  2:{ now apply sub_close_no_trailing. }
  apply startswith_iff in En. destruct En as (r' & ->).
  cbn [app skipn].
  rewrite sub_close_no_trailing.
  2:{ intros front c ->. apply (Hr (newline :: front) c). reflexivity. }
  change ([newline] ++ r') with (newline :: r').
  rewrite endswith_fence_cons_newline.
  destruct (endswith fence r') eqn:Ec.
  - apply endswith_iff in Ec. destruct Ec as (front & ->).
    change (newline :: front ++ fence) with ((newline :: front) ++ fence).
    rewrite (drop_last_suffix 3 front fence) by reflexivity.
    rewrite (drop_last_suffix 3 (newline :: front) fence) by reflexivity.
    symmetry. now apply strip_cons_space.
  - symmetry. now apply strip_cons_space.
Qed.

Lemma lstrip_spaces (ws s : text) :
  forallb isspace ws = true -> lstrip (ws ++ s) = lstrip s.
Proof.
  induction ws as [|c ws IH]; cbn [forallb app lstrip]; [reflexivity|].
  intros H. apply andb_true_iff in H. destruct H as [-> H]. now apply IH.
Qed.

Lemma strip_spaces_front (ws s : text) :
  forallb isspace ws = true -> strip (ws ++ s) = strip s.
Proof.
  induction ws as [|c ws IH]; cbn [forallb app]; [reflexivity|].
  intros H. apply andb_true_iff in H. destruct H as [Hc H].
  rewrite strip_cons_space by assumption. now apply IH.
Qed.

Lemma strip_spaces_back (ws s : text) :
  forallb isspace ws = true -> strip (s ++ ws) = strip s.
Proof.
  revert s. induction ws as [|c ws IH]; intros s; cbn [forallb].
  - now rewrite app_nil_r.
  - intros H. apply andb_true_iff in H. destruct H as [Hc H].
    change (c :: ws) with ([c] ++ ws). rewrite app_assoc, IH by assumption.
    now apply strip_snoc_space.
Qed.

Lemma rstrip_no_trailing (s : text) :
  (forall front c, s = front ++ [c] -> isspace c = false) -> rstrip s = s.
Proof.
  induction s as [|a s IH] using rev_ind; intros H; [reflexivity|].
  rewrite rstrip_snoc, (H s a eq_refl). reflexivity.
Qed.

Lemma strip_of_trimmed (s : text) : SpecMore.trimmed s -> strip s = s.
Proof.
  intros [Hl Hr]. unfold strip. rewrite rstrip_no_trailing by assumption.
  destruct s as [|c s]; [reflexivity|].
  cbn [lstrip]. now rewrite (Hl c s eq_refl).
Qed.

End Cleaners.

(** X25. The two cleaners of model answers, the one with regular
    expressions in gemini_service.py and the one with slices in
    core.py, compute the same text on every input: the newline the
    patterns take with a fence is white space the final strip removes
    anyway. *)
Theorem cleaners_agree :
  forall s,
    GeminiService.clean_json_string s = GeminiService._clean_json_string s.
Proof.
  intros s. unfold GeminiService.clean_json_string,
    GeminiService._clean_json_string. cbv zeta.
  apply cleaners_agree_trimmed.
  apply (strip_trimmed s).
Qed.

(** X26. [_clean_json_string] returns a text with no white space at
    either end.  Of a block fenced with the json opening and the closing
    backticks, white space around it or not, it returns the stripped
    inside; a text that, once stripped, has neither fence is only
    stripped. *)
Theorem clean_json_string_unwraps :
  (forall s, SpecMore.trimmed (GeminiService._clean_json_string s)) /\
  (forall before inside after,
      forallb GeminiService.isspace before = true ->
      forallb GeminiService.isspace after = true ->
      GeminiService._clean_json_string
        (before ++ GeminiService.fence_json ++ inside ++ GeminiService.fence
         ++ after)
      = GeminiService.strip inside) /\
  (forall s,
      GeminiService.startswith GeminiService.fence_json (GeminiService.strip s)
      = false ->
      GeminiService.endswith GeminiService.fence (GeminiService.strip s)
      = false ->
      GeminiService._clean_json_string s = GeminiService.strip s).
Proof.
  split; [|split].
  - intros s. apply strip_trimmed.
  - intros before inside after Hb Ha.
    unfold GeminiService._clean_json_string. cbv zeta.
    set (block := (GeminiService.fence_json ++ inside ++ GeminiService.fence)%list).
    assert (Hs : GeminiService.strip
                   (before ++ GeminiService.fence_json ++ inside
                    ++ GeminiService.fence ++ after) = block).
    { replace (before ++ GeminiService.fence_json ++ inside
               ++ GeminiService.fence ++ after)%list
        with (before ++ block ++ after)%list
        by (unfold block; now rewrite <- !app_assoc).
      rewrite strip_spaces_front, strip_spaces_back by assumption.
      apply strip_of_trimmed. split.
      - intros c rest H. unfold block in H. injection H as <- _. reflexivity.
      - intros front c H. unfold block in H.
        rewrite !app_assoc in H.
        change GeminiService.fence
          with ([GeminiService.backtick; GeminiService.backtick]
                ++ [GeminiService.backtick])%list in H.
        rewrite app_assoc in H. apply app_inj_tail in H.
        destruct H as [_ <-]. reflexivity. }
    rewrite Hs.
    assert (Ho : GeminiService.startswith GeminiService.fence_json block = true).
    { apply startswith_iff. now eexists. }
    rewrite Ho.
    change (skipn 7 block)
      with (skipn (List.length GeminiService.fence_json) block).
    unfold block. rewrite skipn_prefix.
    assert (Hc : GeminiService.endswith GeminiService.fence
                   (inside ++ GeminiService.fence) = true).
    { apply endswith_iff. now eexists. }
    rewrite Hc.
    now rewrite (drop_last_suffix 3 inside GeminiService.fence) by reflexivity.
  - intros s Ho Hc. unfold GeminiService._clean_json_string. cbv zeta.
    rewrite Ho, Hc. apply strip_of_trimmed, strip_trimmed.
Qed.

Lemma clean_json_string_unwraps_witness :
  GeminiService._clean_json_string ScenarioMore.fenced_answer = [123; 125]%N.
Proof.
  exact (proj1 (proj2 clean_json_string_unwraps) [] [10; 123; 125; 10]%N
           [10]%N eq_refl eq_refl).
Defined.
